(** * rtbench: the IRQ latency measurement task of [stat/main.c]

    A shallow embedding of [rtask_main] and [main] and of the helpers they
    inline: the 32-bit counter arithmetic, the conversion of ticks to
    microseconds, the latency histogram, the arm / disarm protocol on the
    CTL register and the final report.

    The two libraries the program is linked against ([libepci], register
    access, and [libuirq], interrupt wait) are the environment.  A value of
    type [device] fixes how the environment answers; every call that
    reaches it is logged, in program order, in the [trace] of the [world]. *)

From Stdlib Require Import ZArith Lia Ascii String Sorted.
From stdpp Require Import base numbers list strings pretty.

Local Open Scope Z_scope.

(** ** Machine integers *)

Definition UINT32_MAX : Z := 4294967295.
Definition UINT64_MAX : Z := 18446744073709551615.

(** Conversion to [uint32_t] and [uint64_t]: reduction modulo 2^32, 2^64. *)
Definition to_u32 (z : Z) : Z := z mod (UINT32_MAX + 1).
Definition to_u64 (z : Z) : Z := z mod (UINT64_MAX + 1).

(** ** Register map and constants of [main.c] *)

Definition REG_BAR : Z := 1.
Definition REG_BASE : Z := 128.
Definition REG_CTL : Z := 0.
Definition REG_TOGL : Z := 8.
Definition REG_MAGIC : Z := 12.
Definition REG_FCLK : Z := 16.
Definition REG_START : Z := 20.
Definition REG_NOW : Z := 24.
Definition REG_COUNT : Z := 28.

Definition LAT_MAX_US : Z := 1000000.
Definition LAT_RES_US : Z := 1.
Definition LAT_MAX_COUNT : Z := LAT_MAX_US / LAT_RES_US.

Definition MAGIC : Z := 0xbadcafee.
Definition CTL_START : Z := 2147483648. (* 1 << 31 *)

(** ** Data *)

Module Cmd.

(** [cmdline_t] *)
Record cmdline_t := { irq_fgen : Z; irq_count : Z }.

End Cmd.

(** [rtask_arg_t]; [lat_hist] is the array of [LAT_MAX_COUNT] counters of
    type [uint32_t], [irq_count] and [irq_missed] are [size_t]. *)
Record rtask_arg_t := {
  cmd : Cmd.cmdline_t;
  lat_hist : list Z;
  irq_count : Z;
  irq_missed : Z
}.

(** ** Environment *)

(** What one pass through the loop body gets from outside: whether SIGINT
    is delivered before the exit test of this pass, the value returned by
    [uirq_wait] and the mask it leaves, and the START and NOW registers as
    they would be read. *)
Record wake := {
  wk_sigint : bool;
  wk_ret : Z;
  wk_mask : Z;
  wk_start : Z;
  wk_now : Z
}.

Record device := {
  ebm_open_ok : bool;     (* epci_open (.., 0) in enable_ebone_slave_interrupt *)
  ebm_ctl0 : Z;           (* control register 0 of BAR 0 *)
  uirq_init_ok : bool;    (* uirq_init_lib *)
  uirq_open_ok : bool;    (* uirq_open *)
  uirq_mask_ok : bool;    (* uirq_set_mask *)
  epci_open_ok : bool;    (* epci_open (.., REG_BAR) *)
  reg_magic : Z;
  reg_fclk : Z;
  wakes : list wake
}.

Inductive event :=
| EpciOpen (bar : Z) (ok : bool)
| EpciClose (bar : Z)
| EpciRd32 (bar off v : Z)
| EpciWr32 (bar off v : Z)
| UirqInitLib (ok : bool)
| UirqOpen (ok : bool)
| UirqSetMask (m v : Z) (ok : bool)
| UirqWait (timeout_ms ret m : Z)
| UirqClose
| SignalInstall
| Sigint
| Perror (line : Z).

Record world := {
  w_arg : rtask_arg_t;
  is_sigint : Z;
  trace : list event
}.

Definition emit (e : event) (w : world) : world :=
  {| w_arg := w_arg w; is_sigint := is_sigint w; trace := trace w ++ [e] |}.

Definition set_arg (a : rtask_arg_t) (w : world) : world :=
  {| w_arg := a; is_sigint := is_sigint w; trace := trace w |}.

Definition set_sigint (v : Z) (w : world) : world :=
  {| w_arg := w_arg w; is_sigint := v; trace := trace w |}.

(** [on_sigint] *)
Definition on_sigint (w : world) : world := set_sigint 1 (emit Sigint w).

(** ** Register access *)

Definition reg_write (off x : Z) (w : world) : world :=
  emit (EpciWr32 REG_BAR (REG_BASE + off) x) w.

Definition reg_read (off v : Z) (w : world) : Z * world :=
  let x := to_u32 v in (x, emit (EpciRd32 REG_BAR (REG_BASE + off) x) w).

Definition reg_write_ctl (x : Z) (w : world) : world := reg_write REG_CTL x w.
Definition reg_read_magic (d : device) (w : world) := reg_read REG_MAGIC (reg_magic d) w.
Definition reg_read_fclk (d : device) (w : world) := reg_read REG_FCLK (reg_fclk d) w.
Definition reg_read_start (k : wake) (w : world) := reg_read REG_START (wk_start k) w.
Definition reg_read_now (k : wake) (w : world) := reg_read REG_NOW (wk_now k) w.

(** ** Latency arithmetic (lines 365 to 370) *)

(** [if (xx < x) xxx = ((uint32_t)-1) - x + xx; else xxx = xx - x;] *)
Definition latency_ticks (x xx : Z) : Z :=
  if xx <? x then to_u32 (to_u32 (to_u32 (-1) - x) + xx)
  else to_u32 (xx - x).

(** [(uint32_t)(((uint64_t)xxx * (uint64_t)1000000) / (uint64_t)irq_fclk)];
    a zero divisor has no defined result. *)
Definition ticks_to_us (xxx irq_fclk : Z) : option Z :=
  if irq_fclk =? 0 then None
  else Some (to_u32 (to_u64 (to_u64 xxx * to_u64 1000000) / to_u64 irq_fclk)).

(** [++arg->lat_hist[i]]; [None] when [i] is outside the array. *)
Definition hist_incr (h : list Z) (i : Z) : option (list Z) :=
  match h !! Z.to_nat i with
  | Some c => Some (<[Z.to_nat i := to_u32 (c + 1)]> h)
  | None => None
  end.

Definition sum_buckets (h : list Z) : Z := foldr Z.add 0 h.

(** The bucket at offset [i], read as a number. *)
Definition bucket (h : list Z) (i : Z) : Z := default 0 (h !! Z.to_nat i).

Section Platform.

(** The width of [size_t] and the C library's [strtoul] belong to the
    platform the program is built for. *)
Variable SIZE_MAX : Z.
Variable strtoul : string -> Z -> Z.

Definition to_size (z : Z) : Z := z mod (SIZE_MAX + 1).

(** ** The measurement task *)

Definition with_hist (h : list Z) (a : rtask_arg_t) : rtask_arg_t :=
  {| cmd := cmd a; lat_hist := h; irq_count := irq_count a; irq_missed := irq_missed a |}.

Definition with_missed (n : Z) (a : rtask_arg_t) : rtask_arg_t :=
  {| cmd := cmd a; lat_hist := lat_hist a; irq_count := irq_count a; irq_missed := n |}.

Definition with_count (n : Z) (a : rtask_arg_t) : rtask_arg_t :=
  {| cmd := cmd a; lat_hist := lat_hist a; irq_count := n; irq_missed := irq_missed a |}.

(** Lines 365 to 375: latency in ticks, conversion to microseconds, then
    [if (xxx < LAT_MAX_COUNT) ++arg->lat_hist[xxx]; else ++arg->irq_missed;].
    [None] stands for an undefined operation: division by zero, a store
    outside the array. *)
Definition record_latency (irq_fclk x xx : Z) (a : rtask_arg_t) : option rtask_arg_t :=
  match ticks_to_us (latency_ticks x xx) irq_fclk with
  | None => None
  | Some xxx =>
      if xxx <? LAT_MAX_COUNT then
        match hist_incr (lat_hist a) xxx with
        | Some h => Some (with_hist h a)
        | None => None
        end
      else Some (with_missed (to_size (irq_missed a + 1)) a)
  end.

Inductive status := Continue | Break | WaitError | Fault.

(** Lines 363 to 375 with the two register reads. *)
Definition read_sample (irq_fclk : Z) (k : wake) (w : world) : status * world :=
  let '(x, w) := reg_read_start k w in
  let '(xx, w) := reg_read_now k w in
  match record_latency irq_fclk x xx (w_arg w) with
  | Some a => (Continue, set_arg a w)
  | None => (Fault, w)
  end.

(** [skip_irq:], lines 385 and 386. *)
Definition skip_irq (w : world) : status * world :=
  if negb (is_sigint w =? 0) then (Break, w)
  else if (0 <? Cmd.irq_count (cmd (w_arg w)))
          && (irq_count (w_arg w) =? Cmd.irq_count (cmd (w_arg w)))
       then (Break, w)
       else (Continue, w).

(** One pass through the body of the [for] loop, lines 349 to 386.  A
    signal of this pass is delivered before [uirq_wait] is called, the
    earliest it can be; the flag is only read at [skip_irq]. *)
Definition loop_body (irq_fclk : Z) (k : wake) (w : world) : status * world :=
  let w := if wk_sigint k then on_sigint w else w in
  let mask := to_u32 (wk_mask k) in
  let w := emit (UirqWait 1000 (wk_ret k) mask) w in
  if wk_ret k =? -1 then (WaitError, emit (Perror 352) w)
  else if mask =? 0 then skip_irq w
  else match read_sample irq_fclk k w with
       | (Continue, w) => skip_irq w
       | r => r
       end.

(** [++arg->irq_count], the increment expression of the [for]. *)
Definition next_irq (w : world) : world :=
  set_arg (with_count (to_size (irq_count (w_arg w) + 1)) (w_arg w)) w.

(** The loop, run against the wakes the environment provides.  The result
    [Continue] says that the loop is still running when they are used up. *)
Fixpoint rtask_loop (irq_fclk : Z) (ks : list wake) (w : world) : status * world :=
  match ks with
  | [] => (Continue, w)
  | k :: ks' =>
      match loop_body irq_fclk k w with
      | (Continue, w') => rtask_loop irq_fclk ks' (next_irq w')
      | r => r
      end
  end.

(** Lines 346 and 347: [arg->irq_missed = 0] and the initialisation of the
    [for], [arg->irq_count = 0]. *)
Definition loop_init (w : world) : world :=
  set_arg (with_count 0 (with_missed 0 (w_arg w))) w.

Definition enable_ebone_slave_interrupt (d : device) (w : world) : Z * world :=
  let w := emit (EpciOpen 0 (ebm_open_ok d)) w in
  if negb (ebm_open_ok d) then (-1, w)
  else
    let x := to_u32 (ebm_ctl0 d) in
    let w := emit (EpciRd32 0 0 x) w in
    let x := Z.lor x (Z.lor CTL_START 512) in
    let w := emit (EpciWr32 0 0 x) w in
    (0, emit (EpciClose 0) w).

Inductive outcome := Returned (err : Z) | Crashed | Waiting.

(** The labels at the end of [rtask_main]. *)
Definition on_error_0 (err : Z) (w : world) : outcome * world := (Returned err, w).
Definition on_error_1 (err : Z) (w : world) : outcome * world := on_error_0 err w.
Definition on_error_2 (err : Z) (w : world) : outcome * world :=
  on_error_1 err (emit UirqClose w).
Definition on_error_3 (err : Z) (w : world) : outcome * world :=
  on_error_2 err (emit (EpciClose REG_BAR) (reg_write_ctl 0 w)).

Definition rtask_main (d : device) (w : world) : outcome * world :=
  let '(e, w) := enable_ebone_slave_interrupt d w in
  if negb (e =? 0) then on_error_0 (-1) (emit (Perror 273) w) else
  let w := emit (UirqInitLib (uirq_init_ok d)) w in
  if negb (uirq_init_ok d) then on_error_0 (-1) (emit (Perror 279) w) else
  let w := emit (UirqOpen (uirq_open_ok d)) w in
  if negb (uirq_open_ok d) then on_error_1 (-1) (emit (Perror 285) w) else
  let w := emit (UirqSetMask 2 1 (uirq_mask_ok d)) w in
  if negb (uirq_mask_ok d) then on_error_2 (-1) (emit (Perror 291) w) else
  let w := emit SignalInstall (set_sigint 0 w) in
  let w := emit (EpciOpen REG_BAR (epci_open_ok d)) w in
  if negb (epci_open_ok d) then on_error_2 (-1) (emit (Perror 301) w) else
  let '(x, w) := reg_read_magic d w in
  if negb (x =? MAGIC) then on_error_3 (-1) (emit (Perror 310) w) else
  let '(irq_fclk, w) := reg_read_fclk d w in
  let irq_fgen := Cmd.irq_fgen (cmd (w_arg w)) in
  if irq_fgen =? 0 then (Crashed, w) else
  let x := irq_fclk / irq_fgen in
  if x =? 0 then on_error_3 (-1) (emit (Perror 340) w) else
  let w := reg_write_ctl (Z.lor CTL_START x) w in
  match rtask_loop irq_fclk (wakes d) (loop_init w) with
  | (Break, w) => on_error_3 0 w
  | (WaitError, w) => on_error_3 (-1) w
  | (Fault, w) => (Crashed, w)
  | (Continue, w) => (Waiting, w)
  end.

(** ** Command line *)

(** [get_num]: base 16 for a string longer than two characters that starts
    with [0x], base 10 otherwise; the result of [strtoul] is cut to 32 bits. *)
Definition get_num (s : string) : Z :=
  let base :=
    match s with
    | String "0"%char (String "x"%char (String _ _)) => 16
    | _ => 10
    end in
  to_u32 (strtoul s base).

(** The [for] loop of [get_cmdline], over the pairs of [av]. *)
Fixpoint get_cmdline_pairs (av : list string) (c : Cmd.cmdline_t) : option Cmd.cmdline_t :=
  match av with
  | [] => Some c
  | opt :: v :: av' =>
      if String.eqb opt "-freq"
      then get_cmdline_pairs av' {| Cmd.irq_fgen := get_num v; Cmd.irq_count := Cmd.irq_count c |}
      else if String.eqb opt "-count"
      then get_cmdline_pairs av' {| Cmd.irq_fgen := Cmd.irq_fgen c; Cmd.irq_count := get_num v |}
      else None
  | [_] => None
  end.

Definition get_cmdline (av : list string) : option Cmd.cmdline_t :=
  if Z.odd (Z.of_nat (length av)) then None
  else get_cmdline_pairs av {| Cmd.irq_fgen := 1000; Cmd.irq_count := 0 |}.

(** ** The process *)

(** What [main] gets from outside: the arguments after the program name,
    whether [malloc] and [pthread_setschedparam] succeed, the content of
    the stack slot of [arg.irq_missed], which [main] does not initialise,
    and the device. *)
Record process := {
  av : list string;
  malloc_ok : bool;
  sched_ok : bool;
  stack_irq_missed : Z;
  dev : device
}.

(** [rtask_entry]: [rtask->err] is -1 unless the task function ran. *)
Definition rtask_entry (p : process) (w : world) : outcome * world :=
  if sched_ok p then rtask_main (dev p) w else (Returned (-1), w).

Definition newline : string := String (Ascii.ascii_of_nat 10) EmptyString.

(** [PERROR ()], with [CONFIG_DEBUG] set and [main.c] as [__FILE__]. *)
Definition perror_line (line : Z) : string :=
  "[!] main.c," +:+ pretty line +:+ newline.

Fixpoint diagnostics (tr : list event) : list string :=
  match tr with
  | [] => []
  | Perror line :: tr' => perror_line line :: diagnostics tr'
  | _ :: tr' => diagnostics tr'
  end.

(** [printf ("%zu %u\n", i * LAT_RES_US, arg.lat_hist[i])] *)
Definition bucket_line (i c : Z) : string :=
  pretty (i * LAT_RES_US) +:+ " " +:+ pretty c +:+ newline.

(** The [for] loop of lines 434 to 438, started at index [i] with [n]
    passes left. *)
Fixpoint report_hist (n : nat) (i : Z) (h : list Z) : list string :=
  match n with
  | O => []
  | S n' =>
      if bucket h i =? 0 then report_hist n' (i + 1) h
      else bucket_line i (bucket h i) :: report_hist n' (i + 1) h
  end.

(** Lines 431 to 438. *)
Definition report (a : rtask_arg_t) : list string :=
  ("# irq_count : " +:+ pretty (irq_count a) +:+ newline)
  :: ("# irq_missed: " +:+ pretty (irq_missed a) +:+ newline)
  :: report_hist (Z.to_nat LAT_MAX_COUNT) 0 (lat_hist a).

Inductive exit := Exited (code : Z) (out : list string) | Killed | Hung.

(** The argument block and the world [main] starts the task in. *)
Definition main_arg (p : process) (c : Cmd.cmdline_t) : rtask_arg_t :=
  {| cmd := c;
     lat_hist := replicate (Z.to_nat LAT_MAX_COUNT) 0;
     irq_count := 0;
     irq_missed := to_size (stack_irq_missed p) |}.

Definition main_world (p : process) (c : Cmd.cmdline_t) : world :=
  {| w_arg := main_arg p c; is_sigint := 0; trace := [] |}.

Definition main (p : process) : exit :=
  match get_cmdline (av p) with
  | None => Exited (-1) []
  | Some c =>
      if negb (malloc_ok p) then Exited (-1) []
      else match rtask_entry p (main_world p c) with
           | (Returned err, w) => Exited err (diagnostics (trace w) ++ report (w_arg w))
           | (Crashed, _) => Killed
           | (Waiting, _) => Hung
           end
  end.

End Platform.

(** * Vocabulary of the properties *)

(** ** Traces *)

Definition is_wait (e : event) : bool :=
  match e with UirqWait _ _ _ => true | _ => false end.

(** A read of the START register: one per latency sample. *)
Definition is_start_read (e : event) : bool :=
  match e with
  | EpciRd32 bar off _ => (bar =? REG_BAR) && (off =? REG_BASE + REG_START)
  | _ => false
  end.

Fixpoint count_events (f : event -> bool) (tr : list event) : Z :=
  match tr with
  | [] => 0
  | e :: tr' => (if f e then 1 else 0) + count_events f tr'
  end.

(** What the loop can do to the outside: be interrupted, wait, read START
    and NOW, report the failure of the wait. *)
Definition loop_event (e : event) : Prop :=
  match e with
  | Sigint => True
  | UirqWait t _ _ => t = 1000
  | EpciRd32 bar off _ =>
      bar = REG_BAR /\ (off = REG_BASE + REG_START \/ off = REG_BASE + REG_NOW)
  | Perror line => line = 352
  | _ => False
  end.

(** The events of one pass, in order: the signal if there is one and the
    wait, then the two reads of a sample. *)
Definition wait_events (k : wake) : list event :=
  (if wk_sigint k then [Sigint] else [])
  ++ [UirqWait 1000 (wk_ret k) (to_u32 (wk_mask k))].

Definition sample_events (k : wake) : list event :=
  [EpciRd32 REG_BAR (REG_BASE + REG_START) (to_u32 (wk_start k));
   EpciRd32 REG_BAR (REG_BASE + REG_NOW) (to_u32 (wk_now k))].

(** The events of a setup that succeeds, up to the read of MAGIC. *)
Definition init_events (d : device) : list event :=
  [EpciOpen 0 true;
   EpciRd32 0 0 (to_u32 (ebm_ctl0 d));
   EpciWr32 0 0 (Z.lor (to_u32 (ebm_ctl0 d)) (Z.lor CTL_START 512));
   EpciClose 0;
   UirqInitLib true;
   UirqOpen true;
   UirqSetMask 2 1 true;
   SignalInstall;
   EpciOpen REG_BAR true;
   EpciRd32 REG_BAR (REG_BASE + REG_MAGIC) (to_u32 (reg_magic d))].

(** The events of [on_error_3]: disarm, then the two sessions are closed. *)
Definition disarm_events : list event :=
  [EpciWr32 REG_BAR (REG_BASE + REG_CTL) 0; EpciClose REG_BAR; UirqClose].

(** The two sessions the task holds while it measures. *)
Inductive session := InterruptSession | RegisterSession.

(** The sessions a trace opens, in order. *)
Fixpoint acquired (tr : list event) : list session :=
  match tr with
  | [] => []
  | UirqOpen true :: tr' => InterruptSession :: acquired tr'
  | EpciOpen bar true :: tr' =>
      if bar =? REG_BAR then RegisterSession :: acquired tr' else acquired tr'
  | _ :: tr' => acquired tr'
  end.

(** The sessions a trace closes, in order. *)
Fixpoint released (tr : list event) : list session :=
  match tr with
  | [] => []
  | UirqClose :: tr' => InterruptSession :: released tr'
  | EpciClose bar :: tr' =>
      if bar =? REG_BAR then RegisterSession :: released tr' else released tr'
  | _ :: tr' => released tr'
  end.

(** ** Worlds *)

(** The argument block as [main] hands it over, with an empty histogram. *)
Definition fresh_arg (c : Cmd.cmdline_t) : rtask_arg_t :=
  {| cmd := c;
     lat_hist := replicate (Z.to_nat LAT_MAX_COUNT) 0;
     irq_count := 0;
     irq_missed := 0 |}.

(** The world [rtask_main] is entered in, for a command line [c]. *)
Definition task_world (c : Cmd.cmdline_t) : world :=
  {| w_arg := fresh_arg c; is_sigint := 0; trace := [] |}.

(** The world at the head of the loop. *)
Definition loop_world (c : Cmd.cmdline_t) : world := loop_init (task_world c).

(** The world after the call of [uirq_wait]. *)
Definition woken (k : wake) (w : world) : world :=
  emit (UirqWait 1000 (wk_ret k) (to_u32 (wk_mask k)))
       (if wk_sigint k then on_sigint w else w).

(** The world before the exit test of a pass that takes a sample. *)
Definition sampled (k : wake) (a : rtask_arg_t) (w : world) : world :=
  set_arg a (snd (reg_read_now k (snd (reg_read_start k w)))).

(** The world after the events [evs], with the flag cleared by line 295. *)
Definition after_events (evs : list event) (w : world) : world :=
  {| w_arg := w_arg w; is_sigint := 0; trace := trace w ++ evs |}.

(** The world after one wake with an empty mask, from the head of the loop. *)
Definition after_idle_wake (c : Cmd.cmdline_t) : world :=
  {| w_arg := with_count 1 (w_arg (loop_world c));
     is_sigint := 0;
     trace := [UirqWait 1000 0 0] |}.

(** What line 389 and the labels make of the way the loop ended. *)
Definition loop_exit (r : status * world) : outcome * world :=
  match r with
  | (Break, w) => on_error_3 0 w
  | (WaitError, w) => on_error_3 (-1) w
  | (Fault, w) => (Crashed, w)
  | (Continue, w) => (Waiting, w)
  end.

(** ** The histogram *)

Definition total (a : rtask_arg_t) : Z := sum_buckets (lat_hist a) + irq_missed a.

(** The histogram has its allocated size and no counter is negative. *)
Definition hist_ok (a : rtask_arg_t) : Prop :=
  length (lat_hist a) = Z.to_nat LAT_MAX_COUNT
  /\ Forall (fun v => 0 <= v) (lat_hist a)
  /\ 0 <= irq_missed a.

(** How the argument block [a'] after some passes relates to the block [a]
    before them, [n] latencies of [u] microseconds having been recorded. *)
Definition recorded (u n : Z) (a a' : rtask_arg_t) : Prop :=
  cmd a' = cmd a
  /\ irq_missed a' = irq_missed a
  /\ length (lat_hist a') = length (lat_hist a)
  /\ bucket (lat_hist a') u = to_u32 (bucket (lat_hist a) u + n)
  /\ (forall j, 0 <= j -> j <> u -> bucket (lat_hist a') j = bucket (lat_hist a) j)
  /\ sum_buckets (lat_hist a') - bucket (lat_hist a') u
     = sum_buckets (lat_hist a) - bucket (lat_hist a) u.

(** The nonzero buckets of a histogram with their offsets, the first bucket
    being at offset [i]: what the report has one line for. *)
Fixpoint nonzero_buckets (i : Z) (h : list Z) : list (Z * Z) :=
  match h with
  | [] => []
  | c :: h' =>
      if c =? 0 then nonzero_buckets (i + 1) h'
      else (i, c) :: nonzero_buckets (i + 1) h'
  end.

Definition report_line (ic : Z * Z) : string := bucket_line (fst ic) (snd ic).

(** ** Wakes *)

(** A wake that delivers no signal, does not fail, sets a bit of the mask
    and whose latency is [u] microseconds. *)
Definition plain_wake (irq_fclk u : Z) (k : wake) : Prop :=
  wk_sigint k = false /\ wk_ret k <> -1 /\ to_u32 (wk_mask k) <> 0
  /\ ticks_to_us (latency_ticks (to_u32 (wk_start k)) (to_u32 (wk_now k))) irq_fclk = Some u.

(** A wake of the scenario of five samples: the wait succeeds with a bit of
    the mask set and the counters are 500000 ticks apart. *)
Definition scenario_wake (k : wake) : Prop :=
  wk_sigint k = false /\ wk_ret k = 0 /\ to_u32 (wk_mask k) <> 0
  /\ 0 <= wk_start k <= UINT32_MAX /\ 0 <= wk_now k <= UINT32_MAX
  /\ latency_ticks (wk_start k) (wk_now k) = 500000.

(** START = 100 and NOW = 500100: 500000 ticks. *)
Definition wake_500000 : wake :=
  {| wk_sigint := false; wk_ret := 0; wk_mask := 2; wk_start := 100; wk_now := 500100 |}.

(** START = NOW: no tick between the IRQ and its handling. *)
Definition wake_0 : wake :=
  {| wk_sigint := false; wk_ret := 0; wk_mask := 2; wk_start := 7; wk_now := 7 |}.

(** A wait that returns without any source of the mask. *)
Definition wake_idle : wake :=
  {| wk_sigint := false; wk_ret := 0; wk_mask := 0; wk_start := 0; wk_now := 0 |}.

(** A wake with a sample during which SIGINT arrives. *)
Definition wake_sigint : wake :=
  {| wk_sigint := true; wk_ret := 0; wk_mask := 2; wk_start := 100; wk_now := 500100 |}.

(** A wake with an empty mask during which SIGINT arrives. *)
Definition wake_sigint_idle : wake :=
  {| wk_sigint := true; wk_ret := 0; wk_mask := 0; wk_start := 0; wk_now := 0 |}.

(** A wait that fails. *)
Definition wake_error : wake :=
  {| wk_sigint := false; wk_ret := -1; wk_mask := 0; wk_start := 0; wk_now := 0 |}.

(** ** Command lines, devices, processes *)

Definition cmd_count5 : Cmd.cmdline_t := {| Cmd.irq_fgen := 1000; Cmd.irq_count := 5 |}.
Definition cmd_unbounded : Cmd.cmdline_t := {| Cmd.irq_fgen := 1000; Cmd.irq_count := 0 |}.
Definition cmd_freq (hz : Z) : Cmd.cmdline_t := {| Cmd.irq_fgen := hz; Cmd.irq_count := 0 |}.

(** Every session opens and every call of the setup succeeds. *)
Definition device_opens (d : device) : Prop :=
  ebm_open_ok d = true /\ uirq_init_ok d = true /\ uirq_open_ok d = true
  /\ uirq_mask_ok d = true /\ epci_open_ok d = true.

(** A device that identifies itself, with clock [fclk] and wakes [ks]. *)
Definition dev_ok (fclk : Z) (ks : list wake) : device :=
  {| ebm_open_ok := true; ebm_ctl0 := 0;
     uirq_init_ok := true; uirq_open_ok := true; uirq_mask_ok := true;
     epci_open_ok := true;
     reg_magic := MAGIC; reg_fclk := fclk; wakes := ks |}.

(** A device that reports the magic number 0x12345678. *)
Definition dev_wrong_magic : device :=
  {| ebm_open_ok := true; ebm_ctl0 := 0;
     uirq_init_ok := true; uirq_open_ok := true; uirq_mask_ok := true;
     epci_open_ok := true;
     reg_magic := 0x12345678; reg_fclk := 1000000; wakes := [] |}.

(** A device whose register session cannot be opened. *)
Definition dev_no_registers : device :=
  {| ebm_open_ok := true; ebm_ctl0 := 0;
     uirq_init_ok := true; uirq_open_ok := true; uirq_mask_ok := true;
     epci_open_ok := false;
     reg_magic := MAGIC; reg_fclk := 1000000; wakes := [] |}.

(** No argument, a clock of 1 MHz, one sample of 500000 ticks, then the
    wait fails; the stack slot of [arg.irq_missed] holds 77. *)
Definition failing_process : process :=
  {| av := [];
     malloc_ok := true;
     sched_ok := true;
     stack_irq_missed := 77;
     dev := dev_ok 1000000 [wake_500000; wake_error] |}.

Definition strtoul_0 (s : string) (base : Z) : Z := 0.

(** ** Command line options *)

Definition known_option (o : string) : Prop := o = "-freq" \/ o = "-count".

(** A [strtoul] for examples: the length of the string. *)
Definition strtoul_length (s : string) (base : Z) : Z := Z.of_nat (String.length s).

(** The world after the events [evs], the flag as it was. *)
Definition after_events_keep (evs : list event) (w : world) : world :=
  {| w_arg := w_arg w; is_sigint := is_sigint w; trace := trace w ++ evs |}.

(** ** Passes and accesses *)

Definition is_perror (e : event) : bool :=
  match e with Perror _ => true | _ => false end.

(** The events of the pass a wake gives rise to: the wait, then the error
    report, nothing, or the two reads of the sample. *)
Definition pass_events (k : wake) : list event :=
  wait_events k
  ++ (if wk_ret k =? -1 then [Perror 352]
      else if to_u32 (wk_mask k) =? 0 then []
      else sample_events k).

(** The accesses the task makes: on BAR 0 control register 0 only; on the
    device the reads of MAGIC, FCLK, START and NOW and the writes of CTL,
    with 0 or with the start bit; waits of 1000 ms; the mask of source 1. *)
Definition task_event (e : event) : Prop :=
  match e with
  | EpciRd32 bar off _ =>
      (bar = 0 /\ off = 0)
      \/ (bar = REG_BAR
          /\ (off = REG_BASE + REG_MAGIC \/ off = REG_BASE + REG_FCLK
              \/ off = REG_BASE + REG_START \/ off = REG_BASE + REG_NOW))
  | EpciWr32 bar off v =>
      (bar = 0 /\ off = 0)
      \/ (bar = REG_BAR /\ off = REG_BASE + REG_CTL /\ (v = 0 \/ Z.testbit v 31 = true))
  | EpciOpen bar _ => bar = 0 \/ bar = REG_BAR
  | EpciClose bar => bar = 0 \/ bar = REG_BAR
  | UirqWait t _ _ => t = 1000
  | UirqSetMask m v _ => m = 2 /\ v = 1
  | _ => True
  end.

Definition cmd_count (n : Z) : Cmd.cmdline_t := {| Cmd.irq_fgen := 1000; Cmd.irq_count := n |}.

(** The world in which the loop is entered: the setup has succeeded, FCLK
    has been read and the start word written. *)
Definition armed_world (d : device) (w : world) : world :=
  after_events
    (init_events d
     ++ [EpciRd32 REG_BAR (REG_BASE + REG_FCLK) (to_u32 (reg_fclk d));
         EpciWr32 REG_BAR (REG_BASE + REG_CTL)
           (Z.lor CTL_START (to_u32 (reg_fclk d) / Cmd.irq_fgen (cmd (w_arg w))))])
    w.

(** A process that is refused the real-time scheduling class. *)
Definition unscheduled_process : process :=
  {| av := ["-count"; "12345"];
     malloc_ok := true;
     sched_ok := false;
     stack_irq_missed := 77;
     dev := dev_ok 1000000 [] |}.

(** A process started with an odd number of arguments. *)
Definition odd_process : process :=
  {| av := ["-freq"];
     malloc_ok := true;
     sched_ok := true;
     stack_irq_missed := 0;
     dev := dev_ok 1000000 [] |}.

(** * The network thread of the load generator, [load/main.c]

    [net_main] sends datagrams as fast as the socket takes them until SIGINT
    arrives.  The C library is the environment: a [net_env] fixes what its
    calls return, and the calls are logged in program order. *)

Module Load.

Inductive event :=
| Malloc (n : Z) (ok : bool)
| Getaddrinfo (ret : Z)
| Socket (fd : Z)
| Fcntl (fd ret : Z)
| Select (nfds ret : Z)
| Sendto (fd len ret : Z)
| Shutdown (fd : Z)
| Close (fd : Z)
| Freeaddrinfo
| Free.

(** One round of the [while] loop: whether SIGINT arrives before the test
    of the loop, what [select] returns, whether SIGINT arrives between that
    test and the test of line 69, what [sendto] returns. *)
Record round := {
  sig_before : bool;
  select_ret : Z;
  sig_select : bool;
  sendto_ret : Z
}.

Record net_env := {
  net_malloc_ok : bool;
  getaddrinfo_ret : Z;
  socket_ret : Z;
  fcntl_ret : Z;
  rounds : list round
}.

Inductive status := Running | Break | Fail.

(** The [while] loop of lines 60 to 75.  [Break] is the exit to
    [on_error_3], by the test of the loop or by the [break] of line 69;
    [Fail] is the [goto on_error_2] of lines 70 and 74. *)
Fixpoint net_loop (fd : Z) (rs : list round) (is_sigint : Z) (tr : list event)
  : status * list event :=
  match rs with
  | [] => (Running, tr)
  | r :: rs' =>
      let is_sigint := if sig_before r then 1 else is_sigint in
      if negb (is_sigint =? 0) then (Break, tr)
      else
        let tr := tr ++ [Select (fd + 1) (select_ret r)] in
        let is_sigint := if sig_select r then 1 else is_sigint in
        if negb (select_ret r =? 1)
        then (if is_sigint =? 1 then (Break, tr) else (Fail, tr))
        else
          let tr := tr ++ [Sendto fd 4096 (sendto_ret r)] in
          if sendto_ret r <=? 0 then (Fail, tr)
          else net_loop fd rs' is_sigint tr
  end.

(** The labels at the end of [net_main]. *)
Definition on_error_0 (tr : list event) : list event := tr.
Definition on_error_1 (tr : list event) : list event := on_error_0 (tr ++ [Free]).
Definition on_error_2 (tr : list event) : list event := on_error_1 (tr ++ [Freeaddrinfo]).
Definition on_error_3 (fd : Z) (tr : list event) : list event :=
  on_error_2 (tr ++ [Shutdown fd; Close fd]).

(** [net_main]: the trace of a thread that returns, [None] for a thread
    that is still in its loop when the rounds are used up. *)
Definition net_main (e : net_env) (is_sigint : Z) : option (list event) :=
  let tr := [Malloc 4096 (net_malloc_ok e)] in
  if negb (net_malloc_ok e) then Some (on_error_0 tr) else
  let tr := tr ++ [Getaddrinfo (getaddrinfo_ret e)] in
  if negb (getaddrinfo_ret e =? 0) then Some (on_error_1 tr) else
  let fd := socket_ret e in
  let tr := tr ++ [Socket fd] in
  if fd =? -1 then Some (on_error_2 tr) else
  let tr := tr ++ [Fcntl fd (fcntl_ret e)] in
  if negb (fcntl_ret e =? 0) then Some (on_error_3 fd tr) else
  match net_loop fd (rounds e) is_sigint tr with
  | (Break, tr) => Some (on_error_3 fd tr)
  | (Fail, tr) => Some (on_error_2 tr)
  | (Running, _) => None
  end.

(** ** Vocabulary *)

(** What the thread holds: the buffer, the address list, the socket. *)
Inductive resource := Buffer | AddrList | Sock.

Fixpoint acquired (tr : list event) : list resource :=
  match tr with
  | [] => []
  | Malloc _ true :: tr' => Buffer :: acquired tr'
  | Getaddrinfo ret :: tr' => if ret =? 0 then AddrList :: acquired tr' else acquired tr'
  | Socket fd :: tr' => if fd =? -1 then acquired tr' else Sock :: acquired tr'
  | _ :: tr' => acquired tr'
  end.

Fixpoint released (tr : list event) : list resource :=
  match tr with
  | [] => []
  | Free :: tr' => Buffer :: released tr'
  | Freeaddrinfo :: tr' => AddrList :: released tr'
  | Close _ :: tr' => Sock :: released tr'
  | _ :: tr' => released tr'
  end.

(** A round in which a datagram is sent and no signal arrives. *)
Definition sending (r : round) : Prop :=
  sig_before r = false /\ sig_select r = false /\ select_ret r = 1 /\ 0 < sendto_ret r.

Definition round_events (fd : Z) (r : round) : list event :=
  [Select (fd + 1) (select_ret r); Sendto fd 4096 (sendto_ret r)].

(** The setup of a thread whose socket [fd] is open and non-blocking. *)
Definition setup_ok (e : net_env) : Prop :=
  net_malloc_ok e = true /\ getaddrinfo_ret e = 0 /\ socket_ret e <> -1 /\ fcntl_ret e = 0.

Definition setup_events (e : net_env) : list event :=
  [Malloc 4096 true; Getaddrinfo 0; Socket (socket_ret e); Fcntl (socket_ret e) 0].

(** A round that ends the loop by [goto on_error_2]: no signal arrives and
    [select] does not return 1, or [sendto] sends nothing. *)
Definition failing (r : round) : Prop :=
  sig_before r = false
  /\ ((select_ret r <> 1 /\ sig_select r = false) \/ (select_ret r = 1 /\ sendto_ret r <= 0)).

Definition failing_events (fd : Z) (r : round) : list event :=
  Select (fd + 1) (select_ret r)
  :: (if select_ret r =? 1 then [Sendto fd 4096 (sendto_ret r)] else []).

(** Examples. *)
Definition round_send : round :=
  {| sig_before := false; select_ret := 1; sig_select := false; sendto_ret := 4096 |}.
Definition round_sigint : round :=
  {| sig_before := true; select_ret := 1; sig_select := false; sendto_ret := 4096 |}.
Definition round_refused : round :=
  {| sig_before := false; select_ret := 1; sig_select := false; sendto_ret := -1 |}.
Definition env_of (rs : list round) : net_env :=
  {| net_malloc_ok := true; getaddrinfo_ret := 0; socket_ret := 3; fcntl_ret := 0;
     rounds := rs |}.

End Load.

(** * Properties *)

(** ** 32-bit arithmetic *)

Lemma to_u32_id (z : Z) : 0 <= z <= UINT32_MAX -> to_u32 z = z.
Proof. intros Hz. unfold to_u32. apply Z.mod_small. unfold UINT32_MAX in *. lia. Qed.

Lemma to_u32_range (z : Z) : 0 <= to_u32 z <= UINT32_MAX.
Proof.
  unfold to_u32, UINT32_MAX.
  pose proof (Z.mod_pos_bound z (4294967295 + 1) ltac:(lia)). lia.
Qed.

Lemma to_u64_id (z : Z) : 0 <= z <= UINT64_MAX -> to_u64 z = z.
Proof. intros Hz. unfold to_u64. apply Z.mod_small. unfold UINT64_MAX in *. lia. Qed.

Lemma latency_ticks_range (x xx : Z) : 0 <= latency_ticks x xx <= UINT32_MAX.
Proof. unfold latency_ticks. destruct (xx <? x); apply to_u32_range. Qed.

(** Without wrap-around the latency is the plain difference. *)
Lemma latency_ticks_plain (x xx : Z) :
  0 <= x -> x <= xx -> xx <= UINT32_MAX -> latency_ticks x xx = xx - x.
Proof.
  intros H0 H1 H2. unfold latency_ticks.
  destruct (Z.ltb_spec xx x); [lia |]. apply to_u32_id. lia.
Qed.

(** The 64-bit product of a 32-bit tick count and 1000000 does not
    overflow, so that the quotient is exact before it is cut to 32 bits. *)
Lemma ticks_to_us_spec (xxx irq_fclk : Z) :
  0 <= xxx <= UINT32_MAX -> 0 < irq_fclk <= UINT32_MAX ->
  ticks_to_us xxx irq_fclk = Some (to_u32 (xxx * 1000000 / irq_fclk)).
Proof.
  intros Hx Hf. unfold ticks_to_us.
  destruct (Z.eqb_spec irq_fclk 0); [lia |].
  unfold UINT32_MAX in *.
  rewrite (to_u64_id xxx) by (unfold UINT64_MAX; lia).
  rewrite (to_u64_id 1000000) by (unfold UINT64_MAX; lia).
  rewrite (to_u64_id irq_fclk) by (unfold UINT64_MAX; lia).
  rewrite to_u64_id by (unfold UINT64_MAX; nia).
  reflexivity.
Qed.

(** ** The histogram *)

Lemma hist_incr_length (h h' : list Z) (i : Z) :
  hist_incr h i = Some h' -> length h' = length h.
Proof.
  unfold hist_incr. destruct (h !! Z.to_nat i); [| discriminate].
  intros [= <-]. apply length_insert.
Qed.

Lemma hist_incr_is_Some (h : list Z) (i : Z) :
  0 <= i < Z.of_nat (length h) -> is_Some (hist_incr h i).
Proof.
  intros Hi. unfold hist_incr.
  destruct (lookup_lt_is_Some_2 h (Z.to_nat i) ltac:(lia)) as [c ->]. eauto.
Qed.

Lemma bucket_hist_incr_eq (h h' : list Z) (i : Z) :
  hist_incr h i = Some h' -> bucket h' i = to_u32 (bucket h i + 1).
Proof.
  unfold hist_incr, bucket. destruct (h !! Z.to_nat i) as [c |] eqn:E; [| discriminate].
  intros [= <-]. rewrite list_lookup_insert_eq; [reflexivity |].
  eapply lookup_lt_Some; eassumption.
Qed.

Lemma bucket_hist_incr_ne (h h' : list Z) (i j : Z) :
  hist_incr h i = Some h' -> 0 <= i -> 0 <= j -> i <> j -> bucket h' j = bucket h j.
Proof.
  unfold hist_incr, bucket. destruct (h !! Z.to_nat i) as [c |]; [| discriminate].
  intros [= <-] Hi Hj Hne. rewrite list_lookup_insert_ne; [reflexivity | lia].
Qed.

Lemma sum_buckets_insert (h : list Z) (i : nat) (c v : Z) :
  h !! i = Some c -> sum_buckets (<[i := v]> h) = sum_buckets h - c + v.
Proof.
  revert i. induction h as [| a h IH]; intros [| i] Hl; simpl in *; try discriminate.
  - injection Hl as ->. lia.
  - rewrite (IH i Hl). lia.
Qed.

Lemma sum_buckets_bound (h : list Z) (i : nat) (c : Z) :
  Forall (fun v => 0 <= v) h -> h !! i = Some c -> 0 <= c <= sum_buckets h.
Proof.
  intros Hall. revert i. induction Hall as [| a h Ha Hall IH]; intros [| i] Hl;
    simpl in *; try discriminate.
  - injection Hl as ->.
    assert (0 <= sum_buckets h) by (clear -Hall; induction Hall; simpl; lia). lia.
  - specialize (IH i Hl). lia.
Qed.

Lemma sum_buckets_replicate (n : nat) : sum_buckets (replicate n 0) = 0.
Proof. induction n as [| n IH]; simpl; [reflexivity |]. exact IH. Qed.

Lemma bucket_replicate (n : nat) (i : Z) : bucket (replicate n 0) i = 0.
Proof.
  unfold bucket. destruct (replicate n 0 !! Z.to_nat i) as [c |] eqn:E; [| reflexivity].
  apply lookup_replicate in E as [-> _]. reflexivity.
Qed.

(** ** The wrap-around branch *)

(** C3: when the NOW reading is below the START reading, the latency the
    code computes, [(UINT32_MAX - start) + now], is the difference of the two
    readings modulo 2^32 less one tick. *)
Theorem latency_ticks_wrapped (startTicks nowTicks : Z) :
  0 <= startTicks <= UINT32_MAX ->
  0 <= nowTicks <= UINT32_MAX ->
  nowTicks < startTicks ->
  latency_ticks startTicks nowTicks = (UINT32_MAX - startTicks) + nowTicks
  /\ latency_ticks startTicks nowTicks = (nowTicks - startTicks) mod 2 ^ 32 - 1.
Proof.
  intros Hs Hn Hlt. unfold latency_ticks.
  destruct (Z.ltb_spec nowTicks startTicks); [| lia].
  assert (E : to_u32 (-1) = UINT32_MAX) by reflexivity.
  rewrite E. unfold UINT32_MAX in *.
  rewrite (to_u32_id (4294967295 - startTicks)) by (unfold UINT32_MAX; lia).
  rewrite to_u32_id by (unfold UINT32_MAX; lia).
  split; [reflexivity |].
  replace (nowTicks - startTicks) with ((nowTicks - startTicks + 2 ^ 32) + (-1) * 2 ^ 32) by lia.
  rewrite Z.mod_add by lia. rewrite Z.mod_small by lia. lia.
Qed.

Lemma latency_ticks_wrapped_witness :
  latency_ticks 4294967290 5 = (UINT32_MAX - 4294967290) + 5
  /\ latency_ticks 4294967290 5 = (5 - 4294967290) mod 2 ^ 32 - 1.
Proof. apply latency_ticks_wrapped; unfold UINT32_MAX; lia. Defined.

(** ** Recording one latency *)

Lemma LAT_MAX_COUNT_eq : LAT_MAX_COUNT = 1000000.
Proof. reflexivity. Qed.

(** As long as the exact quotient fits 32 bits, one latency is recorded as
    the comments of lines 368 and 372 say: the bucket of its microsecond
    value below [LAT_MAX_US], the missed counter from there on. *)
Lemma record_latency_fits (SIZE_MAX irq_fclk x xx : Z) (a : rtask_arg_t) :
  0 < irq_fclk <= UINT32_MAX ->
  length (lat_hist a) = Z.to_nat LAT_MAX_COUNT ->
  let micros := latency_ticks x xx * 1000000 / irq_fclk in
  micros <= UINT32_MAX ->
  record_latency SIZE_MAX irq_fclk x xx a =
    Some (if micros <? LAT_MAX_US
          then with_hist (<[Z.to_nat micros := to_u32 (bucket (lat_hist a) micros + 1)]> (lat_hist a)) a
          else with_missed (to_size SIZE_MAX (irq_missed a + 1)) a).
Proof.
  intros Hf Hlen micros Hfit.
  pose proof (latency_ticks_range x xx) as Hr.
  assert (0 <= micros) by (apply Z.div_pos; lia).
  unfold record_latency. rewrite ticks_to_us_spec by lia.
  fold micros. rewrite (to_u32_id micros) by lia.
  change LAT_MAX_COUNT with LAT_MAX_US in *.
  destruct (Z.ltb_spec micros LAT_MAX_US) as [Hlt | Hge]; [| reflexivity].
  unfold hist_incr, bucket.
  destruct (lookup_lt_is_Some_2 (lat_hist a) (Z.to_nat micros)) as [c ->]; [| reflexivity].
  rewrite Hlen. lia.
Qed.

Lemma fresh_arg_length (c : Cmd.cmdline_t) :
  length (lat_hist (fresh_arg c)) = Z.to_nat LAT_MAX_COUNT.
Proof. apply length_replicate. Qed.

(** C2: START = 0, NOW = 2^31 and a clock of 500 kHz are 4294967296
    microseconds, far beyond [LAT_MAX_US]; the cast to [uint32_t] of line
    370 turns the quotient into 0 before the comparison of line 374, and the
    latency is counted in bucket 0 instead of [irq_missed]. *)
Theorem record_latency_truncates (SIZE_MAX : Z) (c : Cmd.cmdline_t) :
  let micros := latency_ticks 0 2147483648 * 1000000 / 500000 in
  micros = 4294967296 /\ ~ micros < LAT_MAX_US /\
  exists a', record_latency SIZE_MAX 500000 0 2147483648 (fresh_arg c) = Some a'
             /\ bucket (lat_hist a') 0 = 1
             /\ irq_missed a' = irq_missed (fresh_arg c).
Proof.
  split; [reflexivity |]. split; [intros H; discriminate H |].
  unfold record_latency.
  assert (E : ticks_to_us (latency_ticks 0 2147483648) 500000 = Some 0) by reflexivity.
  rewrite E. change (0 <? LAT_MAX_COUNT) with true. cbv iota.
  destruct (hist_incr_is_Some (lat_hist (fresh_arg c)) 0) as [h' Hh'].
  { rewrite fresh_arg_length, LAT_MAX_COUNT_eq. lia. }
  rewrite Hh'. eexists; split; [reflexivity |]. split; [| reflexivity].
  cbn [lat_hist with_hist]. rewrite (bucket_hist_incr_eq _ _ _ Hh').
  unfold fresh_arg; cbn [lat_hist]. rewrite bucket_replicate. reflexivity.
Qed.

(** ** One pass through the loop *)

Lemma count_events_app (f : event -> bool) (tr1 tr2 : list event) :
  count_events f (tr1 ++ tr2) = count_events f tr1 + count_events f tr2.
Proof. induction tr1 as [| e tr1 IH]; simpl; [reflexivity |]. rewrite IH. lia. Qed.

Lemma count_events_nonneg (f : event -> bool) (tr : list event) : 0 <= count_events f tr.
Proof. induction tr as [| e tr IH]; simpl; [lia |]. destruct (f e); lia. Qed.

Section Loop.

Variable SIZE_MAX : Z.
Variable irq_fclk : Z.

Lemma skip_irq_world (w w' : world) (r : status) :
  skip_irq w = (r, w') -> w' = w /\ (r = Break \/ r = Continue).
Proof.
  unfold skip_irq. intros H.
  repeat match type of H with
         | (if ?b then _ else _) = _ => destruct b
         end; injection H as <- <-; auto.
Qed.

Lemma skip_irq_sigint (w : world) : is_sigint w <> 0 -> skip_irq w = (Break, w).
Proof. intros H. unfold skip_irq. destruct (Z.eqb_spec (is_sigint w) 0); [lia | reflexivity]. Qed.

(** The four ways through the body. *)
Lemma loop_body_cases (k : wake) (w : world) :
  (wk_ret k = -1 /\ loop_body SIZE_MAX irq_fclk k w = (WaitError, emit (Perror 352) (woken k w)))
  \/ (wk_ret k <> -1 /\ to_u32 (wk_mask k) = 0
      /\ loop_body SIZE_MAX irq_fclk k w = skip_irq (woken k w))
  \/ (wk_ret k <> -1 /\ to_u32 (wk_mask k) <> 0
      /\ exists a, record_latency SIZE_MAX irq_fclk (to_u32 (wk_start k)) (to_u32 (wk_now k))
                     (w_arg (woken k w)) = Some a
                   /\ loop_body SIZE_MAX irq_fclk k w = skip_irq (sampled k a (woken k w)))
  \/ (wk_ret k <> -1 /\ to_u32 (wk_mask k) <> 0
      /\ record_latency SIZE_MAX irq_fclk (to_u32 (wk_start k)) (to_u32 (wk_now k))
           (w_arg (woken k w)) = None
      /\ loop_body SIZE_MAX irq_fclk k w
         = (Fault, snd (reg_read_now k (snd (reg_read_start k (woken k w)))))).
Proof.
  unfold loop_body. fold (woken k w).
  destruct (Z.eqb_spec (wk_ret k) (-1)) as [Hr | Hr]; [left; auto |].
  destruct (Z.eqb_spec (to_u32 (wk_mask k)) 0) as [Hm | Hm]; [right; left; auto |].
  right; right. unfold read_sample, sampled. cbn [reg_read_start reg_read_now reg_read snd].
  cbn [w_arg emit].
  destruct (record_latency _ _ _ _ (w_arg (woken k w))) as [a |] eqn:E.
  - left. split; [assumption |]. split; [assumption |]. exists a. split; [reflexivity |].
    destruct (skip_irq _) as [r w'] eqn:E'. destruct r; reflexivity.
  - right. auto.
Qed.

Lemma woken_trace (k : wake) (w : world) :
  trace (woken k w) = trace w ++ wait_events k.
Proof.
  unfold woken, wait_events. destruct (wk_sigint k); cbn [trace emit on_sigint set_sigint].
  - rewrite <- app_assoc. reflexivity.
  - reflexivity.
Qed.

Lemma woken_arg (k : wake) (w : world) : w_arg (woken k w) = w_arg w.
Proof. unfold woken. destruct (wk_sigint k); reflexivity. Qed.

Lemma woken_sigint (k : wake) (w : world) :
  is_sigint (woken k w) = if wk_sigint k then 1 else is_sigint w.
Proof. unfold woken. destruct (wk_sigint k); reflexivity. Qed.

Lemma sampled_trace (k : wake) (a : rtask_arg_t) (w : world) :
  trace (sampled k a w) = trace w ++ sample_events k.
Proof.
  unfold sampled, sample_events. cbn [trace set_arg reg_read_now reg_read_start reg_read snd emit].
  rewrite <- app_assoc. reflexivity.
Qed.

End Loop.

(** ** The loop *)

Section LoopProperties.

Variable SIZE_MAX : Z.
Variable irq_fclk : Z.

Lemma rtask_loop_app (ks1 ks2 : list wake) (w : world) :
  rtask_loop SIZE_MAX irq_fclk (ks1 ++ ks2) w =
    match rtask_loop SIZE_MAX irq_fclk ks1 w with
    | (Continue, w') => rtask_loop SIZE_MAX irq_fclk ks2 w'
    | r => r
    end.
Proof.
  revert w. induction ks1 as [| k ks1 IH]; intros w; cbn [app rtask_loop].
  - reflexivity.
  - destruct (loop_body SIZE_MAX irq_fclk k w) as [[] w1]; auto.
Qed.

Lemma sample_events_loop (k : wake) : Forall loop_event (sample_events k).
Proof.
  unfold sample_events.
  constructor; [simpl; auto |]. constructor; [simpl; auto | constructor].
Qed.

Lemma loop_body_events (k : wake) (w w' : world) (r : status) :
  loop_body SIZE_MAX irq_fclk k w = (r, w') ->
  exists evs, trace w' = trace w ++ wait_events k ++ evs
              /\ Forall loop_event evs
              /\ count_events is_wait evs = 0
              /\ count_events is_start_read evs
                 = (if (wk_ret k =? -1) || (to_u32 (wk_mask k) =? 0) then 0 else 1).
Proof.
  intros H.
  destruct (loop_body_cases SIZE_MAX irq_fclk k w)
    as [(Hr & E) | [(Hr & Hm & E) | [(Hr & Hm & a & Ha & E) | (Hr & Hm & Ha & E)]]];
    rewrite E in H; clear E.
  - injection H as <- <-. exists [Perror 352]. cbn [trace emit].
    rewrite woken_trace, <- app_assoc. split; [reflexivity |].
    split; [repeat constructor |]. rewrite Hr. auto.
  - apply skip_irq_world in H as [-> _]. exists [].
    rewrite woken_trace, app_nil_r. split; [reflexivity |]. split; [constructor |].
    rewrite Hm. destruct (wk_ret k =? -1); auto.
  - apply skip_irq_world in H as [-> _]. exists (sample_events k).
    rewrite sampled_trace, woken_trace, <- app_assoc. split; [reflexivity |].
    split; [apply sample_events_loop |].
    destruct (Z.eqb_spec (wk_ret k) (-1)); [lia |].
    destruct (Z.eqb_spec (to_u32 (wk_mask k)) 0); [lia |]. auto.
  - injection H as <- <-. exists (sample_events k).
    cbn [trace emit reg_read_now reg_read_start reg_read snd].
    rewrite woken_trace, <- !app_assoc. split; [reflexivity |].
    split; [apply sample_events_loop |].
    destruct (Z.eqb_spec (wk_ret k) (-1)); [lia |].
    destruct (Z.eqb_spec (to_u32 (wk_mask k)) 0); [lia |]. auto.
Qed.

Lemma wait_events_loop (k : wake) : Forall loop_event (wait_events k).
Proof. unfold wait_events. destruct (wk_sigint k); repeat constructor. Qed.

Lemma wait_events_start_reads (k : wake) : count_events is_start_read (wait_events k) = 0.
Proof. unfold wait_events. destruct (wk_sigint k); reflexivity. Qed.

(** The loop only adds events to the trace, all of them [loop_event]s. *)
Lemma rtask_loop_events (ks : list wake) (w w' : world) (r : status) :
  rtask_loop SIZE_MAX irq_fclk ks w = (r, w') ->
  exists evs, trace w' = trace w ++ evs /\ Forall loop_event evs.
Proof.
  revert w. induction ks as [| k ks IH]; intros w; cbn [rtask_loop].
  - intros [= <- <-]. exists []. rewrite app_nil_r. auto.
  - destruct (loop_body SIZE_MAX irq_fclk k w) as [r1 w1] eqn:E.
    destruct (loop_body_events _ _ _ _ E) as (e1 & T1 & F1 & _).
    assert (Hone : exists evs, trace w1 = trace w ++ evs /\ Forall loop_event evs).
    { exists (wait_events k ++ e1). split; [assumption |].
      apply Forall_app; split; [apply wait_events_loop | assumption]. }
    destruct r1; try (intros [= <- <-]; exact Hone).
    intros H. destruct (IH _ H) as (e2 & T2 & F2).
    destruct Hone as (e0 & T0 & F0).
    exists (e0 ++ e2). cbn [trace next_irq set_arg] in T2.
    rewrite T2, T0, <- app_assoc. split; [reflexivity |].
    apply Forall_app; auto.
Qed.

End LoopProperties.

(** ** Conservation *)

Lemma sum_buckets_nonneg (h : list Z) : Forall (fun v => 0 <= v) h -> 0 <= sum_buckets h.
Proof. induction 1; simpl; lia. Qed.

Lemma sum_buckets_hist_incr (h h' : list Z) (i : Z) :
  hist_incr h i = Some h' -> sum_buckets h' = sum_buckets h - bucket h i + bucket h' i.
Proof.
  intros H. rewrite (bucket_hist_incr_eq _ _ _ H). revert H. unfold hist_incr, bucket.
  destruct (h !! Z.to_nat i) as [c |] eqn:E; [| discriminate].
  intros [= <-]. apply sum_buckets_insert. exact E.
Qed.

Section Conservation.

Variable SIZE_MAX : Z.
Variable irq_fclk : Z.
Hypothesis size_t_32 : UINT32_MAX <= SIZE_MAX.
Hypothesis fclk_nonzero : irq_fclk <> 0.

(** One recorded latency adds one to exactly one counter, as long as no
    counter is at its maximum. *)
Lemma record_latency_total (x xx : Z) (a : rtask_arg_t) :
  hist_ok a -> total a < UINT32_MAX ->
  exists a', record_latency SIZE_MAX irq_fclk x xx a = Some a'
             /\ total a' = total a + 1 /\ hist_ok a'.
Proof.
  intros (Hlen & Hpos & Hmiss) Htot. unfold total in *.
  pose proof (sum_buckets_nonneg _ Hpos) as Hsum.
  unfold record_latency, ticks_to_us.
  destruct (Z.eqb_spec irq_fclk 0) as [| _]; [contradiction |].
  set (us := to_u32 _). pose proof (to_u32_range (to_u64 (to_u64 (latency_ticks x xx) * to_u64 1000000) / to_u64 irq_fclk)) as Hus.
  fold us in Hus.
  destruct (Z.ltb_spec us LAT_MAX_COUNT) as [Hlt | Hge].
  - unfold hist_incr.
    destruct (lookup_lt_is_Some_2 (lat_hist a) (Z.to_nat us)) as [c Hc]; [rewrite Hlen; lia |].
    rewrite Hc. eexists; split; [reflexivity |].
    pose proof (sum_buckets_bound _ _ _ Hpos Hc) as Hcb.
    cbn [lat_hist irq_missed with_hist].
    rewrite (sum_buckets_insert _ _ _ _ Hc), to_u32_id by lia.
    split; [lia |]. unfold hist_ok. cbn [lat_hist irq_missed with_hist].
    rewrite length_insert. split; [assumption |]. split; [| assumption].
    apply Forall_insert; [assumption | lia].
  - eexists; split; [reflexivity |]. cbn [lat_hist irq_missed with_missed].
    assert (E : to_size SIZE_MAX (irq_missed a + 1) = irq_missed a + 1).
    { unfold to_size. apply Z.mod_small. lia. }
    rewrite E. split; [lia |]. unfold hist_ok. cbn [lat_hist irq_missed with_missed].
    split; [assumption |]. split; [assumption | lia].
Qed.

Lemma loop_body_total (k : wake) (w w' : world) (r : status) :
  loop_body SIZE_MAX irq_fclk k w = (r, w') ->
  hist_ok (w_arg w) ->
  exists evs, trace w' = trace w ++ evs
    /\ 0 <= count_events is_start_read evs
    /\ (total (w_arg w) + count_events is_start_read evs <= UINT32_MAX ->
        total (w_arg w') = total (w_arg w) + count_events is_start_read evs
        /\ hist_ok (w_arg w')).
Proof.
  intros H Hok.
  destruct (loop_body_events _ _ _ _ _ _ H) as (evs & T & _ & _ & Hn).
  exists (wait_events k ++ evs). split; [assumption |].
  rewrite count_events_app, wait_events_start_reads, Z.add_0_l, Hn.
  split; [destruct (_ || _); lia |]. clear T Hn evs.
  destruct (loop_body_cases SIZE_MAX irq_fclk k w)
    as [(Hr & E) | [(Hr & Hm & E) | [(Hr & Hm & a & Ha & E) | (Hr & Hm & Ha & E)]]];
    rewrite E in H; clear E.
  - injection H as <- <-. cbn [w_arg emit]. rewrite woken_arg.
    destruct (Z.eqb_spec (wk_ret k) (-1)); [| lia]. cbn [orb]. intros _. split; [lia | assumption].
  - apply skip_irq_world in H as [-> _]. rewrite woken_arg, Hm.
    rewrite orb_true_r. intros _. split; [lia | assumption].
  - apply skip_irq_world in H as [-> _].
    destruct (Z.eqb_spec (wk_ret k) (-1)); [lia |].
    destruct (Z.eqb_spec (to_u32 (wk_mask k)) 0); [lia |]. cbn [orb].
    intros Hb. rewrite woken_arg in Ha.
    destruct (record_latency_total (to_u32 (wk_start k)) (to_u32 (wk_now k)) (w_arg w) Hok)
      as (a' & Ha' & Htot & Hok'); [lia |].
    rewrite Ha in Ha'. injection Ha' as <-.
    unfold sampled. cbn [w_arg set_arg]. auto.
  - destruct (Z.eqb_spec (wk_ret k) (-1)); [lia |].
    destruct (Z.eqb_spec (to_u32 (wk_mask k)) 0); [lia |]. cbn [orb].
    intros Hb. rewrite woken_arg in Ha.
    destruct (record_latency_total (to_u32 (wk_start k)) (to_u32 (wk_now k)) (w_arg w) Hok)
      as (a' & Ha' & _); [lia |].
    rewrite Ha in Ha'. discriminate.
Qed.

Lemma rtask_loop_total (ks : list wake) (w w' : world) (r : status) :
  rtask_loop SIZE_MAX irq_fclk ks w = (r, w') ->
  hist_ok (w_arg w) ->
  exists evs, trace w' = trace w ++ evs
    /\ 0 <= count_events is_start_read evs
    /\ (total (w_arg w) + count_events is_start_read evs <= UINT32_MAX ->
        total (w_arg w') = total (w_arg w) + count_events is_start_read evs
        /\ hist_ok (w_arg w')).
Proof.
  revert w. induction ks as [| k ks IH]; intros w; cbn [rtask_loop].
  - intros [= <- <-] Hok. exists []. rewrite app_nil_r. simpl.
    split; [reflexivity |]. split; [lia |]. intros _. split; [lia | assumption].
  - destruct (loop_body SIZE_MAX irq_fclk k w) as [r1 w1] eqn:E. intros H Hok.
    destruct (loop_body_total _ _ _ _ E Hok) as (e1 & T1 & N1 & C1).
    destruct r1; try (injection H as <- <-; exists e1; auto).
    destruct (Z_le_gt_dec (total (w_arg w) + count_events is_start_read e1) UINT32_MAX)
      as [Hle | Hgt].
    + destruct (C1 Hle) as (Tot1 & Ok1).
      assert (Ok1' : hist_ok (w_arg (next_irq SIZE_MAX w1))) by exact Ok1.
      destruct (IH _ H Ok1') as (e2 & T2 & N2 & C2).
      exists (e1 ++ e2). cbn [trace next_irq set_arg] in T2.
      rewrite T2, T1, <- app_assoc, count_events_app.
      split; [reflexivity |]. split; [lia |]. intros Hb.
      change (total (w_arg (next_irq SIZE_MAX w1))) with (total (w_arg w1)) in C2.
      destruct C2 as (Tot2 & Ok2); [lia |]. split; [lia | assumption].
    + destruct (rtask_loop_events _ _ _ _ _ _ H) as (e2 & T2 & _).
      exists (e1 ++ e2). cbn [trace next_irq set_arg] in T2.
      rewrite T2, T1, <- app_assoc, count_events_app.
      split; [reflexivity |].
      pose proof (count_events_nonneg is_start_read e2). split; [lia |]. intros Hb. lia.
Qed.

End Conservation.

(** ** Runs of uniform samples *)

Lemma to_u32_add_l (a b : Z) : to_u32 (to_u32 a + b) = to_u32 (a + b).
Proof. unfold to_u32. apply Zplus_mod_idemp_l. Qed.

Section PlainRuns.

Variable SIZE_MAX : Z.
Variable irq_fclk : Z.
Variable u : Z.
Hypothesis u_range : 0 <= u < LAT_MAX_COUNT.

Lemma loop_body_plain (k : wake) (w : world) :
  plain_wake irq_fclk u k ->
  length (lat_hist (w_arg w)) = Z.to_nat LAT_MAX_COUNT ->
  exists a', recorded u 1 (w_arg w) a' /\ irq_count a' = irq_count (w_arg w)
    /\ loop_body SIZE_MAX irq_fclk k w = skip_irq (sampled k a' (woken k w)).
Proof.
  intros (Hs & Hr & Hm & Hu) Hlen.
  destruct (hist_incr_is_Some (lat_hist (w_arg w)) u) as [h' Hh']; [rewrite Hlen; lia |].
  exists (with_hist h' (w_arg w)). split; [| split; [reflexivity |]].
  - unfold recorded. cbn [cmd irq_missed lat_hist with_hist].
    split; [reflexivity |]. split; [reflexivity |].
    split; [eapply hist_incr_length; eassumption |].
    split; [eapply bucket_hist_incr_eq; eassumption |].
    split; [intros j Hj Hne; eapply bucket_hist_incr_ne; eauto; lia |].
    rewrite (sum_buckets_hist_incr _ _ _ Hh'). lia.
  - destruct (loop_body_cases SIZE_MAX irq_fclk k w)
      as [(Hr' & E) | [(_ & Hm' & E) | [(_ & _ & a & Ha & E) | (_ & _ & Ha & E)]]];
      try contradiction.
    + rewrite E. rewrite woken_arg in Ha. unfold record_latency in Ha.
      rewrite Hu in Ha. destruct (Z.ltb_spec u LAT_MAX_COUNT); [| lia].
      rewrite Hh' in Ha. injection Ha as <-. reflexivity.
    + rewrite woken_arg in Ha. unfold record_latency in Ha.
      rewrite Hu in Ha. destruct (Z.ltb_spec u LAT_MAX_COUNT); [| lia].
      rewrite Hh' in Ha. discriminate.
Qed.

Lemma recorded_trans (n m : Z) (a b c : rtask_arg_t) :
  recorded u n a b -> recorded u m b c -> recorded u (n + m) a c.
Proof.
  intros (A1 & A2 & A3 & A4 & A5 & A6) (B1 & B2 & B3 & B4 & B5 & B6).
  unfold recorded. repeat split; try congruence.
  - rewrite B4, A4, to_u32_add_l, Z.add_assoc. reflexivity.
  - intros j Hj Hne. rewrite B5, A5; auto.
Qed.

(** As long as neither exit test fires, [length ks] plain wakes are [length
    ks] passes, each recording one latency and counting one IRQ. *)
Lemma rtask_loop_plain (ks : list wake) (w : world) :
  Forall (plain_wake irq_fclk u) ks ->
  is_sigint w = 0 ->
  length (lat_hist (w_arg w)) = Z.to_nat LAT_MAX_COUNT ->
  0 <= bucket (lat_hist (w_arg w)) u <= UINT32_MAX ->
  0 <= irq_count (w_arg w) ->
  irq_count (w_arg w) + Z.of_nat (length ks) <= SIZE_MAX ->
  (Cmd.irq_count (cmd (w_arg w)) <= 0
   \/ irq_count (w_arg w) + Z.of_nat (length ks) <= Cmd.irq_count (cmd (w_arg w))) ->
  exists w' evs,
    rtask_loop SIZE_MAX irq_fclk ks w = (Continue, w')
    /\ recorded u (Z.of_nat (length ks)) (w_arg w) (w_arg w')
    /\ irq_count (w_arg w') = irq_count (w_arg w) + Z.of_nat (length ks)
    /\ is_sigint w' = 0
    /\ trace w' = trace w ++ evs
    /\ count_events is_start_read evs = Z.of_nat (length ks).
Proof.
  revert w. induction ks as [| k ks IH]; intros w Hall Hsig Hlen Hb Hc0 Hcs Hex.
  - exists w, []. cbn [rtask_loop length]. rewrite app_nil_r, Z.add_0_r.
    repeat split; auto. rewrite Z.add_0_r. symmetry. apply to_u32_id. exact Hb.
  - apply Forall_cons in Hall as [Hk Hall]. cbn [length] in *.
    rewrite Nat2Z.inj_succ in *.
    destruct (loop_body_plain k w Hk Hlen) as (a1 & Hrec & Hcnt & E).
    pose proof Hk as (Hs & _).
    set (w1 := sampled k a1 (woken k w)) in *.
    assert (Hsig1 : is_sigint w1 = 0).
    { unfold w1, sampled. cbn [is_sigint set_arg reg_read_now reg_read_start reg_read snd emit].
      rewrite woken_sigint, Hs. exact Hsig. }
    assert (Harg1 : w_arg w1 = a1) by reflexivity.
    pose proof Hrec as (R1 & R2 & R3 & R4 & R5 & R6).
    assert (Eskip : skip_irq w1 = (Continue, w1)).
    { unfold skip_irq. rewrite Hsig1, Harg1, R1, Hcnt. cbn [Z.eqb negb].
      destruct (Z.ltb_spec 0 (Cmd.irq_count (cmd (w_arg w)))); [| reflexivity].
      destruct (Z.eqb_spec (irq_count (w_arg w)) (Cmd.irq_count (cmd (w_arg w)))); [lia | reflexivity]. }
    cbn [rtask_loop]. rewrite E, Eskip.
    assert (Enext : irq_count (w_arg (next_irq SIZE_MAX w1)) = irq_count (w_arg w) + 1).
    { cbn [next_irq w_arg set_arg irq_count with_count]. rewrite Harg1, Hcnt.
      unfold to_size. apply Z.mod_small. lia. }
    destruct (IH (next_irq SIZE_MAX w1)) as (w' & e2 & L & Hrec2 & Hcnt2 & Hsig2 & T2 & N2).
    + exact Hall.
    + exact Hsig1.
    + cbn [next_irq w_arg set_arg lat_hist with_count]. rewrite Harg1, R3. exact Hlen.
    + cbn [next_irq w_arg set_arg lat_hist with_count]. rewrite Harg1, R4. apply to_u32_range.
    + rewrite Enext. lia.
    + rewrite Enext. lia.
    + rewrite Enext. cbn [next_irq w_arg set_arg cmd with_count]. rewrite Harg1, R1. lia.
    + exists w', (wait_events k ++ sample_events k ++ e2). split; [exact L |].
      split.
      { replace (Z.succ (Z.of_nat (length ks))) with (1 + Z.of_nat (length ks)) by lia.
        eapply recorded_trans; [exact Hrec |]. exact Hrec2. }
      split; [rewrite Hcnt2, Enext; lia |]. split; [exact Hsig2 |].
      split.
      { rewrite T2. cbn [next_irq trace set_arg]. unfold w1.
        rewrite sampled_trace, woken_trace, <- !app_assoc. reflexivity. }
      rewrite !count_events_app, wait_events_start_reads, N2.
      change (count_events is_start_read (sample_events k)) with 1. lia.
Qed.

End PlainRuns.

Lemma record_latency_is_Some (SIZE_MAX irq_fclk x xx : Z) (a : rtask_arg_t) :
  irq_fclk <> 0 -> length (lat_hist a) = Z.to_nat LAT_MAX_COUNT ->
  is_Some (record_latency SIZE_MAX irq_fclk x xx a).
Proof.
  intros Hf Hlen. unfold record_latency, ticks_to_us.
  destruct (Z.eqb_spec irq_fclk 0); [contradiction |].
  set (us := to_u32 _).
  pose proof (to_u32_range (to_u64 (to_u64 (latency_ticks x xx) * to_u64 1000000) / to_u64 irq_fclk)) as Hus.
  fold us in Hus.
  destruct (Z.ltb_spec us LAT_MAX_COUNT); [| eauto].
  destruct (hist_incr_is_Some (lat_hist a) us) as [h' ->]; [rewrite Hlen; lia | eauto].
Qed.

(** A run bounded by [-count n] against plain wakes: the exit test of line
    386 compares [arg->irq_count] before the [for] increments it, so that
    the loop leaves in pass [n + 1], with [n + 1] latencies recorded. *)
Lemma rtask_loop_plain_exit (SIZE_MAX irq_fclk u n : Z) (ks : list wake) (w : world) :
  0 <= u < LAT_MAX_COUNT ->
  Forall (plain_wake irq_fclk u) ks ->
  is_sigint w = 0 ->
  length (lat_hist (w_arg w)) = Z.to_nat LAT_MAX_COUNT ->
  0 <= bucket (lat_hist (w_arg w)) u <= UINT32_MAX ->
  irq_count (w_arg w) = 0 ->
  Cmd.irq_count (cmd (w_arg w)) = n ->
  0 < n <= SIZE_MAX ->
  n < Z.of_nat (length ks) ->
  exists w' evs,
    rtask_loop SIZE_MAX irq_fclk ks w = (Break, w')
    /\ recorded u (n + 1) (w_arg w) (w_arg w')
    /\ irq_count (w_arg w') = n
    /\ trace w' = trace w ++ evs
    /\ count_events is_start_read evs = n + 1.
Proof.
  intros Hu Hall Hsig Hlen Hb Hc0 Hcmd Hn Hks.
  assert (L1 : Z.of_nat (length (take (Z.to_nat n) ks)) = n) by (rewrite length_take; lia).
  assert (L2 : (0 < length (drop (Z.to_nat n) ks))%nat) by (rewrite length_drop; lia).
  rewrite <- (take_drop (Z.to_nat n) ks) in Hall |- *.
  set (ks1 := take (Z.to_nat n) ks) in *. set (ks2 := drop (Z.to_nat n) ks) in *.
  apply Forall_app in Hall as [Hall1 Hall2].
  destruct ks2 as [| k ks2]; [cbn [length] in L2; lia |].
  apply Forall_cons in Hall2 as [Hk _].
  destruct (rtask_loop_plain SIZE_MAX irq_fclk u Hu ks1 w)
    as (w1 & e1 & L & Hrec & Hcnt & Hsig1 & T1 & N1); try assumption; try lia.
  rewrite rtask_loop_app, L. cbn [rtask_loop].
  pose proof Hrec as (R1 & R2 & R3 & R4 & R5 & R6).
  destruct (loop_body_plain SIZE_MAX irq_fclk u Hu k w1 Hk) as (a2 & Hrec2 & Hcnt2 & E).
  { rewrite R3. exact Hlen. }
  pose proof Hk as (Hs & _).
  set (w2 := sampled k a2 (woken k w1)) in *.
  assert (Hsig2 : is_sigint w2 = 0).
  { unfold w2, sampled. cbn [is_sigint set_arg reg_read_now reg_read_start reg_read snd emit].
    rewrite woken_sigint, Hs. exact Hsig1. }
  assert (Harg2 : w_arg w2 = a2) by reflexivity.
  pose proof Hrec2 as (Q1 & _).
  assert (Eskip : skip_irq w2 = (Break, w2)).
  { unfold skip_irq. rewrite Hsig2, Harg2, Q1, R1, Hcnt2, Hcnt, Hcmd, Hc0, L1. cbn [Z.eqb negb].
    destruct (Z.ltb_spec 0 n); [| lia].
    destruct (Z.eqb_spec (0 + n) n); [reflexivity | lia]. }
  rewrite E, Eskip. exists w2, (e1 ++ wait_events k ++ sample_events k).
  split; [reflexivity |]. split.
  { rewrite Harg2. rewrite <- L1 at 1. eapply recorded_trans; eassumption. }
  split; [rewrite Harg2, Hcnt2, Hcnt, Hc0; lia |]. split.
  { unfold w2. rewrite sampled_trace, woken_trace, T1, <- !app_assoc. reflexivity. }
  rewrite !count_events_app, wait_events_start_reads, N1.
  change (count_events is_start_read (sample_events k)) with 1. lia.
Qed.

(** ** The scenario of five samples *)

Lemma scenario_wake_plain (k : wake) :
  scenario_wake k -> plain_wake 1000000 500000 k.
Proof.
  intros (Hs & Hr & Hm & Hx & Hxx & Hl). unfold plain_wake.
  rewrite (to_u32_id (wk_start k)), (to_u32_id (wk_now k)), Hl by assumption.
  split; [assumption |]. split; [lia |]. split; [assumption | reflexivity].
Qed.

Lemma scenario_run (SIZE_MAX : Z) (ks : list wake) (c : Cmd.cmdline_t) :
  5 <= SIZE_MAX -> Cmd.irq_count c = 5 ->
  Forall scenario_wake ks -> (6 <= length ks)%nat ->
  exists w', rtask_loop SIZE_MAX 1000000 ks (loop_world c) = (Break, w')
    /\ irq_count (w_arg w') = 5
    /\ irq_missed (w_arg w') = 0
    /\ bucket (lat_hist (w_arg w')) 500000 = 6
    /\ (forall j, 0 <= j -> j <> 500000 -> bucket (lat_hist (w_arg w')) j = 0)
    /\ count_events is_start_read (trace w') = 6.
Proof.
  intros Hsz Hc Hall Hlen.
  assert (Hu : 0 <= 500000 < LAT_MAX_COUNT) by (rewrite LAT_MAX_COUNT_eq; lia).
  assert (Hpl : Forall (plain_wake 1000000 500000) ks)
    by (eapply Forall_impl; [exact Hall | exact scenario_wake_plain]).
  assert (Hb : 0 <= bucket (lat_hist (w_arg (loop_world c))) 500000 <= UINT32_MAX).
  { cbn [loop_world task_world loop_init w_arg set_arg with_count with_missed lat_hist fresh_arg].
    rewrite bucket_replicate. unfold UINT32_MAX. lia. }
  assert (Hks : 5 < Z.of_nat (length ks)) by lia.
  destruct (rtask_loop_plain_exit SIZE_MAX 1000000 500000 5 ks (loop_world c)
              Hu Hpl eq_refl (fresh_arg_length c) Hb eq_refl Hc (conj eq_refl Hsz) Hks)
    as (w' & evs & L & (R1 & R2 & R3 & R4 & R5 & R6) & Hcnt & T & N).
  exists w'. split; [exact L |]. split; [exact Hcnt |]. split; [exact R2 |].
  cbn [loop_world task_world loop_init w_arg set_arg with_count with_missed lat_hist fresh_arg] in R4, R5.
  rewrite bucket_replicate in R4. split; [exact R4 |]. split.
  - intros j Hj Hne. rewrite R5 by assumption. apply bucket_replicate.
  - rewrite T. exact N.
Qed.

Lemma wake_500000_scenario : scenario_wake wake_500000.
Proof.
  unfold scenario_wake, wake_500000, UINT32_MAX. cbn [wk_sigint wk_ret wk_mask wk_start wk_now].
  split; [reflexivity |]. split; [reflexivity |]. split; [discriminate |].
  split; [lia |]. split; [lia | reflexivity].
Qed.

(** C1, as amended: with [-count 5], a clock of 1 MHz and wakes that all
    carry a sample of 500000 ticks, the loop leaves with [irq_count = 5] and
    [irq_missed = 0]; 500000 ticks at 1 MHz are 500000 microseconds, so
    every sample read is counted in the bucket at offset 500000, which
    holds the number of samples read, at least five, and the bucket at
    offset 500 and every other bucket stay at 0. *)
Theorem scenario_five_samples (SIZE_MAX : Z) (ks : list wake) (c : Cmd.cmdline_t) :
  5 <= SIZE_MAX -> Cmd.irq_count c = 5 ->
  Forall scenario_wake ks -> (6 <= length ks)%nat ->
  exists w', rtask_loop SIZE_MAX 1000000 ks (loop_world c) = (Break, w')
    /\ irq_count (w_arg w') = 5
    /\ irq_missed (w_arg w') = 0
    /\ bucket (lat_hist (w_arg w')) 500 = 0
    /\ bucket (lat_hist (w_arg w')) 500000 = count_events is_start_read (trace w')
    /\ 5 <= bucket (lat_hist (w_arg w')) 500000
    /\ (forall j, 0 <= j -> j <> 500000 -> bucket (lat_hist (w_arg w')) j = 0).
Proof.
  intros Hsz Hc Hall Hlen.
  destruct (scenario_run SIZE_MAX ks c Hsz Hc Hall Hlen) as (w' & L & H1 & H2 & H3 & H4 & H5).
  exists w'. split; [exact L |]. split; [exact H1 |]. split; [exact H2 |].
  split; [apply H4; lia |]. split; [rewrite H3, H5; reflexivity |].
  split; [lia | exact H4].
Qed.

Lemma scenario_five_samples_witness :
  exists w', rtask_loop UINT32_MAX 1000000 (replicate 6 wake_500000) (loop_world cmd_count5)
             = (Break, w')
    /\ irq_count (w_arg w') = 5
    /\ irq_missed (w_arg w') = 0
    /\ bucket (lat_hist (w_arg w')) 500 = 0
    /\ bucket (lat_hist (w_arg w')) 500000 = count_events is_start_read (trace w')
    /\ 5 <= bucket (lat_hist (w_arg w')) 500000
    /\ (forall j, 0 <= j -> j <> 500000 -> bucket (lat_hist (w_arg w')) j = 0).
Proof.
  apply scenario_five_samples.
  - unfold UINT32_MAX. lia.
  - reflexivity.
  - apply Forall_replicate. exact wake_500000_scenario.
  - rewrite length_replicate. lia.
Defined.

(** C1, as stated, fails: in the scenario the bucket at offset 500 is 0 at
    the exit of the loop, not 5. *)
Lemma scenario_bucket_500_is_empty :
  exists w', rtask_loop UINT32_MAX 1000000 (replicate 6 wake_500000) (loop_world cmd_count5)
             = (Break, w')
    /\ irq_count (w_arg w') = 5
    /\ irq_missed (w_arg w') = 0
    /\ bucket (lat_hist (w_arg w')) 500 = 0
    /\ bucket (lat_hist (w_arg w')) 500 <> 5.
Proof.
  destruct (scenario_run UINT32_MAX (replicate 6 wake_500000) cmd_count5)
    as (w' & L & H1 & H2 & H3 & H4 & _).
  - unfold UINT32_MAX. lia.
  - reflexivity.
  - apply Forall_replicate. exact wake_500000_scenario.
  - rewrite length_replicate. lia.
  - exists w'. split; [exact L |]. split; [exact H1 |]. split; [exact H2 |].
    assert (E : bucket (lat_hist (w_arg w')) 500 = 0) by (apply H4; lia).
    split; [exact E |]. rewrite E. discriminate.
Qed.

(** The same run records six samples, one more than [irq_count] says, and
    five wakes do not end it. *)
Lemma scenario_records_six :
  (exists w', rtask_loop UINT32_MAX 1000000 (replicate 6 wake_500000) (loop_world cmd_count5)
              = (Break, w')
     /\ irq_count (w_arg w') = 5
     /\ bucket (lat_hist (w_arg w')) 500000 = 6
     /\ count_events is_start_read (trace w') = 6)
  /\ fst (rtask_loop UINT32_MAX 1000000 (replicate 5 wake_500000) (loop_world cmd_count5))
     = Continue.
Proof.
  split.
  - destruct (scenario_run UINT32_MAX (replicate 6 wake_500000) cmd_count5)
      as (w' & L & H1 & H2 & H3 & H4 & H5).
    + unfold UINT32_MAX. lia.
    + reflexivity.
    + apply Forall_replicate. exact wake_500000_scenario.
    + rewrite length_replicate. lia.
    + exists w'. auto.
  - assert (Hu : 0 <= 500000 < LAT_MAX_COUNT) by (rewrite LAT_MAX_COUNT_eq; lia).
    destruct (rtask_loop_plain UINT32_MAX 1000000 500000 Hu (replicate 5 wake_500000)
                (loop_world cmd_count5)) as (w' & evs & L & _).
    + apply Forall_replicate, scenario_wake_plain, wake_500000_scenario.
    + reflexivity.
    + apply fresh_arg_length.
    + cbn [loop_world task_world loop_init w_arg set_arg with_count with_missed lat_hist fresh_arg].
      rewrite bucket_replicate. unfold UINT32_MAX. lia.
    + apply Z.le_refl.
    + rewrite length_replicate. unfold UINT32_MAX. cbn. lia.
    + right. rewrite length_replicate. cbn. lia.
    + rewrite L. reflexivity.
Qed.

(** ** Conservation of the histogram *)

Lemma loop_body_idle (SIZE_MAX irq_fclk : Z) (k : wake) (w w' : world) (r : status) :
  to_u32 (wk_mask k) = 0 ->
  loop_body SIZE_MAX irq_fclk k w = (r, w') ->
  lat_hist (w_arg w') = lat_hist (w_arg w) /\ irq_missed (w_arg w') = irq_missed (w_arg w).
Proof.
  intros Hm H.
  destruct (loop_body_cases SIZE_MAX irq_fclk k w)
    as [(Hr & E) | [(Hr & _ & E) | [(_ & Hm' & _) | (_ & Hm' & _)]]];
    try contradiction; rewrite E in H.
  - injection H as <- <-. cbn [w_arg emit]. rewrite woken_arg. auto.
  - apply skip_irq_world in H as [-> _]. rewrite woken_arg. auto.
Qed.

(** C4, as amended: from the empty histogram, at every point of the run at
    which N latencies have been recorded (wakes with a nonzero mask, one
    START read each) and N fits 32 bits, the buckets and [irq_missed] add up
    to N; a wake with an empty mask changes neither the buckets nor
    [irq_missed]. *)
Theorem histogram_conservation (SIZE_MAX irq_fclk : Z) (ks : list wake) (w w' : world)
    (r : status) :
  UINT32_MAX <= SIZE_MAX -> irq_fclk <> 0 ->
  lat_hist (w_arg w) = replicate (Z.to_nat LAT_MAX_COUNT) 0 ->
  rtask_loop SIZE_MAX irq_fclk ks (loop_init w) = (r, w') ->
  (exists evs, trace w' = trace w ++ evs
     /\ (count_events is_start_read evs <= UINT32_MAX ->
         sum_buckets (lat_hist (w_arg w')) + irq_missed (w_arg w')
         = count_events is_start_read evs))
  /\ (forall (k : wake) (v v1 : world) (r1 : status),
        to_u32 (wk_mask k) = 0 ->
        loop_body SIZE_MAX irq_fclk k v = (r1, v1) ->
        lat_hist (w_arg v1) = lat_hist (w_arg v)
        /\ irq_missed (w_arg v1) = irq_missed (w_arg v)).
Proof.
  intros Hsz Hf Hh H. split; [| intros k v v1 r1; apply loop_body_idle].
  assert (Hok : hist_ok (w_arg (loop_init w))).
  { unfold hist_ok. cbn [loop_init w_arg set_arg with_count with_missed lat_hist irq_missed].
    rewrite Hh. split; [apply length_replicate |]. split; [| lia].
    apply Forall_replicate. lia. }
  assert (Htot : total (w_arg (loop_init w)) = 0).
  { unfold total. cbn [loop_init w_arg set_arg with_count with_missed lat_hist irq_missed].
    rewrite Hh, sum_buckets_replicate. reflexivity. }
  destruct (rtask_loop_total SIZE_MAX irq_fclk Hsz Hf ks _ _ _ H Hok) as (evs & T & N & C).
  exists evs. split; [exact T |]. intros Hb. rewrite Htot in C.
  destruct C as (C & _); [lia |]. unfold total in C. lia.
Qed.

Lemma histogram_conservation_witness :
  (exists evs,
     trace (snd (rtask_loop UINT32_MAX 1000000 [wake_0; wake_idle; wake_500000]
                   (loop_world cmd_unbounded)))
     = trace (loop_world cmd_unbounded) ++ evs
     /\ (count_events is_start_read evs <= UINT32_MAX ->
         sum_buckets (lat_hist (w_arg (snd (rtask_loop UINT32_MAX 1000000
                                              [wake_0; wake_idle; wake_500000]
                                              (loop_world cmd_unbounded)))))
         + irq_missed (w_arg (snd (rtask_loop UINT32_MAX 1000000
                                     [wake_0; wake_idle; wake_500000]
                                     (loop_world cmd_unbounded))))
         = count_events is_start_read evs))
  /\ (forall (k : wake) (v v1 : world) (r1 : status),
        to_u32 (wk_mask k) = 0 ->
        loop_body UINT32_MAX 1000000 k v = (r1, v1) ->
        lat_hist (w_arg v1) = lat_hist (w_arg v)
        /\ irq_missed (w_arg v1) = irq_missed (w_arg v)).
Proof.
  apply (histogram_conservation UINT32_MAX 1000000 [wake_0; wake_idle; wake_500000]
           (loop_world cmd_unbounded)
           (snd (rtask_loop UINT32_MAX 1000000 [wake_0; wake_idle; wake_500000]
                   (loop_world cmd_unbounded)))
           (fst (rtask_loop UINT32_MAX 1000000 [wake_0; wake_idle; wake_500000]
                   (loop_world cmd_unbounded)))).
  - apply Z.le_refl.
  - discriminate.
  - reflexivity.
  - apply surjective_pairing.
Defined.

(** C4, as stated, fails: after 2^32 latencies of 0 microseconds the counter
    of bucket 0, a [uint32_t], is back at 0 and the buckets and
    [irq_missed] add up to 0. *)
Lemma histogram_conservation_wraps :
  exists w', rtask_loop UINT64_MAX 1000000 (replicate (Z.to_nat 4294967296) wake_0)
               (loop_world cmd_unbounded) = (Continue, w')
    /\ count_events is_start_read (trace w') = 4294967296
    /\ sum_buckets (lat_hist (w_arg w')) + irq_missed (w_arg w') = 0
    /\ sum_buckets (lat_hist (w_arg w')) + irq_missed (w_arg w')
       <> count_events is_start_read (trace w').
Proof.
  assert (Hu : 0 <= 0 < LAT_MAX_COUNT) by (rewrite LAT_MAX_COUNT_eq; lia).
  assert (Hlen : Z.of_nat (length (replicate (Z.to_nat 4294967296) wake_0)) = 4294967296).
  { rewrite length_replicate. apply Z2Nat.id. lia. }
  destruct (rtask_loop_plain UINT64_MAX 1000000 0 Hu (replicate (Z.to_nat 4294967296) wake_0)
              (loop_world cmd_unbounded))
    as (w' & evs & L & (R1 & R2 & R3 & R4 & R5 & R6) & Hcnt & Hsig & T & N).
  - apply Forall_replicate. unfold plain_wake, wake_0.
    cbn [wk_sigint wk_ret wk_mask wk_start wk_now].
    split; [reflexivity |]. split; [discriminate |]. split; [discriminate | reflexivity].
  - reflexivity.
  - apply fresh_arg_length.
  - cbn [loop_world task_world loop_init w_arg set_arg with_count with_missed lat_hist fresh_arg].
    rewrite bucket_replicate. unfold UINT32_MAX. lia.
  - apply Z.le_refl.
  - rewrite Hlen. discriminate.
  - left. apply Z.le_refl.
  - rewrite Hlen in R4, N.
    cbn [loop_world task_world loop_init w_arg set_arg with_count with_missed lat_hist irq_missed fresh_arg]
      in R2, R4, R6.
    rewrite bucket_replicate in R4, R6. rewrite sum_buckets_replicate in R6.
    change (to_u32 (0 + 4294967296)) with 0 in R4.
    assert (Hn : count_events is_start_read (trace w') = 4294967296) by (rewrite T; exact N).
    exists w'. split; [exact L |]. split; [exact Hn |].
    split; [lia |]. rewrite Hn. lia.
Qed.

(** ** Wakes with an empty mask *)

(** C7: one wake with an empty mask in an unbounded run.  No sample is read
    and the histogram and [irq_missed] are as before, but the increment of
    the [for] has run: [irq_count], the number of handled IRQs, is 1.  The
    same with a [size_t] of 32 and of 64 bits. *)
Theorem idle_wake_is_counted :
  rtask_loop UINT32_MAX 1000000 [wake_idle] (loop_world cmd_unbounded)
  = (Continue, after_idle_wake cmd_unbounded)
  /\ rtask_loop UINT64_MAX 1000000 [wake_idle] (loop_world cmd_unbounded)
     = (Continue, after_idle_wake cmd_unbounded)
  /\ irq_count (w_arg (after_idle_wake cmd_unbounded)) = 1
  /\ count_events is_start_read (trace (after_idle_wake cmd_unbounded)) = 0
  /\ lat_hist (w_arg (after_idle_wake cmd_unbounded)) = lat_hist (w_arg (loop_world cmd_unbounded))
  /\ irq_missed (w_arg (after_idle_wake cmd_unbounded)) = 0.
Proof. repeat split; reflexivity. Qed.

(** ** Cancellation *)

(** C9: when SIGINT arrives in a pass of the running loop, that pass is the
    last one.  The loop ends with the result of this pass, by [break] or by
    the failure of the wait, whatever wakes would follow; after the signal
    there is the one call of [uirq_wait], with its timeout of 1000 ms, then
    at most the sample of this very wake, and no other wait. *)
Theorem cancellation (SIZE_MAX irq_fclk : Z) (pre post : list wake) (k : wake)
    (w w1 : world) :
  irq_fclk <> 0 ->
  length (lat_hist (w_arg w1)) = Z.to_nat LAT_MAX_COUNT ->
  rtask_loop SIZE_MAX irq_fclk pre w = (Continue, w1) ->
  wk_sigint k = true ->
  exists r w2 evs,
    rtask_loop SIZE_MAX irq_fclk (pre ++ k :: post) w = (r, w2)
    /\ (r = Break \/ r = WaitError)
    /\ loop_body SIZE_MAX irq_fclk k w1 = (r, w2)
    /\ trace w2 = trace w1 ++ Sigint :: UirqWait 1000 (wk_ret k) (to_u32 (wk_mask k)) :: evs
    /\ count_events is_wait evs = 0
    /\ count_events is_start_read evs <= 1.
Proof.
  intros Hf Hlen Hpre Hs.
  destruct (loop_body SIZE_MAX irq_fclk k w1) as [r w2] eqn:E.
  assert (Hr : r = Break \/ r = WaitError).
  { assert (Hsig : forall a, skip_irq (sampled k a (woken k w1))
                             = (Break, sampled k a (woken k w1))).
    { intros a. apply skip_irq_sigint.
      unfold sampled. cbn [is_sigint set_arg reg_read_now reg_read_start reg_read snd emit].
      rewrite woken_sigint, Hs. discriminate. }
    destruct (loop_body_cases SIZE_MAX irq_fclk k w1)
      as [(_ & E') | [(_ & _ & E') | [(_ & _ & a & _ & E') | (_ & _ & Ha & _)]]].
    - rewrite E' in E. injection E as <- _. auto.
    - rewrite E', skip_irq_sigint in E by (rewrite woken_sigint, Hs; discriminate).
      injection E as <- _. auto.
    - rewrite E', Hsig in E. injection E as <- _. auto.
    - rewrite woken_arg in Ha.
      destruct (record_latency_is_Some SIZE_MAX irq_fclk (to_u32 (wk_start k))
                  (to_u32 (wk_now k)) (w_arg w1) Hf Hlen) as [a Ha'].
      rewrite Ha in Ha'. discriminate. }
  destruct (loop_body_events _ _ _ _ _ _ E) as (evs & T & _ & Nw & Ns).
  exists r, w2, evs. split.
  { rewrite rtask_loop_app, Hpre. cbn [rtask_loop]. rewrite E.
    destruct Hr as [-> | ->]; reflexivity. }
  split; [exact Hr |]. split; [reflexivity |]. split.
  { rewrite T. unfold wait_events. rewrite Hs. reflexivity. }
  split; [exact Nw |]. rewrite Ns. destruct (_ || _); lia.
Qed.

Lemma cancellation_witness :
  exists r w2 evs,
    rtask_loop UINT32_MAX 1000000 ([wake_idle] ++ wake_sigint :: [wake_0; wake_0])
      (loop_world cmd_unbounded) = (r, w2)
    /\ (r = Break \/ r = WaitError)
    /\ loop_body UINT32_MAX 1000000 wake_sigint (after_idle_wake cmd_unbounded) = (r, w2)
    /\ trace w2
       = trace (after_idle_wake cmd_unbounded)
         ++ Sigint :: UirqWait 1000 (wk_ret wake_sigint) (to_u32 (wk_mask wake_sigint)) :: evs
    /\ count_events is_wait evs = 0
    /\ count_events is_start_read evs <= 1.
Proof.
  apply cancellation.
  - discriminate.
  - apply fresh_arg_length.
  - reflexivity.
  - reflexivity.
Defined.

(** ** The task from start to end *)

Lemma world_eq (a b : world) :
  w_arg a = w_arg b -> is_sigint a = is_sigint b -> trace a = trace b -> a = b.
Proof. destruct a, b. cbn. intros -> -> ->. reflexivity. Qed.

Ltac solve_world_eq :=
  apply world_eq;
  cbn [w_arg is_sigint trace after_events emit set_sigint set_arg reg_write_ctl reg_write];
  rewrite <- ?app_assoc; reflexivity.

Section TaskPaths.

Variable SIZE_MAX : Z.
Variable d : device.
Variable w : world.
Hypothesis opens : device_opens d.

Lemma rtask_main_magic_mismatch :
  to_u32 (reg_magic d) <> MAGIC ->
  rtask_main SIZE_MAX d w
  = (Returned (-1), after_events (init_events d ++ Perror 310 :: disarm_events) w).
Proof.
  destruct opens as (H1 & H2 & H3 & H4 & H5). intros Hm.
  unfold rtask_main, enable_ebone_slave_interrupt. rewrite H1, H2, H3, H4, H5.
  cbn [negb Z.eqb reg_read_magic reg_read].
  destruct (Z.eqb_spec (to_u32 (reg_magic d)) MAGIC) as [| _]; [contradiction |].
  cbn [negb]. unfold on_error_3, on_error_2, on_error_1, on_error_0, after_events.
  f_equal. solve_world_eq.
Qed.

Lemma rtask_main_crash :
  to_u32 (reg_magic d) = MAGIC ->
  Cmd.irq_fgen (cmd (w_arg w)) = 0 ->
  rtask_main SIZE_MAX d w
  = (Crashed,
     after_events (init_events d ++ [EpciRd32 REG_BAR (REG_BASE + REG_FCLK) (to_u32 (reg_fclk d))]) w).
Proof.
  destruct opens as (H1 & H2 & H3 & H4 & H5). intros Hm Hg.
  unfold rtask_main, enable_ebone_slave_interrupt. rewrite H1, H2, H3, H4, H5.
  cbn [negb Z.eqb reg_read_magic reg_read reg_read_fclk].
  destruct (Z.eqb_spec (to_u32 (reg_magic d)) MAGIC) as [_ |]; [| contradiction].
  cbn [negb w_arg emit set_sigint]. rewrite Hg.
  cbn [Z.eqb]. f_equal. solve_world_eq.
Qed.

Lemma rtask_main_underflow :
  to_u32 (reg_magic d) = MAGIC ->
  Cmd.irq_fgen (cmd (w_arg w)) <> 0 ->
  to_u32 (reg_fclk d) / Cmd.irq_fgen (cmd (w_arg w)) = 0 ->
  rtask_main SIZE_MAX d w
  = (Returned (-1),
     after_events (init_events d
                   ++ EpciRd32 REG_BAR (REG_BASE + REG_FCLK) (to_u32 (reg_fclk d))
                      :: Perror 340 :: disarm_events) w).
Proof.
  destruct opens as (H1 & H2 & H3 & H4 & H5). intros Hm Hg Hq.
  unfold rtask_main, enable_ebone_slave_interrupt. rewrite H1, H2, H3, H4, H5.
  cbn [negb Z.eqb reg_read_magic reg_read reg_read_fclk].
  destruct (Z.eqb_spec (to_u32 (reg_magic d)) MAGIC) as [_ |]; [| contradiction].
  cbn [negb w_arg emit set_sigint].
  destruct (Z.eqb_spec (Cmd.irq_fgen (cmd (w_arg w))) 0) as [| _]; [contradiction |].
  rewrite Hq. cbn [Z.eqb].
  unfold on_error_3, on_error_2, on_error_1, on_error_0, after_events.
  f_equal. solve_world_eq.
Qed.

Lemma rtask_main_armed :
  to_u32 (reg_magic d) = MAGIC ->
  Cmd.irq_fgen (cmd (w_arg w)) <> 0 ->
  to_u32 (reg_fclk d) / Cmd.irq_fgen (cmd (w_arg w)) <> 0 ->
  rtask_main SIZE_MAX d w
  = loop_exit
      (rtask_loop SIZE_MAX (to_u32 (reg_fclk d)) (wakes d)
         (loop_init
            (after_events
               (init_events d
                ++ [EpciRd32 REG_BAR (REG_BASE + REG_FCLK) (to_u32 (reg_fclk d));
                    EpciWr32 REG_BAR (REG_BASE + REG_CTL)
                      (Z.lor CTL_START (to_u32 (reg_fclk d) / Cmd.irq_fgen (cmd (w_arg w))))])
               w))).
Proof.
  destruct opens as (H1 & H2 & H3 & H4 & H5). intros Hm Hg Hq.
  unfold rtask_main, enable_ebone_slave_interrupt. rewrite H1, H2, H3, H4, H5.
  cbn [negb Z.eqb reg_read_magic reg_read reg_read_fclk].
  destruct (Z.eqb_spec (to_u32 (reg_magic d)) MAGIC) as [_ |]; [| contradiction].
  cbn [negb w_arg emit set_sigint].
  destruct (Z.eqb_spec (Cmd.irq_fgen (cmd (w_arg w))) 0) as [| _]; [contradiction |].
  destruct (Z.eqb_spec (to_u32 (reg_fclk d) / Cmd.irq_fgen (cmd (w_arg w))) 0) as [| _];
    [contradiction |].
  match goal with
  | |- context [rtask_loop _ _ _ (loop_init ?W1)] =>
      match goal with
      | |- _ = loop_exit (rtask_loop _ _ _ (loop_init ?W2)) =>
          assert (E : W1 = W2)
      end
  end.
  { solve_world_eq. }
  rewrite E. reflexivity.
Qed.

End TaskPaths.

Lemma on_error_3_trace (err : Z) (w : world) :
  on_error_3 err w = (Returned err, snd (on_error_3 err w))
  /\ trace (snd (on_error_3 err w)) = trace w ++ disarm_events
  /\ w_arg (snd (on_error_3 err w)) = w_arg w.
Proof.
  unfold on_error_3, on_error_2, on_error_1, on_error_0, disarm_events.
  cbn [snd trace w_arg emit reg_write_ctl reg_write]. rewrite <- !app_assoc. auto.
Qed.

Lemma loop_exit_trace (r : status) (w : world) :
  exists tail,
    trace (snd (loop_exit (r, w))) = trace w ++ tail
    /\ w_arg (snd (loop_exit (r, w))) = w_arg w
    /\ ((exists err, fst (loop_exit (r, w)) = Returned err /\ tail = disarm_events)
        \/ ((fst (loop_exit (r, w)) = Crashed \/ fst (loop_exit (r, w)) = Waiting)
            /\ tail = [])).
Proof.
  destruct r; cbn [loop_exit].
  - exists []. rewrite app_nil_r. cbn [fst snd].
    split; [reflexivity |]. split; [reflexivity |]. right. auto.
  - exists disarm_events. destruct (on_error_3_trace 0 w) as (E & T & A).
    rewrite E at 3. cbn [fst]. split; [exact T |]. split; [exact A |]. left. eauto.
  - exists disarm_events. destruct (on_error_3_trace (-1) w) as (E & T & A).
    rewrite E at 3. cbn [fst]. split; [exact T |]. split; [exact A |]. left. eauto.
  - exists []. rewrite app_nil_r. cbn [fst snd].
    split; [reflexivity |]. split; [reflexivity |]. right. auto.
Qed.

(** The trace of a task whose device was armed: setup, read of FCLK, start
    write, events of the loop, and the events of [on_error_3] if the task
    returns. *)
Lemma rtask_main_armed_trace (SIZE_MAX : Z) (d : device) (w : world) :
  device_opens d ->
  to_u32 (reg_magic d) = MAGIC ->
  Cmd.irq_fgen (cmd (w_arg w)) <> 0 ->
  to_u32 (reg_fclk d) / Cmd.irq_fgen (cmd (w_arg w)) <> 0 ->
  exists r w' el tail,
    rtask_main SIZE_MAX d w = (r, w')
    /\ trace w' = trace w ++ init_events d
                  ++ EpciRd32 REG_BAR (REG_BASE + REG_FCLK) (to_u32 (reg_fclk d))
                  :: EpciWr32 REG_BAR (REG_BASE + REG_CTL)
                       (Z.lor CTL_START (to_u32 (reg_fclk d) / Cmd.irq_fgen (cmd (w_arg w))))
                  :: el ++ tail
    /\ Forall loop_event el
    /\ ((exists err, r = Returned err /\ tail = disarm_events)
        \/ ((r = Crashed \/ r = Waiting) /\ tail = [])).
Proof.
  intros Ho Hm Hg Hq. rewrite (rtask_main_armed SIZE_MAX d w Ho Hm Hg Hq).
  destruct (rtask_loop _ _ _ _) as [r0 wl] eqn:L.
  destruct (rtask_loop_events _ _ _ _ _ _ L) as (el & T & F).
  destruct (loop_exit_trace r0 wl) as (tail & T' & _ & Hr).
  destruct (loop_exit (r0, wl)) as [r w'] eqn:E. cbn [fst snd] in *.
  exists r, w', el, tail. split; [reflexivity |]. split; [| split; assumption].
  rewrite T', T. cbn [trace loop_init set_arg after_events].
  rewrite <- !app_assoc. reflexivity.
Qed.

Lemma loop_event_not_perror_340 (el : list event) :
  Forall loop_event el -> ~ In (Perror 340) el.
Proof.
  intros F H. apply list_elem_of_In in H.
  rewrite Forall_forall in F. specialize (F _ H). cbn in F. discriminate.
Qed.

(** ** The start word *)

Lemma ctl_start_bit (q : Z) : Z.testbit (Z.lor CTL_START q) 31 = true.
Proof. rewrite Z.lor_spec. reflexivity. Qed.

Lemma ctl_divider (q : Z) :
  0 <= q < 2 ^ 24 -> Z.land (Z.lor CTL_START q) (2 ^ 24 - 1) = q.
Proof.
  intros Hq. rewrite Z.land_lor_distr_l.
  change (2 ^ 24 - 1) with (Z.ones 24). rewrite !Z.land_ones by lia.
  change (CTL_START mod 2 ^ 24) with 0. rewrite Z.mod_small by lia. reflexivity.
Qed.

Lemma dev_ok_opens (fclk : Z) (ks : list wake) : device_opens (dev_ok fclk ks).
Proof. unfold device_opens. cbn. auto. Qed.

Lemma dev_wrong_magic_opens : device_opens dev_wrong_magic.
Proof. unfold device_opens. cbn. auto. Qed.

(** ** Identity check *)

(** C5, as amended: when the MAGIC register does not read 0xbadcafee, the
    task reports the error of line 310 and returns -1; after the failed
    check it writes one register, CTL = 0, the disarm write of [on_error_3],
    and closes the register session and the interrupt session.  FCLK is not
    read and no start word is written. *)
Theorem identity_mismatch (SIZE_MAX : Z) (d : device) (w : world) :
  device_opens d ->
  to_u32 (reg_magic d) <> MAGIC ->
  exists w',
    rtask_main SIZE_MAX d w = (Returned (-1), w')
    /\ w_arg w' = w_arg w
    /\ trace w' = trace w ++ init_events d
                  ++ [Perror 310;
                      EpciWr32 REG_BAR (REG_BASE + REG_CTL) 0;
                      EpciClose REG_BAR;
                      UirqClose].
Proof.
  intros Ho Hm. rewrite (rtask_main_magic_mismatch SIZE_MAX d w Ho Hm).
  eexists. split; [reflexivity |]. split; reflexivity.
Qed.

Lemma identity_mismatch_witness :
  exists w',
    rtask_main UINT32_MAX dev_wrong_magic (task_world cmd_unbounded) = (Returned (-1), w')
    /\ w_arg w' = w_arg (task_world cmd_unbounded)
    /\ trace w' = trace (task_world cmd_unbounded) ++ init_events dev_wrong_magic
                  ++ [Perror 310;
                      EpciWr32 REG_BAR (REG_BASE + REG_CTL) 0;
                      EpciClose REG_BAR;
                      UirqClose].
Proof.
  apply identity_mismatch.
  - exact dev_wrong_magic_opens.
  - discriminate.
Defined.

(** C5, as stated, fails: with the magic number 0x12345678 a register is
    written after the failed check, CTL = 0. *)
Lemma identity_mismatch_writes_ctl :
  exists w' before after,
    rtask_main UINT32_MAX dev_wrong_magic (task_world cmd_unbounded) = (Returned (-1), w')
    /\ trace w' = before ++ EpciRd32 REG_BAR (REG_BASE + REG_MAGIC) 0x12345678 :: after
    /\ In (EpciWr32 REG_BAR (REG_BASE + REG_CTL) 0) after.
Proof.
  assert (Hm : to_u32 (reg_magic dev_wrong_magic) <> MAGIC) by discriminate.
  rewrite (rtask_main_magic_mismatch UINT32_MAX dev_wrong_magic (task_world cmd_unbounded)
             dev_wrong_magic_opens Hm).
  eexists. exists (removelast (init_events dev_wrong_magic)). eexists.
  split; [reflexivity |]. split; [reflexivity |]. cbn. auto.
Qed.

(** ** Frequency divider *)

(** X22: for every clock FCLK and every requested frequency other than 0,
    with q = FCLK / frequency, the task fails at the divider test (error of
    line 340, result -1) if and only if q = 0, and then the only write is
    the disarm write CTL = 0; otherwise it writes CTL = 2^31 | q, whose bit
    31 is set and whose low 24 bits are q when q is below 2^24. *)
Theorem divider_underflow (SIZE_MAX : Z) (d : device) (w : world) :
  device_opens d ->
  to_u32 (reg_magic d) = MAGIC ->
  0 < Cmd.irq_fgen (cmd (w_arg w)) ->
  let q := to_u32 (reg_fclk d) / Cmd.irq_fgen (cmd (w_arg w)) in
  exists r w' evs,
    rtask_main SIZE_MAX d w = (r, w')
    /\ trace w' = trace w ++ init_events d
                  ++ EpciRd32 REG_BAR (REG_BASE + REG_FCLK) (to_u32 (reg_fclk d)) :: evs
    /\ (In (Perror 340) evs <-> q = 0)
    /\ (q = 0 -> r = Returned (-1) /\ evs = Perror 340 :: disarm_events)
    /\ (q <> 0 ->
        exists evs',
          evs = EpciWr32 REG_BAR (REG_BASE + REG_CTL) (Z.lor CTL_START q) :: evs'
          /\ Z.testbit (Z.lor CTL_START q) 31 = true
          /\ (q < 2 ^ 24 -> Z.land (Z.lor CTL_START q) (2 ^ 24 - 1) = q)).
Proof.
  intros Ho Hm Hg q.
  assert (Hg' : Cmd.irq_fgen (cmd (w_arg w)) <> 0) by lia.
  assert (Hq0 : 0 <= q).
  { apply Z.div_pos; [| lia]. apply to_u32_range. }
  destruct (Z.eq_dec q 0) as [Hq | Hq].
  - rewrite (rtask_main_underflow SIZE_MAX d w Ho Hm Hg' Hq).
    eexists _, _, _. split; [reflexivity |]. split; [reflexivity |].
    split; [split; [auto | intros _; left; reflexivity] |].
    split; [auto | contradiction].
  - destruct (rtask_main_armed_trace SIZE_MAX d w Ho Hm Hg' Hq)
      as (r & w' & el & tail & E & T & F & Htail).
    exists r, w', (EpciWr32 REG_BAR (REG_BASE + REG_CTL) (Z.lor CTL_START q) :: el ++ tail).
    split; [exact E |]. split; [exact T |]. split; [| split; [contradiction |]].
    + split; [| contradiction]. intros [H | H]; [discriminate |].
      apply in_app_or in H as [H | H].
      * exfalso. exact (loop_event_not_perror_340 el F H).
      * destruct Htail as [(err & _ & ->) | (_ & ->)]; cbn in H;
          repeat (destruct H as [H | H]; [discriminate |]); contradiction.
    + intros _. eexists. split; [reflexivity |]. split; [apply ctl_start_bit |].
      intros Hlt. apply ctl_divider. lia.
Qed.

Lemma divider_underflow_witness :
  let q := to_u32 (reg_fclk (dev_ok 1000000 [wake_sigint]))
           / Cmd.irq_fgen (cmd (w_arg (task_world (cmd_freq 1000)))) in
  exists r w' evs,
    rtask_main UINT32_MAX (dev_ok 1000000 [wake_sigint]) (task_world (cmd_freq 1000)) = (r, w')
    /\ trace w' = trace (task_world (cmd_freq 1000)) ++ init_events (dev_ok 1000000 [wake_sigint])
                  ++ EpciRd32 REG_BAR (REG_BASE + REG_FCLK)
                       (to_u32 (reg_fclk (dev_ok 1000000 [wake_sigint]))) :: evs
    /\ (In (Perror 340) evs <-> q = 0)
    /\ (q = 0 -> r = Returned (-1) /\ evs = Perror 340 :: disarm_events)
    /\ (q <> 0 ->
        exists evs',
          evs = EpciWr32 REG_BAR (REG_BASE + REG_CTL) (Z.lor CTL_START q) :: evs'
          /\ Z.testbit (Z.lor CTL_START q) 31 = true
          /\ (q < 2 ^ 24 -> Z.land (Z.lor CTL_START q) (2 ^ 24 - 1) = q)).
Proof.
  apply divider_underflow.
  - apply dev_ok_opens.
  - reflexivity.
  - reflexivity.
Defined.

(** C6: the divider field is CTL<23:0> (lines 12 and 13), but line 344
    writes [(1 << 31) | x] without a test of [x] against the field.  A clock
    of 2^24 Hz and [-freq 1] give the quotient 2^24: the task does not fail,
    and the word it writes to CTL has bit 31 set, bit 24 set and a divider
    field of 0, not the quotient. *)
Lemma divider_exceeds_24_bits :
  exists w',
    rtask_main UINT32_MAX (dev_ok 16777216 []) (task_world (cmd_freq 1)) = (Waiting, w')
    /\ trace w' = init_events (dev_ok 16777216 [])
                  ++ [EpciRd32 REG_BAR (REG_BASE + REG_FCLK) 16777216;
                      EpciWr32 REG_BAR (REG_BASE + REG_CTL) 2164260864]
    /\ 16777216 / 1 <> 0
    /\ Z.land 2164260864 (2 ^ 24 - 1) <> 16777216 / 1
    /\ Z.land 2164260864 (2 ^ 24 - 1) = 0
    /\ Z.testbit 2164260864 24 = true
    /\ Z.testbit 2164260864 31 = true.
Proof.
  assert (Hm : to_u32 (reg_magic (dev_ok 16777216 [])) = MAGIC) by reflexivity.
  assert (Hg : Cmd.irq_fgen (cmd (w_arg (task_world (cmd_freq 1)))) <> 0) by discriminate.
  assert (Hq : to_u32 (reg_fclk (dev_ok 16777216 []))
               / Cmd.irq_fgen (cmd (w_arg (task_world (cmd_freq 1)))) <> 0) by discriminate.
  rewrite (rtask_main_armed UINT32_MAX (dev_ok 16777216 []) (task_world (cmd_freq 1))
             (dev_ok_opens _ _) Hm Hg Hq).
  eexists. split; [reflexivity |]. split; [reflexivity |].
  split; [discriminate |]. split; [discriminate |]. repeat split.
Qed.

(** With [-freq 0] the division of line 337 has no defined result. *)
Lemma divider_by_zero :
  fst (rtask_main UINT32_MAX (dev_ok 1000000 []) (task_world (cmd_freq 0))) = Crashed.
Proof.
  rewrite (rtask_main_crash UINT32_MAX (dev_ok 1000000 []) (task_world (cmd_freq 0))
             (dev_ok_opens _ _) eq_refl eq_refl).
  reflexivity.
Qed.

(** ** Exit paths *)

Lemma acquired_app (tr1 tr2 : list event) :
  acquired (tr1 ++ tr2) = acquired tr1 ++ acquired tr2.
Proof.
  induction tr1 as [| e tr1 IH]; [reflexivity |].
  destruct e as [bar [] | | | | | [] | | | | | |]; cbn [app acquired]; try exact IH.
  - destruct (bar =? REG_BAR); [cbn [app]; f_equal |]; exact IH.
  - cbn [app]. f_equal. exact IH.
Qed.

Lemma released_app (tr1 tr2 : list event) :
  released (tr1 ++ tr2) = released tr1 ++ released tr2.
Proof.
  induction tr1 as [| e tr1 IH]; [reflexivity |].
  destruct e as [| bar | | | | | | | | | |]; cbn [app released]; try exact IH.
  - destruct (bar =? REG_BAR); [cbn [app]; f_equal |]; exact IH.
  - cbn [app]. f_equal. exact IH.
Qed.

Lemma loop_events_sessions (el : list event) :
  Forall loop_event el ->
  acquired el = [] /\ released el = []
  /\ ~ In (EpciOpen REG_BAR true) el.
Proof.
  induction 1 as [| e el He _ (IH1 & IH2 & IH3)]; [cbn; auto |].
  destruct e; cbn in He; try contradiction; cbn [acquired released In];
    (split; [exact IH1 |]; split; [exact IH2 |]; intros [H | H]; [discriminate | auto]).
Qed.

(** C8, as amended: on every path on which the task returns, the sessions
    it opened (interrupt session, register session) are closed in the
    reverse order of their opening; if the register session was opened, the
    last three events are the disarm write CTL = 0, the close of the register
    session and the close of the interrupt session; if it was not, there is
    no device to disarm and CTL is not written. *)
Theorem exit_paths (SIZE_MAX : Z) (d : device) (w w' : world) (err : Z) :
  rtask_main SIZE_MAX d w = (Returned err, w') ->
  exists evs,
    trace w' = trace w ++ evs
    /\ released evs = rev (acquired evs)
    /\ (In (EpciOpen REG_BAR true) evs -> exists body, evs = body ++ disarm_events)
    /\ (~ In (EpciOpen REG_BAR true) evs ->
        forall v, ~ In (EpciWr32 REG_BAR (REG_BASE + REG_CTL) v) evs).
Proof.
  intros H.
  destruct (ebm_open_ok d) eqn:H1; cycle 1.
  { unfold rtask_main, enable_ebone_slave_interrupt in H. rewrite H1 in H.
    cbn [negb Z.eqb] in H. unfold on_error_0 in H. injection H as _ <-.
    exists [EpciOpen 0 false; Perror 273].
    split; [cbn [trace emit]; rewrite <- app_assoc; reflexivity |].
    split; [reflexivity |]. cbn [In]. split; [intuition discriminate |].
    intros _ v. intuition discriminate. }
  destruct (uirq_init_ok d) eqn:H2; cycle 1.
  { unfold rtask_main, enable_ebone_slave_interrupt in H. rewrite H1, H2 in H.
    cbn [negb Z.eqb] in H. unfold on_error_0 in H. injection H as _ <-.
    eexists.
    split; [cbn [trace emit]; rewrite <- !app_assoc; reflexivity |].
    split; [reflexivity |]. cbn [In app]. split; [intuition discriminate |].
    intros _ v. intuition discriminate. }
  destruct (uirq_open_ok d) eqn:H3; cycle 1.
  { unfold rtask_main, enable_ebone_slave_interrupt in H. rewrite H1, H2, H3 in H.
    cbn [negb Z.eqb] in H. unfold on_error_1, on_error_0 in H. injection H as _ <-.
    eexists.
    split; [cbn [trace emit]; rewrite <- !app_assoc; reflexivity |].
    split; [reflexivity |]. cbn [In app]. split; [intuition discriminate |].
    intros _ v. intuition discriminate. }
  destruct (uirq_mask_ok d) eqn:H4; cycle 1.
  { unfold rtask_main, enable_ebone_slave_interrupt in H. rewrite H1, H2, H3, H4 in H.
    cbn [negb Z.eqb] in H. unfold on_error_2, on_error_1, on_error_0 in H.
    injection H as _ <-. eexists.
    split; [cbn [trace emit]; rewrite <- !app_assoc; reflexivity |].
    split; [reflexivity |]. cbn [In app]. split; [intuition discriminate |].
    intros _ v. intuition discriminate. }
  destruct (epci_open_ok d) eqn:H5; cycle 1.
  { unfold rtask_main, enable_ebone_slave_interrupt in H. rewrite H1, H2, H3, H4, H5 in H.
    cbn [negb Z.eqb] in H. unfold on_error_2, on_error_1, on_error_0 in H.
    injection H as _ <-. eexists.
    split; [cbn [trace emit set_sigint]; rewrite <- !app_assoc; reflexivity |].
    split; [reflexivity |]. cbn [In app]. split; [intuition discriminate |].
    intros _ v. intuition discriminate. }
  assert (Ho : device_opens d) by (unfold device_opens; auto).
  assert (Hin : In (EpciOpen REG_BAR true) (init_events d)) by (cbn; auto 12).
  destruct (Z.eq_dec (to_u32 (reg_magic d)) MAGIC) as [Hm | Hm]; cycle 1.
  { rewrite (rtask_main_magic_mismatch SIZE_MAX d w Ho Hm) in H. injection H as _ <-.
    exists (init_events d ++ Perror 310 :: disarm_events).
    split; [reflexivity |]. split; [reflexivity |].
    split; [intros _; exists (init_events d ++ [Perror 310]); rewrite <- app_assoc; reflexivity |].
    intros Hn. exfalso. apply Hn. apply in_or_app. left. exact Hin. }
  destruct (Z.eq_dec (Cmd.irq_fgen (cmd (w_arg w))) 0) as [Hg | Hg].
  { rewrite (rtask_main_crash SIZE_MAX d w Ho Hm Hg) in H. discriminate. }
  destruct (Z.eq_dec (to_u32 (reg_fclk d) / Cmd.irq_fgen (cmd (w_arg w))) 0) as [Hq | Hq].
  { rewrite (rtask_main_underflow SIZE_MAX d w Ho Hm Hg Hq) in H. injection H as _ <-.
    exists (init_events d
            ++ EpciRd32 REG_BAR (REG_BASE + REG_FCLK) (to_u32 (reg_fclk d))
               :: Perror 340 :: disarm_events).
    split; [reflexivity |]. split; [reflexivity |].
    split.
    - intros _.
      exists (init_events d
              ++ [EpciRd32 REG_BAR (REG_BASE + REG_FCLK) (to_u32 (reg_fclk d)); Perror 340]).
      rewrite <- app_assoc. reflexivity.
    - intros Hn. exfalso. apply Hn. apply in_or_app. left. exact Hin. }
  destruct (rtask_main_armed_trace SIZE_MAX d w Ho Hm Hg Hq)
    as (r & w2 & el & tail & E & T & F & Htail).
  rewrite E in H. injection H as -> ->.
  destruct Htail as [(err' & _ & ->) | ([Hr | Hr] & _)]; try discriminate.
  destruct (loop_events_sessions el F) as (A & R & _).
  eexists. split; [exact T |]. split.
  - change (?a :: ?b :: el ++ disarm_events) with ([a; b] ++ el ++ disarm_events).
    rewrite !released_app, !acquired_app, A, R. reflexivity.
  - split.
    + intros _. eexists (init_events d ++ _ :: _ :: el).
      rewrite <- app_assoc. reflexivity.
    + intros Hn. exfalso. apply Hn. apply in_or_app. left. exact Hin.
Qed.

Lemma exit_paths_witness :
  exists w' evs,
    rtask_main UINT32_MAX (dev_ok 1000000 [wake_sigint_idle]) (task_world (cmd_freq 1000))
    = (Returned 0, w')
    /\ trace w' = trace (task_world (cmd_freq 1000)) ++ evs
    /\ released evs = rev (acquired evs)
    /\ (In (EpciOpen REG_BAR true) evs -> exists body, evs = body ++ disarm_events)
    /\ (~ In (EpciOpen REG_BAR true) evs ->
        forall v, ~ In (EpciWr32 REG_BAR (REG_BASE + REG_CTL) v) evs).
Proof.
  eexists.
  assert (E : rtask_main UINT32_MAX (dev_ok 1000000 [wake_sigint_idle])
                (task_world (cmd_freq 1000)) = (Returned 0, _)) by reflexivity.
  destruct (exit_paths _ _ _ _ _ E) as (evs & H).
  exists evs. split; [exact E | exact H].
Defined.

(** C8, as stated, fails: when the register session cannot be opened the
    task returns without a write to CTL; it closes the interrupt session,
    the one session it holds. *)
Lemma exit_without_disarm :
  exists w',
    rtask_main UINT32_MAX dev_no_registers (task_world cmd_unbounded) = (Returned (-1), w')
    /\ trace w' = [EpciOpen 0 true; EpciRd32 0 0 0; EpciWr32 0 0 2147484160; EpciClose 0;
                   UirqInitLib true; UirqOpen true; UirqSetMask 2 1 true; SignalInstall;
                   EpciOpen REG_BAR false; Perror 301; UirqClose]
    /\ (forall v, ~ In (EpciWr32 REG_BAR (REG_BASE + REG_CTL) v) (trace w')).
Proof.
  eexists. split; [reflexivity |].
  assert (T : forall tr, tr = [EpciOpen 0 true; EpciRd32 0 0 0; EpciWr32 0 0 2147484160;
                               EpciClose 0; UirqInitLib true; UirqOpen true;
                               UirqSetMask 2 1 true; SignalInstall;
                               EpciOpen REG_BAR false; Perror 301; UirqClose] ->
                    forall v, ~ In (EpciWr32 REG_BAR (REG_BASE + REG_CTL) v) tr).
  { intros tr -> v H. cbn [In] in H. intuition discriminate. }
  split; [reflexivity |]. apply T. reflexivity.
Qed.

(** ** The histogram keeps its size *)

Lemma record_latency_length (SIZE_MAX irq_fclk x xx : Z) (a a' : rtask_arg_t) :
  record_latency SIZE_MAX irq_fclk x xx a = Some a' ->
  length (lat_hist a') = length (lat_hist a).
Proof.
  unfold record_latency. destruct (ticks_to_us _ _) as [us |]; [| discriminate].
  destruct (us <? LAT_MAX_COUNT).
  - destruct (hist_incr (lat_hist a) us) as [h |] eqn:E; [| discriminate].
    intros [= <-]. cbn [lat_hist with_hist]. eapply hist_incr_length; eassumption.
  - intros [= <-]. reflexivity.
Qed.

Lemma loop_body_length (SIZE_MAX irq_fclk : Z) (k : wake) (w w' : world) (r : status) :
  loop_body SIZE_MAX irq_fclk k w = (r, w') ->
  length (lat_hist (w_arg w')) = length (lat_hist (w_arg w)).
Proof.
  intros H.
  destruct (loop_body_cases SIZE_MAX irq_fclk k w)
    as [(_ & E) | [(_ & _ & E) | [(_ & _ & a & Ha & E) | (_ & _ & _ & E)]]];
    rewrite E in H.
  - injection H as _ <-. cbn [w_arg emit]. rewrite woken_arg. reflexivity.
  - apply skip_irq_world in H as [-> _]. rewrite woken_arg. reflexivity.
  - apply skip_irq_world in H as [-> _]. unfold sampled. cbn [w_arg set_arg].
    rewrite (record_latency_length _ _ _ _ _ _ Ha), woken_arg. reflexivity.
  - injection H as _ <-. cbn [w_arg emit reg_read_now reg_read_start reg_read snd].
    rewrite woken_arg. reflexivity.
Qed.

Lemma rtask_loop_length (SIZE_MAX irq_fclk : Z) (ks : list wake) (w w' : world) (r : status) :
  rtask_loop SIZE_MAX irq_fclk ks w = (r, w') ->
  length (lat_hist (w_arg w')) = length (lat_hist (w_arg w)).
Proof.
  revert w. induction ks as [| k ks IH]; intros w; cbn [rtask_loop].
  - intros [= _ <-]. reflexivity.
  - destruct (loop_body SIZE_MAX irq_fclk k w) as [r1 w1] eqn:E.
    pose proof (loop_body_length _ _ _ _ _ _ E) as L1.
    destruct r1; try (intros [= _ <-]; exact L1).
    intros H. rewrite (IH _ H). exact L1.
Qed.

Lemma rtask_main_length (SIZE_MAX : Z) (d : device) (w w' : world) (r : outcome) :
  rtask_main SIZE_MAX d w = (r, w') ->
  length (lat_hist (w_arg w')) = length (lat_hist (w_arg w)).
Proof.
  unfold rtask_main, enable_ebone_slave_interrupt.
  destruct (ebm_open_ok d); cbn [negb Z.eqb]; [| intros [= _ <-]; reflexivity].
  destruct (uirq_init_ok d); cbn [negb]; [| intros [= _ <-]; reflexivity].
  destruct (uirq_open_ok d); cbn [negb]; [| intros [= _ <-]; reflexivity].
  destruct (uirq_mask_ok d); cbn [negb]; [| intros [= _ <-]; reflexivity].
  destruct (epci_open_ok d); cbn [negb]; [| intros [= _ <-]; reflexivity].
  cbn [reg_read_magic reg_read reg_read_fclk].
  destruct (_ =? MAGIC); cbn [negb]; [| intros [= _ <-]; reflexivity].
  cbn [w_arg emit set_sigint].
  destruct (Cmd.irq_fgen (cmd (w_arg w)) =? 0); [intros [= _ <-]; reflexivity |].
  destruct (_ / _ =? 0); [intros [= _ <-]; reflexivity |].
  destruct (rtask_loop _ _ _ _) as [r0 wl] eqn:L.
  apply rtask_loop_length in L. cbn [loop_init w_arg set_arg lat_hist with_count with_missed
                                      reg_write_ctl reg_write emit set_sigint] in L.
  destruct r0; intros [= _ <-]; exact L.
Qed.

(** ** The report *)

Lemma bucket_middle (pre t : list Z) (c : Z) :
  bucket (pre ++ c :: t) (Z.of_nat (length pre)) = c.
Proof. unfold bucket. rewrite Nat2Z.id, list_lookup_middle; reflexivity. Qed.

Lemma report_hist_spec (t pre : list Z) :
  report_hist (length t) (Z.of_nat (length pre)) (pre ++ t)
  = map report_line (nonzero_buckets (Z.of_nat (length pre)) t).
Proof.
  revert pre. induction t as [| c t IH]; intros pre; [reflexivity |].
  cbn [length report_hist nonzero_buckets]. rewrite bucket_middle.
  specialize (IH (pre ++ [c])). rewrite <- app_assoc in IH. cbn [app] in IH.
  rewrite length_app in IH. cbn [length] in IH.
  replace (Z.of_nat (length pre + 1)) with (Z.of_nat (length pre) + 1) in IH by lia.
  rewrite IH. destruct (c =? 0); reflexivity.
Qed.

Lemma report_hist_all (h : list Z) :
  report_hist (length h) 0 h = map report_line (nonzero_buckets 0 h).
Proof. exact (report_hist_spec h []). Qed.

Lemma nonzero_buckets_In (h : list Z) (k i c : Z) :
  In (i, c) (nonzero_buckets k h)
  <-> k <= i /\ h !! Z.to_nat (i - k) = Some c /\ c <> 0.
Proof.
  revert k. induction h as [| a h IH]; intros k; cbn [nonzero_buckets].
  - split; [contradiction |]. intros (_ & H & _). discriminate.
  - assert (Hrest : In (i, c) (nonzero_buckets (k + 1) h)
                    <-> k < i /\ (a :: h) !! Z.to_nat (i - k) = Some c /\ c <> 0).
    { rewrite IH. split.
      - intros (H1 & H2 & H3). split; [lia |]. split; [| exact H3].
        replace (Z.to_nat (i - k)) with (S (Z.to_nat (i - (k + 1)))) by lia. exact H2.
      - intros (H1 & H2 & H3). split; [lia |]. split; [| exact H3].
        replace (Z.to_nat (i - k)) with (S (Z.to_nat (i - (k + 1)))) in H2 by lia. exact H2. }
    destruct (Z.eqb_spec a 0) as [Ha | Ha].
    + rewrite Hrest. split.
      * intros (H1 & H2 & H3). split; [lia | auto].
      * intros (H1 & H2 & H3). destruct (Z.eq_dec i k) as [-> | Hne]; [| split; [lia | auto]].
        exfalso. rewrite Z.sub_diag in H2. change (Z.to_nat 0) with 0%nat in H2.
        cbn in H2. congruence.
    + cbn [In]. rewrite Hrest. split.
      * intros [[= <- <-] | (H1 & H2 & H3)].
        -- rewrite Z.sub_diag. change (Z.to_nat 0) with 0%nat.
           split; [lia |]. split; [reflexivity | assumption].
        -- split; [lia | auto].
      * intros (H1 & H2 & H3). destruct (Z.eq_dec i k) as [-> | Hne].
        -- rewrite Z.sub_diag in H2. change (Z.to_nat 0) with 0%nat in H2.
           cbn in H2. left. congruence.
        -- right. split; [lia | auto].
Qed.

Lemma nonzero_buckets_lower (h : list Z) (k : Z) :
  Forall (fun ic => k <= fst ic) (nonzero_buckets k h).
Proof.
  revert k. induction h as [| a h IH]; intros k; cbn [nonzero_buckets]; [constructor |].
  assert (H : Forall (fun ic => k <= fst ic) (nonzero_buckets (k + 1) h)).
  { eapply Forall_impl; [apply IH |]. cbn. intros; lia. }
  destruct (a =? 0); [exact H |]. constructor; [cbn; lia | exact H].
Qed.

(** The offsets of the report increase strictly. *)
Lemma nonzero_buckets_sorted (h : list Z) (k : Z) :
  StronglySorted (fun a b => fst a < fst b) (nonzero_buckets k h).
Proof.
  revert k. induction h as [| a h IH]; intros k; cbn [nonzero_buckets]; [constructor |].
  destruct (a =? 0); [apply IH |]. constructor; [apply IH |].
  eapply Forall_impl; [apply (nonzero_buckets_lower h (k + 1)) |]. cbn. intros; lia.
Qed.

Lemma report_line_format (ic : Z * Z) :
  report_line ic = pretty (fst ic) +:+ " " +:+ pretty (snd ic) +:+ newline.
Proof. unfold report_line, bucket_line, LAT_RES_US. rewrite Z.mul_1_r. reflexivity. Qed.

(** C10: when the task has returned, with success or with failure, [main]
    exits with the task's result as its code; after the error lines the
    task may have printed, its output is the line [# irq_count : n], the
    line [# irq_missed: n] and, for each nonzero bucket of the histogram as
    the task left it, offsets ascending, one line made of the offset, a
    space, the count and a line feed, both numbers in decimal. *)
Theorem report_on_termination (SIZE_MAX : Z) (strtoul : string -> Z -> Z) (p : process)
    (c : Cmd.cmdline_t) (err : Z) (w : world) :
  get_cmdline strtoul (av p) = Some c ->
  malloc_ok p = true ->
  rtask_entry SIZE_MAX p (main_world SIZE_MAX p c) = (Returned err, w) ->
  main SIZE_MAX strtoul p
  = Exited err
      (diagnostics (trace w)
       ++ ("# irq_count : " +:+ pretty (irq_count (w_arg w)) +:+ newline)
       :: ("# irq_missed: " +:+ pretty (irq_missed (w_arg w)) +:+ newline)
       :: map (fun ic => pretty (fst ic) +:+ " " +:+ pretty (snd ic) +:+ newline)
            (nonzero_buckets 0 (lat_hist (w_arg w))))
  /\ StronglySorted (fun a b => fst a < fst b) (nonzero_buckets 0 (lat_hist (w_arg w)))
  /\ (forall i n, In (i, n) (nonzero_buckets 0 (lat_hist (w_arg w)))
                  <-> 0 <= i < LAT_MAX_COUNT /\ bucket (lat_hist (w_arg w)) i = n /\ n <> 0).
Proof.
  intros Hc Hm Ht.
  assert (Hlen : length (lat_hist (w_arg w)) = Z.to_nat LAT_MAX_COUNT).
  { unfold rtask_entry in Ht. destruct (sched_ok p).
    - rewrite (rtask_main_length _ _ _ _ _ Ht). apply length_replicate.
    - injection Ht as _ <-. apply length_replicate. }
  split; [| split].
  - unfold main. rewrite Hc, Hm. cbn [negb]. rewrite Ht. unfold report.
    rewrite <- Hlen, report_hist_all, (map_ext _ _ report_line_format). reflexivity.
  - apply nonzero_buckets_sorted.
  - intros i n. rewrite nonzero_buckets_In, Z.sub_0_r. unfold bucket. split.
    + intros (H1 & H2 & H3). apply lookup_lt_Some in H2 as Hlt. rewrite Hlen in Hlt.
      rewrite H2. split; [lia | auto].
    + intros (H1 & H2 & H3).
      destruct (lookup_lt_is_Some_2 (lat_hist (w_arg w)) (Z.to_nat i)) as [v Hv];
        [rewrite Hlen; lia |].
      rewrite Hv in H2 |- *. cbn in H2. subst v. split; [lia | auto].
Qed.

(** A run that fails after one sample: the sample is in the report, after
    the error line of the failed wait. *)
Lemma report_on_termination_witness :
  exists w,
    rtask_entry UINT32_MAX failing_process (main_world UINT32_MAX failing_process cmd_unbounded)
    = (Returned (-1), w)
    /\ bucket (lat_hist (w_arg w)) 500000 = 1
    /\ main UINT32_MAX strtoul_0 failing_process
       = Exited (-1)
           ["[!] main.c,352" +:+ String "010" "";
            "# irq_count : 1" +:+ String "010" "";
            "# irq_missed: 0" +:+ String "010" "";
            "500000 1" +:+ String "010" ""]
    /\ StronglySorted (fun a b => fst a < fst b) (nonzero_buckets 0 (lat_hist (w_arg w)))
    /\ (forall i n, In (i, n) (nonzero_buckets 0 (lat_hist (w_arg w)))
                    <-> 0 <= i < LAT_MAX_COUNT /\ bucket (lat_hist (w_arg w)) i = n /\ n <> 0).
Proof.
  set (r := rtask_entry UINT32_MAX failing_process
              (main_world UINT32_MAX failing_process cmd_unbounded)).
  assert (Hf : fst r = Returned (-1)) by (vm_compute; reflexivity).
  assert (Hr : r = (Returned (-1), snd r)) by (rewrite <- Hf; apply surjective_pairing).
  exists (snd r). split; [exact Hr |].
  split; [vm_compute; reflexivity |].
  pose proof (report_on_termination UINT32_MAX strtoul_0 failing_process cmd_unbounded
                (-1) (snd r) eq_refl eq_refl Hr) as (Hmain & Hsorted & Hin).
  split; [| split; [exact Hsorted | exact Hin]].
  rewrite Hmain. apply (f_equal (Exited (-1))). vm_compute. reflexivity.
Defined.


(** * Further properties *)

(** ** Command line *)

Lemma pairs_ind (P : list string -> Prop) :
  P [] -> (forall x, P [x]) -> (forall o v av, P av -> P (o :: v :: av)) ->
  forall av, P av.
Proof.
  intros H0 H1 H2 av.
  assert (H : P av /\ forall x, P (x :: av)); [| exact (proj1 H)].
  induction av as [| a av [IH1 IH2]]; [auto |].
  split; [apply IH2 |]. intros x. apply H2. exact IH1.
Qed.

Lemma get_num_range (strtoul : string -> Z -> Z) (s : string) :
  0 <= get_num strtoul s <= UINT32_MAX.
Proof. unfold get_num. apply to_u32_range. Qed.

Lemma get_cmdline_pairs_range (strtoul : string -> Z -> Z) (av : list string) :
  forall c c',
    0 <= Cmd.irq_fgen c <= UINT32_MAX -> 0 <= Cmd.irq_count c <= UINT32_MAX ->
    get_cmdline_pairs strtoul av c = Some c' ->
    0 <= Cmd.irq_fgen c' <= UINT32_MAX /\ 0 <= Cmd.irq_count c' <= UINT32_MAX.
Proof.
  induction av as [| x | o v av IH] using pairs_ind; intros c c' Hf Hc; cbn [get_cmdline_pairs].
  - intros [= <-]. auto.
  - discriminate.
  - destruct (String.eqb o "-freq").
    + apply IH; cbn [Cmd.irq_fgen Cmd.irq_count]; [apply get_num_range | exact Hc].
    + destruct (String.eqb o "-count"); [| discriminate].
      apply IH; cbn [Cmd.irq_fgen Cmd.irq_count]; [exact Hf | apply get_num_range].
Qed.

Lemma length_even (av : list string) :
  Z.odd (Z.of_nat (length av)) = false <-> exists n : nat, length av = (2 * n)%nat.
Proof.
  rewrite <- Z.negb_even, Bool.negb_false_iff, Z.even_spec. split.
  - intros [m Hm]. exists (Z.to_nat m). lia.
  - intros [n Hn]. exists (Z.of_nat n). lia.
Qed.

(** X1: whatever [strtoul] returns, a command line that is accepted gives a
    frequency and a count that fit 32 bits. *)
Theorem get_cmdline_range (strtoul : string -> Z -> Z) (av : list string)
    (c : Cmd.cmdline_t) :
  get_cmdline strtoul av = Some c ->
  0 <= Cmd.irq_fgen c <= UINT32_MAX /\ 0 <= Cmd.irq_count c <= UINT32_MAX.
Proof.
  unfold get_cmdline. destruct (Z.odd _); [discriminate |].
  apply get_cmdline_pairs_range; cbn [Cmd.irq_fgen Cmd.irq_count]; unfold UINT32_MAX; lia.
Qed.

Lemma get_cmdline_range_witness :
  0 <= Cmd.irq_fgen {| Cmd.irq_fgen := 4; Cmd.irq_count := 2 |} <= UINT32_MAX
  /\ 0 <= Cmd.irq_count {| Cmd.irq_fgen := 4; Cmd.irq_count := 2 |} <= UINT32_MAX.
Proof.
  apply (get_cmdline_range strtoul_length ["-count"; "10"; "-freq"; "0x10"]).
  reflexivity.
Defined.

Lemma get_cmdline_pairs_known (strtoul : string -> Z -> Z) (av : list string) :
  forall c,
    (exists n : nat, length av = (2 * n)%nat) ->
    (is_Some (get_cmdline_pairs strtoul av c)
     <-> forall (i : nat) (o : string), av !! (2 * i)%nat = Some o -> known_option o).
Proof.
  induction av as [| x | o v av IH] using pairs_ind; intros c [n Hn]; cbn [get_cmdline_pairs].
  - split; [intros _ i o H; discriminate H | eauto].
  - cbn [length] in Hn. lia.
  - assert (Hev : exists m : nat, length av = (2 * m)%nat).
    { exists (n - 1)%nat. cbn [length] in Hn. lia. }
    assert (Hlk : (forall (i : nat) (o' : string),
                      (o :: v :: av) !! (2 * i)%nat = Some o' -> known_option o')
                  <-> known_option o
                      /\ forall (i : nat) (o' : string),
                           av !! (2 * i)%nat = Some o' -> known_option o').
    { split.
      - intros H. split; [apply (H 0%nat); reflexivity |].
        intros i o' Hi. apply (H (S i)).
        replace (2 * S i)%nat with (S (S (2 * i))) by lia. exact Hi.
      - intros [Ho H] [| i] o' Hi.
        + injection Hi as <-. exact Ho.
        + replace (2 * S i)%nat with (S (S (2 * i))) in Hi by lia. apply (H i). exact Hi. }
    rewrite Hlk. unfold known_option at 1.
    destruct (String.eqb_spec o "-freq") as [-> | Hf].
    + rewrite (IH _ Hev). split; [auto | intros [_ H]; exact H].
    + destruct (String.eqb_spec o "-count") as [-> | Hc].
      * rewrite (IH _ Hev). split; [auto | intros [_ H]; exact H].
      * split; [intros [x Hx]; discriminate | intros [[? | ?] _]; contradiction].
Qed.

(** X2: a command line is accepted if and only if the number of its
    arguments is even and every argument at an even position is [-freq] or
    [-count]; the values, at the odd positions, are not looked at. *)
Theorem get_cmdline_accepts (strtoul : string -> Z -> Z) (av : list string) :
  is_Some (get_cmdline strtoul av)
  <-> (exists n : nat, length av = (2 * n)%nat)
      /\ forall (i : nat) (o : string), av !! (2 * i)%nat = Some o -> known_option o.
Proof.
  unfold get_cmdline. destruct (Z.odd _) eqn:E.
  - split; [intros [x Hx]; discriminate |]. intros [Hev _].
    apply length_even in Hev. congruence.
  - apply length_even in E. rewrite (get_cmdline_pairs_known strtoul av _ E). tauto.
Qed.

Lemma get_cmdline_pairs_app (strtoul : string -> Z -> Z) (pre suf : list string) :
  forall c,
    (exists n : nat, length pre = (2 * n)%nat) ->
    get_cmdline_pairs strtoul (pre ++ suf) c
    = match get_cmdline_pairs strtoul pre c with
      | Some c1 => get_cmdline_pairs strtoul suf c1
      | None => None
      end.
Proof.
  induction pre as [| x | o v pre IH] using pairs_ind; intros c [n Hn].
  - reflexivity.
  - cbn [length] in Hn. lia.
  - assert (Hev : exists m : nat, length pre = (2 * m)%nat).
    { exists (n - 1)%nat. cbn [length] in Hn. lia. }
    cbn [app get_cmdline_pairs].
    destruct (String.eqb o "-freq"); [apply IH; exact Hev |].
    destruct (String.eqb o "-count"); [apply IH; exact Hev | reflexivity].
Qed.

(** X3: options are taken from left to right and a later one replaces an
    earlier one: appending [-freq v] or [-count v] to an accepted command
    line sets that field to the number read from [v] and keeps the other. *)
Theorem get_cmdline_last_wins (strtoul : string -> Z -> Z) (av : list string)
    (c : Cmd.cmdline_t) (v : string) :
  get_cmdline strtoul av = Some c ->
  get_cmdline strtoul (av ++ ["-freq"; v])
  = Some {| Cmd.irq_fgen := get_num strtoul v; Cmd.irq_count := Cmd.irq_count c |}
  /\ get_cmdline strtoul (av ++ ["-count"; v])
     = Some {| Cmd.irq_fgen := Cmd.irq_fgen c; Cmd.irq_count := get_num strtoul v |}.
Proof.
  unfold get_cmdline. destruct (Z.odd (Z.of_nat (length av))) eqn:E; [discriminate |].
  intros H. apply length_even in E as Hev.
  assert (E2 : forall o, Z.odd (Z.of_nat (length (av ++ [o; v]))) = false).
  { intros o. apply length_even. destruct Hev as [n Hn]. exists (S n).
    rewrite length_app. cbn [length]. lia. }
  rewrite !E2, !(get_cmdline_pairs_app strtoul av _ _ Hev), H. split; reflexivity.
Qed.

Lemma get_cmdline_last_wins_witness :
  get_cmdline strtoul_length (["-freq"; "1000"; "-count"; "12345"] ++ ["-freq"; "50"])
  = Some {| Cmd.irq_fgen := get_num strtoul_length "50";
            Cmd.irq_count := Cmd.irq_count {| Cmd.irq_fgen := 4; Cmd.irq_count := 5 |} |}
  /\ get_cmdline strtoul_length (["-freq"; "1000"; "-count"; "12345"] ++ ["-count"; "50"])
     = Some {| Cmd.irq_fgen := Cmd.irq_fgen {| Cmd.irq_fgen := 4; Cmd.irq_count := 5 |};
               Cmd.irq_count := get_num strtoul_length "50" |}.
Proof. apply get_cmdline_last_wins. reflexivity. Defined.

(** ** The interrupt enable of the bridge *)

Lemma lor_u32_range (a b : Z) :
  0 <= a <= UINT32_MAX -> 0 <= b <= UINT32_MAX -> 0 <= Z.lor a b <= UINT32_MAX.
Proof.
  unfold UINT32_MAX. intros Ha Hb.
  assert (H0 : 0 <= Z.lor a b) by (apply Z.lor_nonneg; lia).
  split; [exact H0 |].
  destruct (Z.eq_dec (Z.lor a b) 0) as [-> | Hne]; [lia |].
  assert (Hlt : Z.lor a b < 2 ^ 32); [| lia].
  apply Z.log2_lt_pow2; [lia |]. rewrite Z.log2_lor by lia.
  destruct (Z.eq_dec a 0) as [-> | Ha0]; destruct (Z.eq_dec b 0) as [-> | Hb0].
  - cbn. lia.
  - rewrite Z.max_r by (cbn; apply Z.log2_nonneg). apply Z.log2_lt_pow2; lia.
  - rewrite Z.max_l by (cbn; apply Z.log2_nonneg). apply Z.log2_lt_pow2; lia.
  - apply Z.max_lub_lt; apply Z.log2_lt_pow2; lia.
Qed.

(** X4: [enable_ebone_slave_interrupt] is a read-modify-write of control
    register 0 of BAR 0: the word written has bits 31 and 9 set, every other
    bit as it was read, and still fits 32 bits; the session is closed before
    the function returns 0.  When the session cannot be opened the function
    returns -1 and the register is neither read nor written. *)
Theorem enable_ebone_slave_interrupt_bits (d : device) (w : world) :
  exists x y,
    x = to_u32 (ebm_ctl0 d)
    /\ 0 <= y <= UINT32_MAX
    /\ (forall i, 0 <= i -> Z.testbit y i = Z.testbit x i || (i =? 31) || (i =? 9))
    /\ enable_ebone_slave_interrupt d w
       = if ebm_open_ok d
         then (0, after_events_keep
                    [EpciOpen 0 true; EpciRd32 0 0 x; EpciWr32 0 0 y; EpciClose 0] w)
         else (-1, after_events_keep [EpciOpen 0 false] w).
Proof.
  exists (to_u32 (ebm_ctl0 d)), (Z.lor (to_u32 (ebm_ctl0 d)) (Z.lor CTL_START 512)).
  split; [reflexivity |]. split.
  { apply lor_u32_range; [apply to_u32_range |].
    change (Z.lor CTL_START 512) with 2147484160. unfold UINT32_MAX. lia. }
  split.
  { intros i Hi. rewrite !Z.lor_spec, <- Bool.orb_assoc. f_equal.
    change CTL_START with (2 ^ 31). change 512 with (2 ^ 9).
    rewrite !Z.pow2_bits_eqb by lia. rewrite (Z.eqb_sym 31 i), (Z.eqb_sym 9 i). reflexivity. }
  unfold enable_ebone_slave_interrupt. destruct (ebm_open_ok d); cbn [negb]; f_equal.
  apply world_eq; cbn [w_arg is_sigint trace emit after_events_keep];
    rewrite <- ?app_assoc; reflexivity.
Qed.

(** ** Passes of the loop *)

Lemma record_latency_frame (SIZE_MAX irq_fclk x xx : Z) (a a' : rtask_arg_t) :
  record_latency SIZE_MAX irq_fclk x xx a = Some a' ->
  cmd a' = cmd a /\ irq_count a' = irq_count a.
Proof.
  unfold record_latency. destruct (ticks_to_us _ _) as [us |]; [| discriminate].
  destruct (us <? LAT_MAX_COUNT).
  - destruct (hist_incr (lat_hist a) us); [| discriminate]. intros [= <-]. auto.
  - intros [= <-]. auto.
Qed.

(** What a pass leaves as it was and what it adds to the trace. *)
Lemma loop_body_frame (SIZE_MAX irq_fclk : Z) (k : wake) (w w1 : world) (r : status) :
  loop_body SIZE_MAX irq_fclk k w = (r, w1) ->
  trace w1 = trace w ++ pass_events k
  /\ cmd (w_arg w1) = cmd (w_arg w)
  /\ irq_count (w_arg w1) = irq_count (w_arg w)
  /\ is_sigint w1 = (if wk_sigint k then 1 else is_sigint w)
  /\ (r = WaitError <-> wk_ret k = -1).
Proof.
  intros H. unfold pass_events.
  destruct (loop_body_cases SIZE_MAX irq_fclk k w)
    as [(Hr & E) | [(Hr & Hm & E) | [(Hr & Hm & a & Ha & E) | (Hr & Hm & Ha & E)]]];
    rewrite E in H; clear E.
  - injection H as <- <-. rewrite Hr. cbn [Z.eqb Pos.eqb trace emit w_arg is_sigint].
    rewrite woken_trace, woken_arg, woken_sigint, <- app_assoc. tauto.
  - apply skip_irq_world in H as [-> Hs].
    destruct (Z.eqb_spec (wk_ret k) (-1)); [contradiction |]. rewrite Hm. cbn [Z.eqb].
    rewrite woken_trace, woken_arg, woken_sigint, app_nil_r.
    repeat split; try reflexivity; [intros -> | contradiction].
    destruct Hs; discriminate.
  - apply skip_irq_world in H as [-> Hs].
    destruct (Z.eqb_spec (wk_ret k) (-1)); [contradiction |].
    destruct (Z.eqb_spec (to_u32 (wk_mask k)) 0); [contradiction |].
    rewrite sampled_trace, woken_trace, <- app_assoc. rewrite woken_arg in Ha.
    destruct (record_latency_frame _ _ _ _ _ _ Ha) as [F1 F2].
    unfold sampled. cbn [w_arg set_arg is_sigint reg_read_now reg_read_start reg_read snd emit].
    rewrite woken_sigint.
    repeat split; try assumption; try reflexivity; [intros -> | contradiction].
    destruct Hs; discriminate.
  - injection H as <- <-.
    destruct (Z.eqb_spec (wk_ret k) (-1)); [contradiction |].
    destruct (Z.eqb_spec (to_u32 (wk_mask k)) 0); [contradiction |].
    cbn [trace w_arg is_sigint reg_read_now reg_read_start reg_read snd emit].
    rewrite woken_trace, woken_arg, woken_sigint, <- !app_assoc.
    repeat split; try reflexivity; [discriminate | contradiction].
Qed.

(** X5: the trace of the loop is the concatenation of the events of the
    passes it made, one per wake, in the order of the wakes: a wait, then,
    for a wake with a nonzero mask, the read of START followed by the read
    of NOW.  A loop that is still running has used every wake; a loop that
    has ended made at least one pass. *)
Theorem rtask_loop_passes (SIZE_MAX irq_fclk : Z) (ks : list wake) (w w' : world)
    (r : status) :
  rtask_loop SIZE_MAX irq_fclk ks w = (r, w') ->
  exists n : nat,
    (n <= length ks)%nat
    /\ trace w' = trace w ++ concat (map pass_events (take n ks))
    /\ (r = Continue -> n = length ks)
    /\ (r <> Continue -> (0 < n)%nat).
Proof.
  revert w. induction ks as [| k ks IH]; intros w; cbn [rtask_loop].
  - intros [= <- <-]. exists 0%nat. cbn. rewrite app_nil_r.
    split; [lia |]. split; [reflexivity |]. split; [reflexivity | congruence].
  - destruct (loop_body SIZE_MAX irq_fclk k w) as [r1 w1] eqn:E.
    destruct (loop_body_frame _ _ _ _ _ _ E) as (T & _).
    assert (Hone : r1 <> Continue -> (r1, w1) = (r, w') ->
                   exists n : nat,
                     (n <= length (k :: ks))%nat
                     /\ trace w' = trace w ++ concat (map pass_events (take n (k :: ks)))
                     /\ (r = Continue -> n = length (k :: ks))
                     /\ (r <> Continue -> (0 < n)%nat)).
    { intros Hne [= <- <-]. exists 1%nat. cbn [length take map concat].
      rewrite take_0. cbn [map concat]. rewrite app_nil_r.
      split; [lia |]. split; [exact T |]. split; [contradiction | lia]. }
    destruct r1; try (apply Hone; discriminate).
    intros H. destruct (IH _ H) as (n & Hn & T2 & Hc & Hx).
    exists (S n). cbn [length take map concat]. split; [lia |].
    split; [| split; [intros Hr; rewrite (Hc Hr); reflexivity | lia]].
    rewrite T2. cbn [trace next_irq set_arg]. rewrite T, <- app_assoc. reflexivity.
Qed.

Lemma rtask_loop_passes_witness :
  exists n : nat,
    (n <= length [wake_0; wake_idle; wake_sigint; wake_0])%nat
    /\ trace (snd (rtask_loop UINT32_MAX 1000000 [wake_0; wake_idle; wake_sigint; wake_0]
                     (loop_world cmd_unbounded)))
       = trace (loop_world cmd_unbounded)
         ++ concat (map pass_events (take n [wake_0; wake_idle; wake_sigint; wake_0]))
    /\ (fst (rtask_loop UINT32_MAX 1000000 [wake_0; wake_idle; wake_sigint; wake_0]
               (loop_world cmd_unbounded)) = Continue ->
        n = length [wake_0; wake_idle; wake_sigint; wake_0])
    /\ (fst (rtask_loop UINT32_MAX 1000000 [wake_0; wake_idle; wake_sigint; wake_0]
               (loop_world cmd_unbounded)) <> Continue -> (0 < n)%nat).
Proof.
  apply (rtask_loop_passes UINT32_MAX 1000000 [wake_0; wake_idle; wake_sigint; wake_0]
           (loop_world cmd_unbounded)).
  apply surjective_pairing.
Defined.

Lemma pass_events_waits (k : wake) : count_events is_wait (pass_events k) = 1.
Proof.
  unfold pass_events, wait_events.
  destruct (wk_sigint k), (wk_ret k =? -1), (to_u32 (wk_mask k) =? 0); reflexivity.
Qed.

Lemma rtask_loop_count (SIZE_MAX irq_fclk : Z) (ks : list wake) :
  forall (w w' : world) (r : status),
    rtask_loop SIZE_MAX irq_fclk ks w = (r, w') ->
    0 <= irq_count (w_arg w) ->
    exists evs,
      trace w' = trace w ++ evs
      /\ 0 <= count_events is_wait evs
      /\ (irq_count (w_arg w) + count_events is_wait evs <= SIZE_MAX ->
          irq_count (w_arg w')
          = irq_count (w_arg w) + count_events is_wait evs
            - (match r with Continue => 0 | _ => 1 end)).
Proof.
  induction ks as [| k ks IH]; intros w w' r; cbn [rtask_loop].
  - intros [= <- <-] H0. exists []. rewrite app_nil_r. cbn. split; [reflexivity |]. lia.
  - destruct (loop_body SIZE_MAX irq_fclk k w) as [r1 w1] eqn:E. intros H H0.
    destruct (loop_body_frame _ _ _ _ _ _ E) as (T & _ & C & _).
    pose proof (pass_events_waits k) as Hw.
    assert (Hone : r1 <> Continue -> (r1, w1) = (r, w') ->
                   exists evs,
                     trace w' = trace w ++ evs
                     /\ 0 <= count_events is_wait evs
                     /\ (irq_count (w_arg w) + count_events is_wait evs <= SIZE_MAX ->
                         irq_count (w_arg w')
                         = irq_count (w_arg w) + count_events is_wait evs
                           - (match r with Continue => 0 | _ => 1 end))).
    { intros Hne [= <- <-]. exists (pass_events k). rewrite Hw.
      split; [exact T |]. split; [lia |]. intros _. rewrite C. destruct r1; [contradiction | lia..]. }
    destruct r1; try (apply Hone; [discriminate | exact H]).
    destruct (rtask_loop_events _ _ _ _ _ _ H) as (e2 & T2 & _).
    pose proof (count_events_nonneg is_wait e2) as Hn2.
    exists (pass_events k ++ e2). cbn [trace next_irq set_arg] in T2.
    rewrite T2, T, <- app_assoc, count_events_app, Hw.
    split; [reflexivity |]. split; [lia |]. intros Hb.
    assert (Enext : irq_count (w_arg (next_irq SIZE_MAX w1)) = irq_count (w_arg w) + 1).
    { cbn [next_irq w_arg set_arg irq_count with_count]. rewrite C.
      unfold to_size. apply Z.mod_small. lia. }
    destruct (IH _ _ _ H) as (e2' & T2' & _ & C2); [rewrite Enext; lia |].
    cbn [trace next_irq set_arg] in T2'. rewrite T2 in T2'.
    apply app_inv_head in T2'. subst e2'. rewrite C2, Enext by (rewrite Enext; lia). lia.
Qed.

(** X6: [irq_count] counts the passes of the [for] loop that were followed
    by another one, whatever the mask was.  From the head of the loop, as long
    as the counter does not wrap: while the loop runs, [irq_count] is the
    number of calls of [uirq_wait]; once it has ended, by [break], by the
    failure of the wait or by a fault, it is that number less one. *)
Theorem irq_count_counts_passes (SIZE_MAX irq_fclk : Z) (ks : list wake) (w w' : world)
    (r : status) :
  rtask_loop SIZE_MAX irq_fclk ks (loop_init w) = (r, w') ->
  exists evs,
    trace w' = trace w ++ evs
    /\ (count_events is_wait evs <= SIZE_MAX ->
        irq_count (w_arg w')
        = count_events is_wait evs - (match r with Continue => 0 | _ => 1 end)).
Proof.
  intros H.
  destruct (rtask_loop_count _ _ _ _ _ _ H) as (evs & T & _ & C); [cbn; lia |].
  exists evs. split; [exact T |]. intros Hb. rewrite C by (cbn; lia). cbn. lia.
Qed.

Lemma irq_count_counts_passes_witness :
  exists evs,
    trace (snd (rtask_loop UINT32_MAX 1000000 [wake_idle; wake_0; wake_sigint_idle]
                  (loop_init (task_world cmd_unbounded))))
    = trace (task_world cmd_unbounded) ++ evs
    /\ (count_events is_wait evs <= UINT32_MAX ->
        irq_count (w_arg (snd (rtask_loop UINT32_MAX 1000000
                                 [wake_idle; wake_0; wake_sigint_idle]
                                 (loop_init (task_world cmd_unbounded)))))
        = count_events is_wait evs
          - (match fst (rtask_loop UINT32_MAX 1000000 [wake_idle; wake_0; wake_sigint_idle]
                          (loop_init (task_world cmd_unbounded)))
             with Continue => 0 | _ => 1 end)).
Proof.
  apply (irq_count_counts_passes UINT32_MAX 1000000 [wake_idle; wake_0; wake_sigint_idle]
           (task_world cmd_unbounded)).
  apply surjective_pairing.
Defined.

(** ** No undefined operation *)

Lemma rtask_loop_no_fault (SIZE_MAX irq_fclk : Z) (ks : list wake) :
  forall (w w' : world) (r : status),
    irq_fclk <> 0 ->
    length (lat_hist (w_arg w)) = Z.to_nat LAT_MAX_COUNT ->
    rtask_loop SIZE_MAX irq_fclk ks w = (r, w') ->
    r <> Fault.
Proof.
  induction ks as [| k ks IH]; intros w w' r Hf Hlen; cbn [rtask_loop].
  - intros [= <- _]. discriminate.
  - destruct (loop_body SIZE_MAX irq_fclk k w) as [r1 w1] eqn:E.
    assert (Hr1 : r1 <> Fault).
    { destruct (loop_body_cases SIZE_MAX irq_fclk k w)
        as [(_ & E') | [(_ & _ & E') | [(_ & _ & a & _ & E') | (_ & _ & Ha & _)]]].
      - rewrite E' in E. injection E as <- _. discriminate.
      - rewrite E' in E. apply skip_irq_world in E as [_ [-> | ->]]; discriminate.
      - rewrite E' in E. apply skip_irq_world in E as [_ [-> | ->]]; discriminate.
      - rewrite woken_arg in Ha.
        destruct (record_latency_is_Some SIZE_MAX irq_fclk (to_u32 (wk_start k))
                    (to_u32 (wk_now k)) (w_arg w) Hf Hlen) as [a Ha'].
        rewrite Ha in Ha'. discriminate. }
    pose proof (loop_body_length _ _ _ _ _ _ E) as L1.
    destruct r1; try (intros [= <- _]; exact Hr1).
    apply IH; [exact Hf |].
    cbn [next_irq w_arg set_arg lat_hist with_count]. rewrite L1. exact Hlen.
Qed.

(** X7: with a histogram of [LAT_MAX_COUNT] counters and a frequency other
    than 0, the task performs no undefined operation: it divides by no zero,
    the guard of line 374 keeps every store inside the array, and the array
    keeps its size. *)
Theorem rtask_main_defined (SIZE_MAX : Z) (d : device) (w w' : world) (r : outcome) :
  length (lat_hist (w_arg w)) = Z.to_nat LAT_MAX_COUNT ->
  Cmd.irq_fgen (cmd (w_arg w)) <> 0 ->
  rtask_main SIZE_MAX d w = (r, w') ->
  r <> Crashed /\ length (lat_hist (w_arg w')) = Z.to_nat LAT_MAX_COUNT.
Proof.
  intros Hlen Hg H. split; [| rewrite (rtask_main_length _ _ _ _ _ H); exact Hlen].
  revert H. unfold rtask_main, enable_ebone_slave_interrupt.
  destruct (ebm_open_ok d); cbn [negb Z.eqb]; [| intros [= <- _]; discriminate].
  destruct (uirq_init_ok d); cbn [negb]; [| intros [= <- _]; discriminate].
  destruct (uirq_open_ok d); cbn [negb]; [| intros [= <- _]; discriminate].
  destruct (uirq_mask_ok d); cbn [negb]; [| intros [= <- _]; discriminate].
  destruct (epci_open_ok d); cbn [negb]; [| intros [= <- _]; discriminate].
  cbn [reg_read_magic reg_read reg_read_fclk].
  destruct (_ =? MAGIC); cbn [negb]; [| intros [= <- _]; discriminate].
  cbn [w_arg emit set_sigint].
  destruct (Z.eqb_spec (Cmd.irq_fgen (cmd (w_arg w))) 0) as [| _]; [contradiction |].
  destruct (Z.eqb_spec (to_u32 (reg_fclk d) / Cmd.irq_fgen (cmd (w_arg w))) 0) as [| Hq];
    [intros [= <- _]; discriminate |].
  assert (Hf : to_u32 (reg_fclk d) <> 0).
  { intros E. apply Hq. rewrite E. apply Z.div_0_l. exact Hg. }
  destruct (rtask_loop _ _ _ _) as [r0 wl] eqn:L.
  apply rtask_loop_no_fault in L; [| exact Hf | exact Hlen].
  destruct r0; intros [= <- _]; try discriminate. contradiction.
Qed.

Lemma rtask_main_defined_witness :
  fst (rtask_main UINT32_MAX (dev_ok 1000000 [wake_0; wake_sigint])
         (task_world (cmd_freq 1000))) <> Crashed
  /\ length (lat_hist (w_arg (snd (rtask_main UINT32_MAX (dev_ok 1000000 [wake_0; wake_sigint])
                                     (task_world (cmd_freq 1000))))))
     = Z.to_nat LAT_MAX_COUNT.
Proof.
  apply (rtask_main_defined UINT32_MAX (dev_ok 1000000 [wake_0; wake_sigint])
           (task_world (cmd_freq 1000))).
  - apply fresh_arg_length.
  - discriminate.
  - apply surjective_pairing.
Defined.

(** ** Ends of the loop *)

Lemma skip_irq_unbounded (w : world) :
  is_sigint w = 0 -> Cmd.irq_count (cmd (w_arg w)) = 0 -> skip_irq w = (Continue, w).
Proof. intros Hs Hc. unfold skip_irq. rewrite Hs, Hc. reflexivity. Qed.

(** X8: without [-count], or with [-count 0], the loop does not end by
    itself: as long as no SIGINT arrives and no wait fails it is still
    running after any number of wakes, whatever their masks and counters. *)
Theorem unbounded_run_continues (SIZE_MAX irq_fclk : Z) (ks : list wake) (w : world) :
  irq_fclk <> 0 ->
  length (lat_hist (w_arg w)) = Z.to_nat LAT_MAX_COUNT ->
  Cmd.irq_count (cmd (w_arg w)) = 0 ->
  is_sigint w = 0 ->
  Forall (fun k => wk_sigint k = false /\ wk_ret k <> -1) ks ->
  fst (rtask_loop SIZE_MAX irq_fclk ks w) = Continue.
Proof.
  intros Hf. revert w. induction ks as [| k ks IH]; intros w Hlen Hc Hs Hall; [reflexivity |].
  apply Forall_cons in Hall as [[Hk Hr] Hall]. cbn [rtask_loop].
  destruct (loop_body SIZE_MAX irq_fclk k w) as [r1 w1] eqn:E.
  destruct (loop_body_frame _ _ _ _ _ _ E) as (_ & F1 & _ & F3 & _).
  pose proof (loop_body_length _ _ _ _ _ _ E) as L1.
  rewrite Hk, Hs in F3.
  assert (Hc1 : Cmd.irq_count (cmd (w_arg w1)) = 0) by (rewrite F1; exact Hc).
  assert (Hr1 : r1 = Continue).
  { destruct (loop_body_cases SIZE_MAX irq_fclk k w)
      as [(Hr' & _) | [(_ & _ & E') | [(_ & _ & a & _ & E') | (_ & _ & Ha & _)]]].
    - contradiction.
    - rewrite E' in E. apply skip_irq_world in E as E2. destruct E2 as [-> _].
      rewrite skip_irq_unbounded in E by assumption. congruence.
    - rewrite E' in E. apply skip_irq_world in E as E2. destruct E2 as [-> _].
      rewrite skip_irq_unbounded in E by assumption. congruence.
    - rewrite woken_arg in Ha.
      destruct (record_latency_is_Some SIZE_MAX irq_fclk (to_u32 (wk_start k))
                  (to_u32 (wk_now k)) (w_arg w) Hf Hlen) as [a Ha'].
      rewrite Ha in Ha'. discriminate. }
  subst r1. apply IH.
  - cbn [next_irq w_arg set_arg lat_hist with_count]. rewrite L1. exact Hlen.
  - cbn [next_irq w_arg set_arg cmd with_count]. exact Hc1.
  - exact F3.
  - exact Hall.
Qed.

Lemma unbounded_run_continues_witness :
  fst (rtask_loop UINT32_MAX 1000000 [wake_0; wake_idle; wake_500000]
         (loop_world cmd_unbounded)) = Continue.
Proof.
  apply unbounded_run_continues.
  - discriminate.
  - apply fresh_arg_length.
  - reflexivity.
  - reflexivity.
  - repeat constructor; discriminate.
Defined.

(** X9: a wait that returns -1 ends the loop in that pass: the error of
    line 352 is reported, no register is read, and the argument block, with
    the histogram recorded so far, is as the previous pass left it. *)
Theorem wait_error_ends_loop (SIZE_MAX irq_fclk : Z) (pre post : list wake) (k : wake)
    (w w1 : world) :
  rtask_loop SIZE_MAX irq_fclk pre w = (Continue, w1) ->
  wk_ret k = -1 ->
  exists w2,
    rtask_loop SIZE_MAX irq_fclk (pre ++ k :: post) w = (WaitError, w2)
    /\ w_arg w2 = w_arg w1
    /\ trace w2 = trace w1 ++ wait_events k ++ [Perror 352].
Proof.
  intros Hpre Hr. rewrite rtask_loop_app, Hpre. cbn [rtask_loop].
  destruct (loop_body_cases SIZE_MAX irq_fclk k w1)
    as [(_ & E) | [(Hr' & _) | [(Hr' & _) | (Hr' & _)]]]; try contradiction.
  rewrite E. eexists. split; [reflexivity |]. cbn [w_arg trace emit].
  rewrite woken_arg, woken_trace, <- app_assoc. auto.
Qed.

Lemma wait_error_ends_loop_witness :
  exists w2,
    rtask_loop UINT32_MAX 1000000 ([wake_idle] ++ wake_error :: [wake_0])
      (loop_world cmd_unbounded) = (WaitError, w2)
    /\ w_arg w2 = w_arg (after_idle_wake cmd_unbounded)
    /\ trace w2 = trace (after_idle_wake cmd_unbounded) ++ wait_events wake_error ++ [Perror 352].
Proof. apply wait_error_ends_loop; reflexivity. Defined.

(** X10: a run bounded by [-count n] against wakes that all carry a sample
    of [u] microseconds ends by [break] in pass [n + 1]: [irq_count] is [n]
    and [n + 1] samples have been read and counted in bucket [u]. *)
Theorem bounded_run_one_more (SIZE_MAX irq_fclk u n : Z) (ks : list wake)
    (c : Cmd.cmdline_t) :
  0 <= u < LAT_MAX_COUNT ->
  Cmd.irq_count c = n ->
  0 < n <= SIZE_MAX ->
  n < UINT32_MAX ->
  Forall (plain_wake irq_fclk u) ks ->
  n < Z.of_nat (length ks) ->
  exists w',
    rtask_loop SIZE_MAX irq_fclk ks (loop_world c) = (Break, w')
    /\ irq_count (w_arg w') = n
    /\ irq_missed (w_arg w') = 0
    /\ bucket (lat_hist (w_arg w')) u = n + 1
    /\ count_events is_start_read (trace w') = n + 1.
Proof.
  intros Hu Hc Hn Hn32 Hall Hks.
  assert (Hb : 0 <= bucket (lat_hist (w_arg (loop_world c))) u <= UINT32_MAX).
  { cbn [loop_world task_world loop_init w_arg set_arg with_count with_missed lat_hist fresh_arg].
    rewrite bucket_replicate. unfold UINT32_MAX. lia. }
  destruct (rtask_loop_plain_exit SIZE_MAX irq_fclk u n ks (loop_world c)
              Hu Hall eq_refl (fresh_arg_length c) Hb eq_refl Hc Hn Hks)
    as (w' & evs & L & (R1 & R2 & R3 & R4 & R5 & R6) & Hcnt & T & N).
  exists w'. split; [exact L |]. split; [exact Hcnt |]. split; [exact R2 |].
  cbn [loop_world task_world loop_init w_arg set_arg with_count with_missed lat_hist fresh_arg]
    in R4.
  rewrite bucket_replicate, Z.add_0_l, to_u32_id in R4 by lia.
  split; [exact R4 |]. rewrite T. exact N.
Qed.

Lemma bounded_run_one_more_witness :
  exists w',
    rtask_loop UINT32_MAX 1000000 (replicate 4 wake_0) (loop_world (cmd_count 3)) = (Break, w')
    /\ irq_count (w_arg w') = 3
    /\ irq_missed (w_arg w') = 0
    /\ bucket (lat_hist (w_arg w')) 0 = 3 + 1
    /\ count_events is_start_read (trace w') = 3 + 1.
Proof.
  apply bounded_run_one_more.
  - rewrite LAT_MAX_COUNT_eq. lia.
  - reflexivity.
  - unfold UINT32_MAX. lia.
  - unfold UINT32_MAX. lia.
  - apply Forall_replicate. unfold plain_wake, wake_0.
    cbn [wk_sigint wk_ret wk_mask wk_start wk_now].
    split; [reflexivity |]. split; [discriminate |]. split; [discriminate | reflexivity].
  - rewrite length_replicate. lia.
Defined.

(** ** Conversion to microseconds *)

(** X11: for a clock of 1 MHz or more the conversion of line 370 loses
    nothing: the 32-bit [xxx] is the exact quotient [micros] of the latency
    in ticks times 1000000 by the clock, the latency is counted in bucket
    [micros] when [micros] is below [LAT_MAX_US] and in [irq_missed]
    otherwise, and nothing else changes. *)
Theorem record_latency_exact (SIZE_MAX irq_fclk x xx : Z) (a : rtask_arg_t) :
  1000000 <= irq_fclk <= UINT32_MAX ->
  length (lat_hist a) = Z.to_nat LAT_MAX_COUNT ->
  let micros := latency_ticks x xx * 1000000 / irq_fclk in
  ticks_to_us (latency_ticks x xx) irq_fclk = Some micros
  /\ record_latency SIZE_MAX irq_fclk x xx a
     = Some (if micros <? LAT_MAX_US
             then with_hist (<[Z.to_nat micros := to_u32 (bucket (lat_hist a) micros + 1)]>
                               (lat_hist a)) a
             else with_missed (to_size SIZE_MAX (irq_missed a + 1)) a).
Proof.
  intros Hf Hlen micros.
  pose proof (latency_ticks_range x xx) as Hr.
  assert (Hm : 0 <= micros <= UINT32_MAX).
  { split; [apply Z.div_pos; lia |].
    apply Z.le_trans with (latency_ticks x xx); [| lia].
    apply Z.div_le_upper_bound; [lia | nia]. }
  split.
  - rewrite ticks_to_us_spec by lia. fold micros. rewrite to_u32_id by exact Hm. reflexivity.
  - apply record_latency_fits; [lia | exact Hlen | lia].
Qed.

Lemma record_latency_exact_witness :
  let micros := latency_ticks 100 250100 * 1000000 / 125000000 in
  ticks_to_us (latency_ticks 100 250100) 125000000 = Some micros
  /\ record_latency UINT32_MAX 125000000 100 250100 (fresh_arg cmd_unbounded)
     = Some (if micros <? LAT_MAX_US
             then with_hist (<[Z.to_nat micros :=
                                 to_u32 (bucket (lat_hist (fresh_arg cmd_unbounded)) micros + 1)]>
                               (lat_hist (fresh_arg cmd_unbounded))) (fresh_arg cmd_unbounded)
             else with_missed (to_size UINT32_MAX (irq_missed (fresh_arg cmd_unbounded) + 1))
                    (fresh_arg cmd_unbounded)).
Proof.
  apply record_latency_exact.
  - unfold UINT32_MAX. lia.
  - apply fresh_arg_length.
Defined.

(** ** The task as a whole *)

Lemma loop_event_task_event (el : list event) :
  Forall loop_event el -> Forall task_event el.
Proof.
  intros F. eapply Forall_impl; [exact F |].
  intros e. destruct e; cbn; tauto.
Qed.

Ltac solve_task_events :=
  repeat (apply List.Forall_cons; [cbn; auto 8 |]); apply List.Forall_nil.

Lemma init_events_task_event (d : device) : Forall task_event (init_events d).
Proof. unfold init_events. solve_task_events. Qed.

Lemma disarm_events_task_event : Forall task_event disarm_events.
Proof. unfold disarm_events. solve_task_events. Qed.

(** A task whose setup fails before the register session is open. *)
Lemma rtask_main_early (SIZE_MAX : Z) (d : device) (w : world) :
  ~ device_opens d ->
  exists w' evs,
    rtask_main SIZE_MAX d w = (Returned (-1), w')
    /\ w_arg w' = w_arg w
    /\ trace w' = trace w ++ evs
    /\ Forall task_event evs
    /\ count_events is_perror evs = 1
    /\ (forall off v, ~ In (EpciWr32 REG_BAR off v) evs)
    /\ (forall off v, ~ In (EpciRd32 REG_BAR off v) evs).
Proof.
  intros Hno. unfold rtask_main, enable_ebone_slave_interrupt.
  destruct (ebm_open_ok d) eqn:H1; cbn [negb Z.eqb]; cycle 1.
  { unfold on_error_0. eexists _, [EpciOpen 0 false; Perror 273].
    split; [reflexivity |]. split; [reflexivity |].
    split; [cbn [trace emit]; rewrite <- app_assoc; reflexivity |].
    split; [cbn [app]; solve_task_events |]. split; [reflexivity |].
    split; intros off v; cbn [In]; intuition discriminate. }
  destruct (uirq_init_ok d) eqn:H2; cbn [negb]; cycle 1.
  { unfold on_error_0. eexists _, _.
    split; [reflexivity |]. split; [reflexivity |].
    split; [cbn [trace emit]; rewrite <- !app_assoc; reflexivity |].
    split; [cbn [app]; solve_task_events |]. split; [reflexivity |].
    split; intros off v; cbn [In app]; intuition discriminate. }
  destruct (uirq_open_ok d) eqn:H3; cbn [negb]; cycle 1.
  { unfold on_error_1, on_error_0. eexists _, _.
    split; [reflexivity |]. split; [reflexivity |].
    split; [cbn [trace emit]; rewrite <- !app_assoc; reflexivity |].
    split; [cbn [app]; solve_task_events |]. split; [reflexivity |].
    split; intros off v; cbn [In app]; intuition discriminate. }
  destruct (uirq_mask_ok d) eqn:H4; cbn [negb]; cycle 1.
  { unfold on_error_2, on_error_1, on_error_0. eexists _, _.
    split; [reflexivity |]. split; [reflexivity |].
    split; [cbn [trace emit]; rewrite <- !app_assoc; reflexivity |].
    split; [cbn [app]; solve_task_events |]. split; [reflexivity |].
    split; intros off v; cbn [In app]; intuition discriminate. }
  destruct (epci_open_ok d) eqn:H5; cbn [negb]; cycle 1.
  { unfold on_error_2, on_error_1, on_error_0. eexists _, _.
    split; [reflexivity |]. split; [reflexivity |].
    split; [cbn [trace emit set_sigint]; rewrite <- !app_assoc; reflexivity |].
    split; [cbn [app]; solve_task_events |]. split; [reflexivity |].
    split; intros off v; cbn [In app]; intuition discriminate. }
  exfalso. apply Hno. unfold device_opens. auto.
Qed.

Lemma device_opens_dec (d : device) : device_opens d \/ ~ device_opens d.
Proof.
  unfold device_opens.
  destruct (ebm_open_ok d), (uirq_init_ok d), (uirq_open_ok d), (uirq_mask_ok d),
    (epci_open_ok d);
    try (left; repeat split; reflexivity);
    right; intros (? & ? & ? & ? & ?); discriminate.
Qed.

(** X12: whatever the device answers and however the task ends, its
    accesses are these: on BAR 0, control register 0; on the device, reads of
    MAGIC, FCLK, START and NOW and writes of CTL, with 0 or with a word that
    has the start bit; waits with a timeout of 1000 ms; the interrupt mask of
    source 1.  TOGL and COUNT are never read and no register but CTL is
    written. *)
Theorem rtask_main_accesses (SIZE_MAX : Z) (d : device) (w w' : world) (r : outcome) :
  rtask_main SIZE_MAX d w = (r, w') ->
  exists evs, trace w' = trace w ++ evs /\ Forall task_event evs.
Proof.
  intros H.
  destruct (device_opens_dec d) as [Ho | Hno]; cycle 1.
  { destruct (rtask_main_early SIZE_MAX d w Hno) as (w2 & evs & E & _ & T & F & _).
    rewrite E in H. injection H as _ <-. eauto. }
  destruct (Z.eq_dec (to_u32 (reg_magic d)) MAGIC) as [Hm | Hm]; cycle 1.
  { rewrite (rtask_main_magic_mismatch SIZE_MAX d w Ho Hm) in H. injection H as _ <-.
    exists (init_events d ++ Perror 310 :: disarm_events). split; [reflexivity |].
    apply Forall_app. split; [apply init_events_task_event |].
    constructor; [exact I | apply disarm_events_task_event]. }
  destruct (Z.eq_dec (Cmd.irq_fgen (cmd (w_arg w))) 0) as [Hg | Hg].
  { rewrite (rtask_main_crash SIZE_MAX d w Ho Hm Hg) in H. injection H as _ <-.
    exists (init_events d
            ++ [EpciRd32 REG_BAR (REG_BASE + REG_FCLK) (to_u32 (reg_fclk d))]).
    split; [reflexivity |].
    apply Forall_app. split; [apply init_events_task_event |].
    solve_task_events. }
  destruct (Z.eq_dec (to_u32 (reg_fclk d) / Cmd.irq_fgen (cmd (w_arg w))) 0) as [Hq | Hq].
  { rewrite (rtask_main_underflow SIZE_MAX d w Ho Hm Hg Hq) in H. injection H as _ <-.
    exists (init_events d
            ++ EpciRd32 REG_BAR (REG_BASE + REG_FCLK) (to_u32 (reg_fclk d))
               :: Perror 340 :: disarm_events).
    split; [reflexivity |].
    apply Forall_app. split; [apply init_events_task_event |].
    constructor; [cbn; auto 8 |].
    constructor; [exact I | apply disarm_events_task_event]. }
  destruct (rtask_main_armed_trace SIZE_MAX d w Ho Hm Hg Hq)
    as (r2 & w2 & el & tail & E & T & F & Htail).
  rewrite E in H. injection H as _ <-.
  eexists. split; [exact T |].
  apply Forall_app. split; [apply init_events_task_event |].
  constructor; [cbn; auto 8 |].
  constructor; [cbn; right; split; [reflexivity |]; split; [reflexivity |];
                right; apply ctl_start_bit |].
  apply Forall_app. split; [apply loop_event_task_event; exact F |].
  destruct Htail as [(err & _ & ->) | (_ & ->)];
    [apply disarm_events_task_event | constructor].
Qed.

Lemma rtask_main_accesses_witness :
  exists evs,
    trace (snd (rtask_main UINT32_MAX (dev_ok 1000000 [wake_0; wake_sigint])
                  (task_world (cmd_freq 1000))))
    = trace (task_world (cmd_freq 1000)) ++ evs
    /\ Forall task_event evs.
Proof.
  apply (rtask_main_accesses UINT32_MAX (dev_ok 1000000 [wake_0; wake_sigint])
           (task_world (cmd_freq 1000))
           (snd (rtask_main UINT32_MAX (dev_ok 1000000 [wake_0; wake_sigint])
                   (task_world (cmd_freq 1000))))
           (fst (rtask_main UINT32_MAX (dev_ok 1000000 [wake_0; wake_sigint])
                   (task_world (cmd_freq 1000))))).
  apply surjective_pairing.
Defined.

Lemma pass_events_perror (k : wake) :
  count_events is_perror (pass_events k) = if wk_ret k =? -1 then 1 else 0.
Proof.
  unfold pass_events, wait_events.
  destruct (wk_sigint k), (wk_ret k =? -1), (to_u32 (wk_mask k) =? 0); reflexivity.
Qed.

Lemma rtask_loop_perror (SIZE_MAX irq_fclk : Z) (ks : list wake) :
  forall (w w' : world) (r : status),
    rtask_loop SIZE_MAX irq_fclk ks w = (r, w') ->
    exists evs,
      trace w' = trace w ++ evs
      /\ count_events is_perror evs = match r with WaitError => 1 | _ => 0 end.
Proof.
  induction ks as [| k ks IH]; intros w w' r; cbn [rtask_loop].
  - intros [= <- <-]. exists []. rewrite app_nil_r. auto.
  - destruct (loop_body SIZE_MAX irq_fclk k w) as [r1 w1] eqn:E.
    destruct (loop_body_frame _ _ _ _ _ _ E) as (T & _ & _ & _ & Hw).
    pose proof (pass_events_perror k) as Hp.
    assert (Hone : (r1, w1) = (r, w') ->
                   exists evs,
                     trace w' = trace w ++ evs
                     /\ count_events is_perror evs = match r with WaitError => 1 | _ => 0 end).
    { intros [= <- <-]. exists (pass_events k). split; [exact T |]. rewrite Hp.
      destruct (Z.eqb_spec (wk_ret k) (-1)) as [Hr | Hr].
      - apply Hw in Hr. subst r1. reflexivity.
      - destruct r1; try reflexivity. exfalso. apply Hr, Hw. reflexivity. }
    destruct r1; try exact Hone.
    intros H. destruct (IH _ _ _ H) as (e2 & T2 & N2).
    exists (pass_events k ++ e2). cbn [trace next_irq set_arg] in T2.
    rewrite T2, T, <- app_assoc, count_events_app, Hp, N2. split; [reflexivity |].
    destruct (Z.eqb_spec (wk_ret k) (-1)) as [Hr | Hr]; [| reflexivity].
    apply Hw in Hr. discriminate.
Qed.

(** X13: the task returns 0 or -1, and it returns -1 exactly when it has
    reported an error: a task that returns 0 has printed no [PERROR] line, a
    task that returns -1 has printed exactly one. *)
Theorem rtask_main_result (SIZE_MAX : Z) (d : device) (w w' : world) (err : Z) :
  rtask_main SIZE_MAX d w = (Returned err, w') ->
  exists evs,
    trace w' = trace w ++ evs
    /\ ((err = 0 /\ count_events is_perror evs = 0)
        \/ (err = -1 /\ count_events is_perror evs = 1)).
Proof.
  intros H.
  destruct (device_opens_dec d) as [Ho | Hno]; cycle 1.
  { destruct (rtask_main_early SIZE_MAX d w Hno) as (w2 & evs & E & _ & T & _ & N & _).
    rewrite E in H. injection H as <- <-. eauto. }
  destruct (Z.eq_dec (to_u32 (reg_magic d)) MAGIC) as [Hm | Hm]; cycle 1.
  { rewrite (rtask_main_magic_mismatch SIZE_MAX d w Ho Hm) in H. injection H as <- <-.
    exists (init_events d ++ Perror 310 :: disarm_events). split; [reflexivity |].
    right. split; reflexivity. }
  destruct (Z.eq_dec (Cmd.irq_fgen (cmd (w_arg w))) 0) as [Hg | Hg].
  { rewrite (rtask_main_crash SIZE_MAX d w Ho Hm Hg) in H. discriminate. }
  destruct (Z.eq_dec (to_u32 (reg_fclk d) / Cmd.irq_fgen (cmd (w_arg w))) 0) as [Hq | Hq].
  { rewrite (rtask_main_underflow SIZE_MAX d w Ho Hm Hg Hq) in H. injection H as <- <-.
    exists (init_events d
            ++ EpciRd32 REG_BAR (REG_BASE + REG_FCLK) (to_u32 (reg_fclk d))
               :: Perror 340 :: disarm_events).
    split; [reflexivity |]. right. split; reflexivity. }
  rewrite (rtask_main_armed SIZE_MAX d w Ho Hm Hg Hq) in H.
  fold (armed_world d w) in H.
  destruct (rtask_loop _ _ _ _) as [r0 wl] eqn:L.
  destruct (rtask_loop_perror _ _ _ _ _ _ L) as (el & T & N).
  cbn [trace loop_init set_arg] in T.
  unfold armed_world in T. cbn [trace after_events] in T.
  set (pre := init_events d
              ++ [EpciRd32 REG_BAR (REG_BASE + REG_FCLK) (to_u32 (reg_fclk d));
                  EpciWr32 REG_BAR (REG_BASE + REG_CTL)
                    (Z.lor CTL_START
                       (to_u32 (reg_fclk d) / Cmd.irq_fgen (cmd (w_arg w))))]) in *.
  assert (Hinit : count_events is_perror pre = 0) by reflexivity.
  destruct r0; cbn [loop_exit] in H; try discriminate.
  - destruct (on_error_3_trace 0 wl) as (E3 & T3 & _).
    assert (He : Returned 0 = Returned err /\ snd (on_error_3 0 wl) = w')
      by (rewrite E3 in H; split; congruence).
    destruct He as [[= <-] <-].
    exists (pre ++ el ++ disarm_events).
    split; [rewrite T3, T, <- !app_assoc; reflexivity |].
    left. split; [reflexivity |]. rewrite !count_events_app, Hinit, N. reflexivity.
  - destruct (on_error_3_trace (-1) wl) as (E3 & T3 & _).
    assert (He : Returned (-1) = Returned err /\ snd (on_error_3 (-1) wl) = w')
      by (rewrite E3 in H; split; congruence).
    destruct He as [[= <-] <-].
    exists (pre ++ el ++ disarm_events).
    split; [rewrite T3, T, <- !app_assoc; reflexivity |].
    right. split; [reflexivity |]. rewrite !count_events_app, Hinit, N. reflexivity.
Qed.

Lemma rtask_main_result_witness :
  exists w' evs,
    rtask_main UINT32_MAX (dev_ok 1000000 [wake_idle; wake_error])
      (task_world (cmd_freq 1000)) = (Returned (-1), w')
    /\ trace w' = trace (task_world (cmd_freq 1000)) ++ evs
    /\ ((-1 = 0 /\ count_events is_perror evs = 0)
        \/ (-1 = -1 /\ count_events is_perror evs = 1)).
Proof.
  eexists.
  assert (E : rtask_main UINT32_MAX (dev_ok 1000000 [wake_idle; wake_error])
                (task_world (cmd_freq 1000)) = (Returned (-1), _)) by reflexivity.
  destruct (rtask_main_result _ _ _ _ _ E) as (evs & H).
  exists evs. split; [exact E | exact H].
Defined.

(** X14: the task returns 0 if and only if every call of the setup
    succeeded, the device identified itself, the divider is not 0 and the
    loop was left by [break]; the world it returns is then that of the loop
    followed by the disarm write and the two closes. *)
Theorem rtask_main_success (SIZE_MAX : Z) (d : device) (w w' : world) :
  rtask_main SIZE_MAX d w = (Returned 0, w')
  <-> device_opens d
      /\ to_u32 (reg_magic d) = MAGIC
      /\ Cmd.irq_fgen (cmd (w_arg w)) <> 0
      /\ to_u32 (reg_fclk d) / Cmd.irq_fgen (cmd (w_arg w)) <> 0
      /\ exists wl,
           rtask_loop SIZE_MAX (to_u32 (reg_fclk d)) (wakes d) (loop_init (armed_world d w))
           = (Break, wl)
           /\ w' = snd (on_error_3 0 wl).
Proof.
  split.
  - intros H.
    destruct (device_opens_dec d) as [Ho | Hno]; cycle 1.
    { destruct (rtask_main_early SIZE_MAX d w Hno) as (w2 & evs & E & _).
      rewrite E in H. discriminate. }
    destruct (Z.eq_dec (to_u32 (reg_magic d)) MAGIC) as [Hm | Hm]; cycle 1.
    { rewrite (rtask_main_magic_mismatch SIZE_MAX d w Ho Hm) in H. discriminate. }
    destruct (Z.eq_dec (Cmd.irq_fgen (cmd (w_arg w))) 0) as [Hg | Hg].
    { rewrite (rtask_main_crash SIZE_MAX d w Ho Hm Hg) in H. discriminate. }
    destruct (Z.eq_dec (to_u32 (reg_fclk d) / Cmd.irq_fgen (cmd (w_arg w))) 0) as [Hq | Hq].
    { rewrite (rtask_main_underflow SIZE_MAX d w Ho Hm Hg Hq) in H. discriminate. }
    rewrite (rtask_main_armed SIZE_MAX d w Ho Hm Hg Hq) in H.
    fold (armed_world d w) in H.
    destruct (rtask_loop _ _ _ _) as [r0 wl] eqn:L.
    destruct r0; cbn [loop_exit] in H; try discriminate.
    destruct (on_error_3_trace 0 wl) as (E3 & _).
    assert (He : snd (on_error_3 0 wl) = w') by (rewrite E3 in H; congruence).
    split; [exact Ho |]. split; [exact Hm |]. split; [exact Hg |]. split; [exact Hq |].
    exists wl. split; [reflexivity | symmetry; exact He].
  - intros (Ho & Hm & Hg & Hq & wl & L & ->).
    rewrite (rtask_main_armed SIZE_MAX d w Ho Hm Hg Hq). fold (armed_world d w).
    rewrite L. cbn [loop_exit]. apply on_error_3_trace.
Qed.

(** ** The process *)

Lemma nonzero_buckets_zero (n : nat) (k : Z) : nonzero_buckets k (replicate n 0) = [].
Proof. revert k. induction n as [| n IH]; intros k; [reflexivity |]. cbn. apply IH. Qed.

(** X15: when the real-time scheduling class is refused the task function
    is not run: no library is called, and [main] exits with -1 after a report
    of two lines, the count 0 and, as missed count, what the stack slot of
    [arg.irq_missed] happened to hold. *)
Theorem scheduling_refused (SIZE_MAX : Z) (strtoul : string -> Z -> Z) (p : process)
    (c : Cmd.cmdline_t) :
  get_cmdline strtoul (av p) = Some c ->
  malloc_ok p = true ->
  sched_ok p = false ->
  rtask_entry SIZE_MAX p (main_world SIZE_MAX p c) = (Returned (-1), main_world SIZE_MAX p c)
  /\ trace (main_world SIZE_MAX p c) = []
  /\ main SIZE_MAX strtoul p
     = Exited (-1)
         ["# irq_count : 0" +:+ newline;
          "# irq_missed: " +:+ pretty (to_size SIZE_MAX (stack_irq_missed p)) +:+ newline].
Proof.
  intros Hc Hm Hs. unfold main, rtask_entry. rewrite Hc, Hm, Hs. cbn [negb].
  split; [reflexivity |]. split; [reflexivity |].
  unfold report. cbn [main_world w_arg main_arg lat_hist irq_count irq_missed trace diagnostics app].
  rewrite <- (length_replicate (Z.to_nat LAT_MAX_COUNT) 0) at 1.
  rewrite report_hist_all, nonzero_buckets_zero. reflexivity.
Qed.

Lemma scheduling_refused_witness :
  rtask_entry UINT32_MAX unscheduled_process (main_world UINT32_MAX unscheduled_process cmd_count5)
  = (Returned (-1), main_world UINT32_MAX unscheduled_process cmd_count5)
  /\ trace (main_world UINT32_MAX unscheduled_process cmd_count5) = []
  /\ main UINT32_MAX strtoul_length unscheduled_process
     = Exited (-1)
         ["# irq_count : 0" +:+ newline;
          "# irq_missed: "
          +:+ pretty (to_size UINT32_MAX (stack_irq_missed unscheduled_process)) +:+ newline].
Proof. apply scheduling_refused; reflexivity. Defined.

(** X16: a [main] that returns has printed nothing at all exactly when
    the command line was refused or the histogram could not be allocated,
    and it then returns -1.  In every other case in which it returns, the
    task was joined and the output is the error lines of the task, the two
    summary lines and the lines of the histogram loop. *)
Theorem main_silent (SIZE_MAX : Z) (strtoul : string -> Z -> Z) (p : process)
    (code : Z) (out : list string) :
  main SIZE_MAX strtoul p = Exited code out ->
  (out = [] <-> get_cmdline strtoul (av p) = None \/ malloc_ok p = false)
  /\ (out = [] -> code = -1)
  /\ (out <> [] ->
      exists c w,
        get_cmdline strtoul (av p) = Some c
        /\ malloc_ok p = true
        /\ rtask_entry SIZE_MAX p (main_world SIZE_MAX p c) = (Returned code, w)
        /\ out = diagnostics (trace w)
                 ++ ("# irq_count : " +:+ pretty (irq_count (w_arg w)) +:+ newline)
                 :: ("# irq_missed: " +:+ pretty (irq_missed (w_arg w)) +:+ newline)
                 :: report_hist (Z.to_nat LAT_MAX_COUNT) 0 (lat_hist (w_arg w))).
Proof.
  unfold main. destruct (get_cmdline strtoul (av p)) as [c |].
  - destruct (malloc_ok p); cbn [negb].
    + destruct (rtask_entry _ _ _) as [[err | |] w'] eqn:E; try discriminate.
      intros [= <- <-]. unfold report.
      split; [| split].
      * split.
        -- intros H. apply app_eq_nil in H as [_ H]. discriminate.
        -- intros [H | H]; discriminate.
      * intros H. apply app_eq_nil in H as [_ H]. discriminate.
      * intros _. exists c, w'. split; [reflexivity |]. split; [reflexivity |].
        split; [exact E | reflexivity].
    + intros [= <- <-]. split; [split; auto |]. split; [reflexivity | congruence].
  - intros [= <- <-]. split; [split; auto |]. split; [reflexivity | congruence].
Qed.

Lemma main_silent_witness :
  (@nil string = []
   <-> get_cmdline strtoul_length (av odd_process) = None \/ malloc_ok odd_process = false)
  /\ (@nil string = [] -> -1 = -1)
  /\ (@nil string <> [] ->
      exists c w,
        get_cmdline strtoul_length (av odd_process) = Some c
        /\ malloc_ok odd_process = true
        /\ rtask_entry UINT32_MAX odd_process (main_world UINT32_MAX odd_process c)
           = (Returned (-1), w)
        /\ [] = diagnostics (trace w)
                ++ ("# irq_count : " +:+ pretty (irq_count (w_arg w)) +:+ newline)
                :: ("# irq_missed: " +:+ pretty (irq_missed (w_arg w)) +:+ newline)
                :: report_hist (Z.to_nat LAT_MAX_COUNT) 0 (lat_hist (w_arg w))).
Proof. apply (main_silent UINT32_MAX strtoul_length odd_process). reflexivity. Defined.

Lemma nonzero_buckets_counts (h : list Z) (k : Z) :
  sum_buckets (map snd (nonzero_buckets k h)) = sum_buckets h
  /\ Forall (fun ic => snd ic <> 0) (nonzero_buckets k h).
Proof.
  unfold sum_buckets.
  revert k. induction h as [| c h IH]; intros k; cbn [nonzero_buckets].
  - split; [reflexivity | constructor].
  - destruct (IH (k + 1)) as [IH1 IH2].
    destruct (Z.eqb_spec c 0) as [-> | Hc].
    + split; [cbn [foldr]; rewrite IH1; reflexivity | exact IH2].
    + split; [cbn [map foldr snd]; rewrite IH1; reflexivity
             | constructor; [exact Hc | exact IH2]].
Qed.

(** X17: the histogram loop of the report loses no sample: each line it
    prints is an offset, a space, a count and a line feed; the counts of
    the lines add up to the sum of all buckets, and no line has the count
    0. *)
Theorem report_counts (h : list Z) :
  exists l : list (Z * Z),
    report_hist (length h) 0 h
    = map (fun ic => pretty (fst ic) +:+ " " +:+ pretty (snd ic) +:+ newline) l
    /\ sum_buckets (map snd l) = sum_buckets h
    /\ Forall (fun ic => snd ic <> 0) l.
Proof.
  exists (nonzero_buckets 0 h). split.
  - rewrite report_hist_all. apply map_ext, report_line_format.
  - apply nonzero_buckets_counts.
Qed.

(** ** Latency without wrap-around *)

(** X18: when the NOW reading is not below the START reading the latency
    is their difference, which is also their difference modulo 2^32; the two
    branches of line 365 disagree with the modular difference only when the
    counter has wrapped. *)
Theorem latency_ticks_forward (startTicks nowTicks : Z) :
  0 <= startTicks -> startTicks <= nowTicks -> nowTicks <= UINT32_MAX ->
  latency_ticks startTicks nowTicks = nowTicks - startTicks
  /\ latency_ticks startTicks nowTicks = (nowTicks - startTicks) mod 2 ^ 32.
Proof.
  intros H0 H1 H2. unfold latency_ticks, UINT32_MAX in *.
  destruct (Z.ltb_spec nowTicks startTicks); [lia |].
  rewrite to_u32_id by (unfold UINT32_MAX; lia).
  split; [reflexivity |]. rewrite Z.mod_small by lia. reflexivity.
Qed.

Lemma latency_ticks_forward_witness :
  latency_ticks 100 500100 = 500100 - 100
  /\ latency_ticks 100 500100 = (500100 - 100) mod 2 ^ 32.
Proof. apply latency_ticks_forward; unfold UINT32_MAX; lia. Defined.

(** * The network thread of the load generator *)

Lemma load_acquired_app (tr1 tr2 : list Load.event) :
  Load.acquired (tr1 ++ tr2) = Load.acquired tr1 ++ Load.acquired tr2.
Proof.
  induction tr1 as [| e tr1 IH]; [reflexivity |].
  destruct e as [n [] | ret | fd | | | | | | |]; cbn [app Load.acquired]; try exact IH.
  - cbn [app]. f_equal. exact IH.
  - destruct (ret =? 0); [cbn [app]; f_equal |]; exact IH.
  - destruct (fd =? -1); [| cbn [app]; f_equal]; exact IH.
Qed.

Lemma load_released_app (tr1 tr2 : list Load.event) :
  Load.released (tr1 ++ tr2) = Load.released tr1 ++ Load.released tr2.
Proof.
  induction tr1 as [| e tr1 IH]; [reflexivity |].
  destruct e; cbn [app Load.released]; try exact IH; cbn [app]; f_equal; exact IH.
Qed.

Lemma load_net_loop_events (fd : Z) (rs : list Load.round) :
  forall (s : Z) (tr tr' : list Load.event) (st : Load.status),
    Load.net_loop fd rs s tr = (st, tr') ->
    exists evs, tr' = tr ++ evs /\ Load.acquired evs = [] /\ Load.released evs = [].
Proof.
  induction rs as [| r rs IH]; intros s tr tr' st; cbn [Load.net_loop].
  - intros [= _ <-]. exists []. rewrite app_nil_r. auto.
  - destruct (negb _); [intros [= _ <-]; exists []; rewrite app_nil_r; auto |].
    destruct (negb (Load.select_ret r =? 1)).
    { destruct (_ =? 1); intros [= _ <-]; eexists; split; try reflexivity; auto. }
    destruct (Load.sendto_ret r <=? 0).
    { intros [= _ <-]. eexists. rewrite <- app_assoc. split; [reflexivity |]. auto. }
    intros H. destruct (IH _ _ _ _ H) as (evs & -> & A & R).
    eexists. rewrite <- !app_assoc. split; [reflexivity |].
    rewrite !load_acquired_app, !load_released_app, A, R. auto.
Qed.

(** X19: a network thread that returns has freed what it obtained of the
    buffer and the address list, the address list first; the socket it
    opened is either shut down and closed before them, so that everything is
    released in the reverse order of its acquisition, or not closed at
    all. *)
Theorem load_net_main_releases (e : Load.net_env) (s : Z) (tr : list Load.event) :
  Load.net_main e s = Some tr ->
  Load.released tr = rev (Load.acquired tr)
  \/ (Load.acquired tr = [Load.Buffer; Load.AddrList; Load.Sock]
      /\ Load.released tr = [Load.AddrList; Load.Buffer]).
Proof.
  unfold Load.net_main, Load.on_error_3, Load.on_error_2, Load.on_error_1, Load.on_error_0.
  destruct (Load.net_malloc_ok e); cbn [negb]; [| intros [= <-]; left; reflexivity].
  destruct (Load.getaddrinfo_ret e =? 0) eqn:Hg; cbn [negb]; cycle 1.
  { intros [= <-]. left. cbn [app Load.acquired Load.released]. rewrite Hg. reflexivity. }
  destruct (Load.socket_ret e =? -1) eqn:Hs.
  { intros [= <-]. left. cbn [app Load.acquired Load.released]. rewrite Hg, Hs. reflexivity. }
  destruct (negb (Load.fcntl_ret e =? 0)).
  { intros [= <-]. left. cbn [app Load.acquired Load.released]. rewrite Hg, Hs. reflexivity. }
  destruct (Load.net_loop _ _ _ _) as [st tr1] eqn:L.
  destruct (load_net_loop_events _ _ _ _ _ _ L) as (evs & -> & A & R).
  destruct st; [discriminate | |]; intros [= <-]; [left | right];
    cbn [app Load.acquired Load.released]; rewrite Hg, Hs;
    rewrite !load_acquired_app, !load_released_app, A, R;
    cbn [app rev Load.acquired Load.released]; auto.
Qed.

Lemma load_net_main_releases_witness :
  Load.released [Load.Malloc 4096 true; Load.Getaddrinfo 0; Load.Socket 3; Load.Fcntl 3 0;
                 Load.Select 4 1; Load.Sendto 3 4096 4096;
                 Load.Shutdown 3; Load.Close 3; Load.Freeaddrinfo; Load.Free]
  = rev (Load.acquired [Load.Malloc 4096 true; Load.Getaddrinfo 0; Load.Socket 3;
                        Load.Fcntl 3 0; Load.Select 4 1; Load.Sendto 3 4096 4096;
                        Load.Shutdown 3; Load.Close 3; Load.Freeaddrinfo; Load.Free])
  \/ (Load.acquired [Load.Malloc 4096 true; Load.Getaddrinfo 0; Load.Socket 3; Load.Fcntl 3 0;
                     Load.Select 4 1; Load.Sendto 3 4096 4096;
                     Load.Shutdown 3; Load.Close 3; Load.Freeaddrinfo; Load.Free]
      = [Load.Buffer; Load.AddrList; Load.Sock]
      /\ Load.released [Load.Malloc 4096 true; Load.Getaddrinfo 0; Load.Socket 3;
                        Load.Fcntl 3 0; Load.Select 4 1; Load.Sendto 3 4096 4096;
                        Load.Shutdown 3; Load.Close 3; Load.Freeaddrinfo; Load.Free]
         = [Load.AddrList; Load.Buffer]).
Proof.
  apply (load_net_main_releases (Load.env_of [Load.round_send; Load.round_sigint]) 0).
  reflexivity.
Defined.

Lemma load_net_loop_sending (fd : Z) (pre rs : list Load.round) :
  forall tr,
    Forall Load.sending pre ->
    Load.net_loop fd (pre ++ rs) 0 tr
    = Load.net_loop fd rs 0 (tr ++ concat (map (Load.round_events fd) pre)).
Proof.
  induction pre as [| r pre IH]; intros tr Hall.
  - cbn. rewrite app_nil_r. reflexivity.
  - apply Forall_cons in Hall as [(H1 & H2 & H3 & H4) Hall].
    cbn [app Load.net_loop map concat]. rewrite H1, H2, H3. cbn [Z.eqb Pos.eqb negb].
    destruct (Z.leb_spec (Load.sendto_ret r) 0); [lia |].
    rewrite IH by exact Hall. unfold Load.round_events. rewrite H3, <- !app_assoc. reflexivity.
Qed.

Lemma load_round_events_resources (fd : Z) (pre : list Load.round) :
  Load.acquired (concat (map (Load.round_events fd) pre)) = []
  /\ Load.released (concat (map (Load.round_events fd) pre)) = [].
Proof. induction pre as [| r pre [IH1 IH2]]; cbn; auto. Qed.

Lemma load_net_main_setup (e : Load.net_env) (s : Z) :
  Load.setup_ok e ->
  Load.net_main e s
  = match Load.net_loop (Load.socket_ret e) (Load.rounds e) s (Load.setup_events e) with
    | (Load.Break, tr) => Some (Load.on_error_3 (Load.socket_ret e) tr)
    | (Load.Fail, tr) => Some (Load.on_error_2 tr)
    | (Load.Running, _) => None
    end.
Proof.
  intros (H1 & H2 & H3 & H4). unfold Load.net_main, Load.setup_events.
  rewrite H1, H2, H4. cbn [negb Z.eqb].
  destruct (Z.eqb_spec (Load.socket_ret e) (-1)); [contradiction | reflexivity].
Qed.

(** X20: the network thread leaks its socket when the loop fails: if,
    after rounds in which a datagram was sent, [select] does not return 1 or
    [sendto] sends nothing, and no SIGINT has arrived, the thread frees the
    address list and the buffer and returns; the socket it opened is neither
    shut down nor closed. *)
Theorem load_net_main_leaks_socket (e : Load.net_env) (pre post : list Load.round)
    (r : Load.round) :
  Load.setup_ok e ->
  Load.rounds e = pre ++ r :: post ->
  Forall Load.sending pre ->
  Load.failing r ->
  exists tr,
    Load.net_main e 0 = Some tr
    /\ tr = Load.setup_events e
            ++ concat (map (Load.round_events (Load.socket_ret e)) pre)
            ++ Load.failing_events (Load.socket_ret e) r
            ++ [Load.Freeaddrinfo; Load.Free]
    /\ Load.acquired tr = [Load.Buffer; Load.AddrList; Load.Sock]
    /\ Load.released tr = [Load.AddrList; Load.Buffer].
Proof.
  intros Hok Hr Hall (Hb & Hf).
  destruct (load_round_events_resources (Load.socket_ret e) pre) as [A R].
  assert (Hacq : Load.acquired (Load.setup_events e) = [Load.Buffer; Load.AddrList; Load.Sock]).
  { destruct Hok as (_ & _ & H3 & _). cbn.
    destruct (Z.eqb_spec (Load.socket_ret e) (-1)); [contradiction | reflexivity]. }
  assert (Hfa : Load.acquired (Load.failing_events (Load.socket_ret e) r) = []
                /\ Load.released (Load.failing_events (Load.socket_ret e) r) = []).
  { unfold Load.failing_events. destruct (Load.select_ret r =? 1); auto. }
  destruct Hfa as [A2 R2].
  eexists. split; [| split; [reflexivity |]].
  - rewrite (load_net_main_setup e 0 Hok), Hr, load_net_loop_sending by exact Hall.
    cbn [Load.net_loop]. rewrite Hb. cbn [Z.eqb negb]. unfold Load.failing_events.
    destruct Hf as [[Hs Hn] | [Hs Hn]].
    + destruct (Z.eqb_spec (Load.select_ret r) 1); [contradiction |]. cbn [negb].
      rewrite Hn. cbn [Z.eqb]. unfold Load.on_error_2, Load.on_error_1, Load.on_error_0.
      rewrite <- !app_assoc. reflexivity.
    + destruct (Z.eqb_spec (Load.select_ret r) 1); [| contradiction]. cbn [negb].
      destruct (Z.leb_spec (Load.sendto_ret r) 0); [| lia].
      unfold Load.on_error_2, Load.on_error_1, Load.on_error_0.
      rewrite <- !app_assoc. reflexivity.
  - rewrite !load_acquired_app, !load_released_app, A, R, A2, R2, Hacq. auto.
Qed.

Lemma load_net_main_leaks_socket_witness :
  exists tr,
    Load.net_main (Load.env_of ([Load.round_send; Load.round_send]
                                ++ Load.round_refused :: [Load.round_send])) 0 = Some tr
    /\ tr = Load.setup_events (Load.env_of ([Load.round_send; Load.round_send]
                                            ++ Load.round_refused :: [Load.round_send]))
            ++ concat (map (Load.round_events 3) [Load.round_send; Load.round_send])
            ++ Load.failing_events 3 Load.round_refused
            ++ [Load.Freeaddrinfo; Load.Free]
    /\ Load.acquired tr = [Load.Buffer; Load.AddrList; Load.Sock]
    /\ Load.released tr = [Load.AddrList; Load.Buffer].
Proof.
  apply (load_net_main_leaks_socket
           (Load.env_of ([Load.round_send; Load.round_send]
                         ++ Load.round_refused :: [Load.round_send]))
           [Load.round_send; Load.round_send] [Load.round_send] Load.round_refused).
  - unfold Load.setup_ok. cbn. repeat split; discriminate.
  - reflexivity.
  - repeat constructor.
  - unfold Load.failing. cbn. split; [reflexivity |]. right. split; [reflexivity | lia].
Defined.

(** X21: SIGINT ends the network thread cleanly: when, after rounds in
    which a datagram was sent, the flag is found set by the test of the loop,
    no further [select] or [sendto] is made; the socket is shut down and
    closed, the address list freed and the buffer freed, in this order. *)
Theorem load_net_main_sigint (e : Load.net_env) (pre post : list Load.round)
    (r : Load.round) :
  Load.setup_ok e ->
  Load.rounds e = pre ++ r :: post ->
  Forall Load.sending pre ->
  Load.sig_before r = true ->
  Load.net_main e 0
  = Some (Load.setup_events e
          ++ concat (map (Load.round_events (Load.socket_ret e)) pre)
          ++ [Load.Shutdown (Load.socket_ret e); Load.Close (Load.socket_ret e);
              Load.Freeaddrinfo; Load.Free]).
Proof.
  intros Hok Hr Hall Hb.
  rewrite (load_net_main_setup e 0 Hok), Hr, load_net_loop_sending by exact Hall.
  cbn [Load.net_loop]. rewrite Hb. cbn [Z.eqb negb].
  unfold Load.on_error_3, Load.on_error_2, Load.on_error_1, Load.on_error_0.
  rewrite <- !app_assoc. reflexivity.
Qed.

Lemma load_net_main_sigint_witness :
  Load.net_main (Load.env_of ([Load.round_send] ++ Load.round_sigint :: [Load.round_send])) 0
  = Some (Load.setup_events (Load.env_of ([Load.round_send]
                                          ++ Load.round_sigint :: [Load.round_send]))
          ++ concat (map (Load.round_events 3) [Load.round_send])
          ++ [Load.Shutdown 3; Load.Close 3; Load.Freeaddrinfo; Load.Free]).
Proof.
  apply (load_net_main_sigint
           (Load.env_of ([Load.round_send] ++ Load.round_sigint :: [Load.round_send]))
           [Load.round_send] [Load.round_send] Load.round_sigint).
  - unfold Load.setup_ok. cbn. repeat split; discriminate.
  - reflexivity.
  - repeat constructor.
  - reflexivity.
Defined.
